(** * Another Quick Switcher: suggestion engine, header navigation,
      phantom files and suggestion rendering

    A shallow embedding of the TypeScript sources
    [src/ui/AnotherQuickSwitcherModal.ts], [src/ui/HeaderModal.ts],
    [src/ui/suggestion-factory.ts] and [src/app-helper.ts], followed by the
    properties established about them.

    JavaScript strings are sequences of UTF-16 code units, JavaScript
    integers are [Z], optional fields are [option], objects compared with
    [===] carry the address they were allocated at. A method that updates
    the modal returns the modal after the call beside its result.

    The modules [src/matcher], [src/sorters], [utils/strings],
    [utils/path], [utils/collection-helper] and [./icons] are imported by
    these sources but their bodies are not at hand: what a function takes
    from them is a field of a record of imports, and where a property
    depends on what they compute they are modelled from the
    specification, in definitions marked as such. Console logging and
    timing are left out. *)

From Stdlib Require Import String Ascii DecimalString.
From Stdlib Require Import ZArith NArith QArith Bool Lia.
From Stdlib Require Import List Permutation.
Import ListNotations.

Local Open Scope Z_scope.

(* ================================================================== *)
(** * JavaScript strings *)
(* ================================================================== *)

Module Js.

(** A string is the list of its UTF-16 code units. *)
Definition jsstring : Type := list N.

(** Literals: an ASCII Rocq string read as code units. *)
Definition str (s : string) : jsstring :=
  map N_of_ascii (list_ascii_of_string s).

Fixpoint eqb (a b : jsstring) : bool :=
  match a, b with
  | [], [] => true
  | x :: a', y :: b' => (x =? y)%N && eqb a' b'
  | _, _ => false
  end.

(** Truthiness of a string value: only the empty string is falsy. *)
Definition truthy (s : jsstring) : bool :=
  match s with [] => false | _ :: _ => true end.

(** [s.startsWith(p)] *)
Fixpoint startsWith (s p : jsstring) : bool :=
  match p, s with
  | [], _ => true
  | _ :: _, [] => false
  | b :: p', a :: s' => (a =? b)%N && startsWith s' p'
  end.

(** [s.endsWith(p)] *)
Definition endsWith (s p : jsstring) : bool :=
  startsWith (rev s) (rev p).

(** [s.includes(p)] *)
Fixpoint includes (s p : jsstring) : bool :=
  startsWith s p ||
  match s with
  | [] => false
  | _ :: s' => includes s' p
  end.

(** [s.replace(p, "")] for a string pattern [p]: the first occurrence of
    [p] is removed, and [s] is returned unchanged when there is none. *)
Fixpoint removeFirst (s p : jsstring) : jsstring :=
  match s with
  | [] => []
  | c :: s' =>
      if startsWith s p then skipn (length p) s
      else c :: removeFirst s' p
  end.

(** The code units [String.prototype.trim] strips: WhiteSpace and
    LineTerminator of ECMAScript. U+3000 is the full-width space. *)
Definition isWhiteSpace (c : N) : bool :=
  existsb (N.eqb c)
    [0x0009; 0x000A; 0x000B; 0x000C; 0x000D; 0x0020; 0x00A0; 0x1680;
     0x2000; 0x2001; 0x2002; 0x2003; 0x2004; 0x2005; 0x2006; 0x2007;
     0x2008; 0x2009; 0x200A; 0x2028; 0x2029; 0x202F; 0x205F; 0x3000;
     0xFEFF]%N.

Fixpoint trimStart (s : jsstring) : jsstring :=
  match s with
  | [] => []
  | c :: s' => if isWhiteSpace c then trimStart s' else s
  end.

Definition trimEnd (s : jsstring) : jsstring := rev (trimStart (rev s)).

(** [s.trim()] *)
Definition trim (s : jsstring) : jsstring := trimEnd (trimStart s).

(** [s.split(sep)] for a separator of one code unit. The result is never
    empty: [("").split(" ")] is [[""]]. *)
Fixpoint split (s : jsstring) (sep : N) : list jsstring :=
  match s with
  | [] => [[]]
  | c :: s' =>
      if (c =? sep)%N then [] :: split s' sep
      else
        match split s' sep with
        | [] => [[c]]
        | w :: ws => (c :: w) :: ws
        end
  end.

(** [xs.join(sep)] *)
Fixpoint join (xs : list jsstring) (sep : jsstring) : jsstring :=
  match xs with
  | [] => []
  | [x] => x
  | x :: xs' => x ++ sep ++ join xs' sep
  end.

(** A number inside a template literal, for integers. *)
Definition numToString (z : Z) : jsstring :=
  str (NilZero.string_of_int (Z.to_int z)).

(** [xs.slice(0, n)]: a negative [n] counts from the end. *)
Definition slice0 {A : Type} (xs : list A) (n : Z) : list A :=
  let len := Z.of_nat (length xs) in
  let stop := if n <? 0 then Z.max (len + n) 0 else Z.min n len in
  firstn (Z.to_nat stop) xs.

(** [xs.map((x, i) => f(x, i))], the index starting at [i]. *)
Fixpoint mapiFrom {A B : Type} (f : A -> Z -> B) (i : Z) (xs : list A)
  : list B :=
  match xs with
  | [] => []
  | x :: xs' => f x i :: mapiFrom f (i + 1) xs'
  end.

Definition mapi {A B : Type} (f : A -> Z -> B) (xs : list A) : list B :=
  mapiFrom f 0 xs.

(** The space and the full-width space. *)
Definition SPACE : N := 0x20%N.
Definition FULLWIDTH_SPACE : N := 0x3000%N.

End Js.

Import Js.

(* ================================================================== *)
(** * Helpers of [utils/collection-helper] and [utils/strings] *)
(* ================================================================== *)

Module Collection.

(** Insertion of [x] in front of the first element it does not come
    after: [cmp x y <= 0]. The comparator follows the convention of
    [Array.prototype.sort]: negative when [x] goes first. *)
Fixpoint insert {A : Type} (cmp : A -> A -> Z) (x : A) (l : list A)
  : list A :=
  match l with
  | [] => [x]
  | y :: l' => if cmp x y <=? 0 then x :: l else y :: insert cmp x l'
  end.

(** [xs.sort(cmp)]: a stable sort (ECMAScript 2019). *)
Definition stableSort {A : Type} (cmp : A -> A -> Z) (l : list A)
  : list A :=
  fold_right (insert cmp) [] l.

(** Cutting a string at every code unit that satisfies [sep]. *)
Fixpoint splitBy (sep : N -> bool) (s : jsstring) : list jsstring :=
  match s with
  | [] => [[]]
  | c :: s' =>
      if sep c then [] :: splitBy sep s'
      else
        match splitBy sep s' with
        | [] => [[c]]
        | w :: ws => (c :: w) :: ws
        end
  end.

(** Modelled from the spec: [smartWhitespaceSplit] of [utils/strings],
    whose body is not part of the sources: "Splits on runs of whitespace
    (including full-width space characters), discards empty fragments,
    preserves relative order." *)
Definition smartWhitespaceSplit (text : jsstring) : list jsstring :=
  filter truthy (splitBy isWhiteSpace text).

End Collection.

(* ================================================================== *)
(** * Files of the host application *)
(* ================================================================== *)

Module FileStats.
Record t : Type := mk { ctime : Z; mtime : Z; size : Z }.
End FileStats.

Module TFolder.
Record t : Type := mk { name : jsstring; path : jsstring }.
End TFolder.

Module TFile.
Record t : Type := mk {
  path : jsstring;
  name : jsstring;
  basename : jsstring;
  extension : jsstring;
  parent : TFolder.t;
  stat : FileStats.t
}.
End TFile.

(* ================================================================== *)
(** * [src/matcher]: match results and suggestion items *)
(* ================================================================== *)

Module Matcher.

(** Modelled from the spec: the kind of a match result,
    "Name | Alias | Tag | Header | Link | NotFound"; the type declarations
    of [src/matcher] are not part of the sources, which test the kind
    against ["not found"], ["tag"], ["link"] and ["header"]. *)
Inductive MatchType : Type :=
| Name | Alias | Tag | Header | Link | NotFound.

Definition MatchType_eqb (a b : MatchType) : bool :=
  match a, b with
  | Name, Name | Alias, Alias | Tag, Tag | Header, Header
  | Link, Link | NotFound, NotFound => true
  | _, _ => false
  end.

(** Modelled from the spec: the score, "numeric fuzzy-match quality, or
    a sentinel exact value when the match is a literal substring hit". *)
Inductive Score : Type :=
| Exact
| Fuzzy (q : Q).

(** Modelled from the spec: one verdict per (item, token). [alias] is the
    flag the spec calls [isAlias] and the sources test as [res.alias];
    [meta] is optional in the sources, which read it as [x.meta ?? []]. *)
Record MatchQueryResult : Type := mkResult {
  type : MatchType;
  alias : bool;
  meta : option (list jsstring);
  score : option Score
}.

(** A suggestion item, with the fields the modal gives the items it
    indexes; the front matter, which the functions below never read, is
    left out. *)
Record SuggestionItem : Type := mkItem {
  file : TFile.t;
  tokens : list jsstring;
  aliases : list jsstring;
  headers : list jsstring;
  links : list jsstring;
  tags : list jsstring;
  phantom : bool;
  starred : bool;
  matchResults : list MatchQueryResult;
  order : option Z
}.

(** [{ ...x, matchResults: rs }] *)
Definition withMatchResults (x : SuggestionItem)
    (rs : list MatchQueryResult) : SuggestionItem :=
  mkItem (file x) (tokens x) (aliases x) (headers x) (links x) (tags x)
         (phantom x) (starred x) rs (order x).

(** [{ ...x, order }] *)
Definition withOrder (x : SuggestionItem) (i : Z) : SuggestionItem :=
  mkItem (file x) (tokens x) (aliases x) (headers x) (links x) (tags x)
         (phantom x) (starred x) (matchResults x) (Some i).

(** The options object [_getSuggestions] hands to [stampMatchResults]. *)
Record Options : Type := mkOptions {
  isNormalizeAccentsDiacritics : bool;
  searchByHeaders : bool;
  searchByLinks : bool;
  searchByTags : bool;
  fuzzyTarget : bool;
  minFuzzyScore : Q
}.

(** [x.type !== "not found"] *)
Definition found (r : MatchQueryResult) : bool :=
  negb (MatchType_eqb (type r) NotFound).

(** The text operations the matchers rest on. Case mapping, diacritic
    folding and the fuzzy scoring formula are left open by the spec. *)
Record TextOps : Type := mkTextOps {
  toLowerCase : jsstring -> jsstring;
  foldDiacritics : jsstring -> jsstring;
  fuzzyScore : jsstring -> jsstring -> Q
}.

Section Matching.

Variable ops : TextOps.

(** Modelled from the spec: [normalize] "lower-cases and, if enabled,
    strips combining diacritical marks". *)
Definition normalize (text : jsstring) (fold : bool) : jsstring :=
  let t := toLowerCase ops text in
  if fold then foldDiacritics ops t else t.

(** Modelled from the spec: exact substring match, "normalized facet
    value contains normalized token as a contiguous substring". *)
Definition exactMatch (opts : Options) (token value : jsstring) : bool :=
  includes (normalize value (isNormalizeAccentsDiacritics opts))
           (normalize token (isNormalizeAccentsDiacritics opts)).

(** Modelled from the spec: fuzzy match, available only when fuzzy
    search is allowed and "accepted only if score >= minFuzzyScore". *)
Definition fuzzyMatch (opts : Options) (token value : jsstring)
  : option Q :=
  if fuzzyTarget opts then
    let s := fuzzyScore ops
               (normalize token (isNormalizeAccentsDiacritics opts))
               (normalize value (isNormalizeAccentsDiacritics opts)) in
    if Qle_bool (minFuzzyScore opts) s then Some s else None
  else None.

(** Modelled from the spec: the first facet value a fuzzy match
    accepts. *)
Fixpoint firstFuzzy (opts : Options) (token : jsstring)
    (values : list jsstring) : option (jsstring * Q) :=
  match values with
  | [] => None
  | v :: vs =>
      match fuzzyMatch opts token v with
      | Some s => Some (v, s)
      | None => firstFuzzy opts token vs
      end
  end.

(** Modelled from the spec: one field matcher,
    [match(item, facetValues, token, config) -> MatchResult?], which
    "returns none if this facet is disabled or no facet value exists",
    an exact hit being preferred to a fuzzy one. The result carries
    the matched values and the score. *)
Definition matchFacet (enabled : bool) (opts : Options)
    (values : list jsstring) (token : jsstring)
  : option (list jsstring * Score) :=
  if enabled then
    match filter (exactMatch opts token) values with
    | v :: vs => Some (v :: vs, Exact)
    | [] =>
        match firstFuzzy opts token values with
        | Some (v, s) => Some ([v], Fuzzy s)
        | None => None
        end
    end
  else None.

(** Modelled from the spec: the facets a search looks at, "which facets
    to search (tag, header, link; name is always on)". *)
Definition facetEnabled (opts : Options) (k : MatchType) : bool :=
  match k with
  | Name | Alias => true
  | Tag => searchByTags opts
  | Header => searchByHeaders opts
  | Link => searchByLinks opts
  | NotFound => false
  end.

(** Modelled from the spec: the facet data of an item, "nameTokens,
    aliases, tags, headers, links". *)
Definition facetValues (item : SuggestionItem) (k : MatchType)
  : list jsstring :=
  match k with
  | Name => tokens item
  | Alias => aliases item
  | Tag => tags item
  | Header => headers item
  | Link => links item
  | NotFound => []
  end.

(** Modelled from the spec: facet precedence
    "Name > Alias > Tag > Header > Link". *)
Definition facetPrecedence : list MatchType :=
  [Name; Alias; Tag; Header; Link].

(** Modelled from the spec: the matcher of facet [k] on one token. *)
Definition tryFacet (item : SuggestionItem) (opts : Options)
    (token : jsstring) (k : MatchType)
  : option (list jsstring * Score) :=
  matchFacet (facetEnabled opts k) opts (facetValues item k) token.

(** Modelled from the spec: "the first facet that yields a non-none
    result" among [ks] decides; none of them leaves [NotFound]. *)
Fixpoint firstFacet (item : SuggestionItem) (opts : Options)
    (token : jsstring) (ks : list MatchType) : MatchQueryResult :=
  match ks with
  | [] => mkResult NotFound false None None
  | k :: ks' =>
      match tryFacet item opts token k with
      | Some (vs, s) =>
          mkResult k (MatchType_eqb k Alias) (Some vs) (Some s)
      | None => firstFacet item opts token ks'
      end
  end.

(** Modelled from the spec: the verdict for one (item, token) pair,
    "the first facet that yields a non-none result ... becomes this
    token's MatchResult; if no enabled facet yields a match, record
    NotFound". *)
Definition matchQuery (item : SuggestionItem) (token : jsstring)
    (opts : Options) : MatchQueryResult :=
  firstFacet item opts token facetPrecedence.

(** Modelled from the spec: [stampMatchResults(item, tokens, config)]
    of [src/matcher], which "returns item with matchResults
    populated", one result per token. *)
Definition stampMatchResults (item : SuggestionItem)
    (queries : list jsstring) (opts : Options) : SuggestionItem :=
  withMatchResults item (map (fun q => matchQuery item q opts) queries).

End Matching.

End Matcher.

(* ================================================================== *)
(** * [src/sorters]: the priority sorter *)
(* ================================================================== *)

Module Sorters.

Import Matcher.

(** Sort priorities are names, dispatched on as strings. *)
Definition SortPriority : Type := jsstring.

(** [{ [path: string]: number }], in assignment order. *)
Definition IndexByPath : Type := list (jsstring * Z).

Fixpoint assign (o : IndexByPath) (k : jsstring) (v : Z) : IndexByPath :=
  match o with
  | [] => [(k, v)]
  | (k', v') :: o' =>
      if Js.eqb k' k then (k', v) :: o' else (k', v') :: assign o' k v
  end.

Fixpoint lookup (o : IndexByPath) (k : jsstring) : option Z :=
  match o with
  | [] => None
  | (k', v) :: o' => if Js.eqb k' k then Some v else lookup o' k
  end.

(** Modelled from the spec: what it leaves open about the priority
    rules of [src/sorters], how one rule compares two items and which
    rules only make sense with a query. *)
Record Rules : Type := mkRules {
  compareRule :
    SortPriority -> IndexByPath -> SuggestionItem -> SuggestionItem -> Z;
  requiresQuery : SortPriority -> bool
}.

Section Sorting.

Variable rules : Rules.

(** Modelled from the spec: "compare two items by applying priorities
    in list order; the first rule that yields a non-zero comparison
    decides the relative order". *)
Fixpoint compare (priorities : list SortPriority) (idx : IndexByPath)
    (a b : SuggestionItem) : Z :=
  match priorities with
  | [] => 0
  | p :: ps =>
      let r := compareRule rules p idx a b in
      if r =? 0 then compare ps idx a b else r
  end.

(** Modelled from the spec: [sort(items, priorities, recencyIndex)] of
    [src/sorters], "a stable sort". *)
Definition sort (items : list SuggestionItem)
    (priorities : list SortPriority) (idx : IndexByPath)
  : list SuggestionItem :=
  Collection.stableSort (compare priorities idx) items.

(** Modelled from the spec: [filterNoQueryPriorities] of [src/sorters],
    "rules that only make sense for match quality ... are skipped". *)
Definition filterNoQueryPriorities (priorities : list SortPriority)
  : list SortPriority :=
  filter (fun p => negb (requiresQuery rules p)) priorities.

End Sorting.

End Sorters.

(* ================================================================== *)
(** * Document fragments *)
(* ================================================================== *)

Module Dom.

Set Warnings "-register-all".

(** The elements the modal and the factory build. [Html] is markup
    inserted with [insertAdjacentHTML]. *)
Inductive Node : Type :=
| Element (tag : jsstring) (cls : list jsstring)
          (attr : list (jsstring * jsstring)) (children : list Node)
| TextNode (text : jsstring)
| Html (markup : jsstring).

Definition createDiv (cls : list jsstring) (text : option jsstring) : Node :=
  Element (str "div") cls []
          (match text with Some t => [TextNode t] | None => [] end).

Definition createSpan (cls : list jsstring) (text : option jsstring)
    (attr : list (jsstring * jsstring)) : Node :=
  Element (str "span") cls attr
          (match text with Some t => [TextNode t] | None => [] end).

(** [el.appendChild(c)], [el.appendText(s)] and
    [el.insertAdjacentHTML("beforeend", s)] all add a last child. *)
Definition appendChild (el child : Node) : Node :=
  match el with
  | Element tag cls attr children =>
      Element tag cls attr (children ++ [child])
  | _ => el
  end.

(** [el.insertAdjacentHTML("afterbegin", s)] adds a first child. *)
Definition prependChild (el child : Node) : Node :=
  match el with
  | Element tag cls attr children =>
      Element tag cls attr (child :: children)
  | _ => el
  end.

End Dom.

(* ================================================================== *)
(** * [src/ui/AnotherQuickSwitcherModal.ts] *)
(* ================================================================== *)

Module Switcher.

Import Matcher Sorters Dom.

Inductive SearchTarget : Type :=
| TargetFile | TargetBacklink | TargetLink | TargetTwoHopLink.

Module SearchBy.
Record t : Type := mk { tag : bool; header : bool; link : bool }.
End SearchBy.

(** A search command of the settings. Commands are compared with [!==],
    that is by identity: [ref] is the identity of the object. *)
Record SearchCommand : Type := mkCommand {
  ref : nat;
  name : jsstring;
  searchBy : SearchBy.t;
  searchTarget : SearchTarget;
  allowFuzzySearchForSearchTarget : bool;
  minFuzzyMatchScore : Q;
  commandPrefix : jsstring;
  defaultInput : jsstring;
  sortPriorities : list SortPriority
}.

Record Settings : Type := mkSettings {
  searchCommands : list SearchCommand;
  maxNumberOfSuggestions : Z;
  normalizeAccentsAndDiacritics : bool
}.

(** The markup constants of [./icons] the modal uses. *)
Record Icons : Type := mkIcons {
  FILTER : jsstring;
  HEADER : jsstring;
  LINK : jsstring;
  SEARCH : jsstring;
  TAG : jsstring
}.

(** What the modal imports from modules whose bodies are not part of the
    sources, and what it asks of the host application. *)
Record Imports : Type := mkImports {
  stampMatchResults :
    SuggestionItem -> list jsstring -> Options -> SuggestionItem;
  (** taken to return the ranked list, as the contract of the spec has it *)
  sort :
    list SuggestionItem -> list SortPriority -> IndexByPath ->
    list SuggestionItem;
  filterNoQueryPriorities : list SortPriority -> list SortPriority;
  smartWhitespaceSplit : jsstring -> list jsstring;
  icons : Icons;
  (** [app.workspace.getLastOpenFiles()] *)
  getLastOpenFiles : list jsstring;
  (** the file items [indexingItems] builds from the vault *)
  fileItems : SearchCommand -> option TFile.t -> list SuggestionItem;
  (** [prefilterItems(command)], which reads the link graph *)
  prefilterItems :
    SearchCommand -> option TFile.t -> list SuggestionItem ->
    list SuggestionItem
}.

Record CustomSearchHistory : Type := mkHistory {
  historyOriginFile : option TFile.t;
  historyCommand : SearchCommand;
  inputQuery : jsstring
}.

(** The fields of the modal the suggestion computation reads or writes.
    A field for a status element holds the element while it is part of
    the document. *)
Record Modal : Type := mkModal {
  settings : Settings;
  initialCommand : SearchCommand;
  command : SearchCommand;
  originFile : option TFile.t;
  navigationHistories : list CustomSearchHistory;
  currentNavigationHistoryIndex : Z;
  phantomItems : list SuggestionItem;
  originItems : list SuggestionItem;
  ignoredItems : list SuggestionItem;
  searchQuery : jsstring;
  navigationHistoryEl : option Node;
  searchCommandEl : option Node;
  defaultInputEl : option Node;
  countInputEl : option Node
}.

(** The item the constructor makes of a phantom file: every facet but
    the name is empty. *)
Definition phantomItem (x : TFile.t) : SuggestionItem :=
  mkItem x (split (TFile.basename x) SPACE) [] [] [] [] true false [] None.

Definition setCommand (m : Modal) (c : SearchCommand) : Modal :=
  mkModal (settings m) (initialCommand m) c (originFile m)
          (navigationHistories m) (currentNavigationHistoryIndex m)
          (phantomItems m) (originItems m) (ignoredItems m)
          (searchQuery m) (navigationHistoryEl m) (searchCommandEl m)
          (defaultInputEl m) (countInputEl m).

Definition setItems (m : Modal) (origin ignored : list SuggestionItem)
  : Modal :=
  mkModal (settings m) (initialCommand m) (command m) (originFile m)
          (navigationHistories m) (currentNavigationHistoryIndex m)
          (phantomItems m) origin ignored
          (searchQuery m) (navigationHistoryEl m) (searchCommandEl m)
          (defaultInputEl m) (countInputEl m).

Definition setSearchQuery (m : Modal) (q : jsstring) : Modal :=
  mkModal (settings m) (initialCommand m) (command m) (originFile m)
          (navigationHistories m) (currentNavigationHistoryIndex m)
          (phantomItems m) (originItems m) (ignoredItems m)
          q (navigationHistoryEl m) (searchCommandEl m)
          (defaultInputEl m) (countInputEl m).

Definition setStatusElements (m : Modal)
    (navigation searchCommand defaultInput count : option Node) : Modal :=
  mkModal (settings m) (initialCommand m) (command m) (originFile m)
          (navigationHistories m) (currentNavigationHistoryIndex m)
          (phantomItems m) (originItems m) (ignoredItems m)
          (searchQuery m) navigation searchCommand defaultInput count.

Definition setCountInputEl (m : Modal) (el : option Node) : Modal :=
  setStatusElements m (navigationHistoryEl m) (searchCommandEl m)
                    (defaultInputEl m) el.

(** [a !== b] on two commands is [negb (sameObject a b)]. *)
Definition sameObject (a b : SearchCommand) : bool :=
  Nat.eqb (ref a) (ref b).

(** [`${shown} / ${total}`] *)
Definition countText (shown total : Z) : jsstring :=
  numToString shown ++ str " / " ++ numToString total.

(** The count element of lines 409-415. *)
Definition countInput (shown total : Z) : Node :=
  createDiv [str "another-quick-switcher__status__count-input"]
            (Some (countText shown total)).

Section Suggestions.

Variable env : Imports.

(** [indexingItems()] *)
Definition indexingItems (m : Modal) : Modal :=
  let origin :=
    fileItems env (command m) (originFile m) ++ phantomItems m in
  setItems m origin (prefilterItems env (command m) (originFile m) origin).

(** The object the [forEach] over the last open files fills. *)
Definition lastOpenFileIndexByPath : IndexByPath :=
  fold_left (fun o vi => assign o (fst vi) (snd vi))
            (mapi (fun v i => (v, i)) (getLastOpenFiles env)) [].

Definition commandByPrefix (m : Modal) (query : jsstring)
  : option SearchCommand :=
  find (fun x => startsWith query (commandPrefix x))
       (filter (fun x => truthy (commandPrefix x))
               (searchCommands (settings m))).

(** Lines 352-360: the command is replaced, and the items indexed
    again, when the prefix of the query designates another command. *)
Definition selectCommand (m : Modal) (query : jsstring) : Modal :=
  let byPrefix := commandByPrefix m query in
  let differs :=
    match byPrefix with
    | Some c => negb (sameObject c (command m))
    | None => true
    end in
  let wanted :=
    match byPrefix with
    | Some _ => true
    | None => negb (sameObject (initialCommand m) (command m))
    end in
  if wanted && differs then
    indexingItems
      (setCommand m
         (match byPrefix with
          | Some c => c
          | None => initialCommand m
          end))
  else m.

(** Lines 361-366. *)
Definition resolveSearchQuery (m : Modal) (query : jsstring) : jsstring :=
  let q :=
    if startsWith query (commandPrefix (command m))
    then removeFirst query (commandPrefix (command m))
    else query in
  if truthy (defaultInput (command m))
  then defaultInput (command m) ++ q
  else q.

(** [renderInputComponent()]: the four status elements are removed;
    the navigation header and the command line are built again, the
    default input too when the command has one. The count element comes
    back only at the end of [_getSuggestions]. *)
Definition renderInputComponent (m : Modal) : Modal :=
  let navigationHistoryEl :=
    createDiv
      [str "another-quick-switcher__custom-search__navigation-history-header"]
      None in
  let backHistoryLength := currentNavigationHistoryIndex m in
  let navigationHistoryEl :=
    if 0 <? backHistoryLength
    then appendChild navigationHistoryEl
           (TextNode (numToString backHistoryLength ++ str " < "))
    else navigationHistoryEl in
  let navigationHistoryEl :=
    appendChild navigationHistoryEl
      (TextNode (match originFile m with
                 | Some f => TFile.basename f
                 | None => str "No file"
                 end)) in
  let forwardHistoryLength :=
    Z.of_nat (length (navigationHistories m))
    - currentNavigationHistoryIndex m - 1 in
  let navigationHistoryEl :=
    if 0 <? forwardHistoryLength
    then appendChild navigationHistoryEl
           (TextNode (str " > " ++ numToString forwardHistoryLength))
    else navigationHistoryEl in
  let searchCommandEl :=
    createDiv [str "another-quick-switcher__status__search-command"] None in
  let searchCommandEl := appendChild searchCommandEl (Html (SEARCH (icons env))) in
  let searchCommandEl :=
    appendChild searchCommandEl
                (TextNode (name (command m) ++ str " ... ")) in
  let searchCommandEl :=
    if SearchBy.tag (searchBy (command m))
    then appendChild searchCommandEl (Html (TAG (icons env)))
    else searchCommandEl in
  let searchCommandEl :=
    if SearchBy.header (searchBy (command m))
    then appendChild searchCommandEl (Html (HEADER (icons env)))
    else searchCommandEl in
  let searchCommandEl :=
    if SearchBy.link (searchBy (command m))
    then appendChild searchCommandEl (Html (LINK (icons env)))
    else searchCommandEl in
  let defaultInputEl :=
    if truthy (defaultInput (command m))
    then Some (prependChild
                 (createDiv
                    [str "another-quick-switcher__status__default-input"]
                    (Some (searchQuery m)))
                 (Html (FILTER (icons env))))
    else None in
  setStatusElements m (Some navigationHistoryEl) (Some searchCommandEl)
                    defaultInputEl None.

(** The modal when the matching starts (lines 348-368). *)
Definition prepare (m : Modal) (query : jsstring) : Modal :=
  let m1 := selectCommand m query in
  renderInputComponent (setSearchQuery m1 (resolveSearchQuery m1 query)).

(** [this.command.searchTarget === "backlink" && !this.originFile?.path] *)
Definition backlinkWithoutOrigin (m : Modal) : bool :=
  match searchTarget (command m) with
  | TargetBacklink =>
      match originFile m with
      | Some f => negb (truthy (TFile.path f))
      | None => true
      end
  | _ => false
  end.

(** [!this.searchQuery.trim()] *)
Definition isQueryEmpty (m : Modal) : bool :=
  negb (truthy (trim (searchQuery m))).

Definition matchOptions (m : Modal) : Options :=
  mkOptions (normalizeAccentsAndDiacritics (settings m))
            (SearchBy.header (searchBy (command m)))
            (SearchBy.link (searchBy (command m)))
            (SearchBy.tag (searchBy (command m)))
            (allowFuzzySearchForSearchTarget (command m))
            (minFuzzyMatchScore (command m)).

(** Lines 378-392: the eligible items. *)
Definition matchedSuggestions (m : Modal) (qs : list jsstring)
  : list SuggestionItem :=
  if isQueryEmpty m then ignoredItems m
  else
    filter (fun x => forallb found (matchResults x))
           (map (fun x => stampMatchResults env x qs (matchOptions m))
                (ignoredItems m)).

(** Lines 394-400: the ranked items, before truncation. *)
Definition sortedSuggestions (m : Modal) (qs : list jsstring)
  : list SuggestionItem :=
  sort env (matchedSuggestions m qs)
       (if isQueryEmpty m
        then filterNoQueryPriorities env (sortPriorities (command m))
        else sortPriorities (command m))
       lastOpenFileIndexByPath.

(** Lines 418-420. *)
Definition truncateAndNumber (m : Modal) (items : list SuggestionItem)
  : list SuggestionItem :=
  mapi withOrder (slice0 items (maxNumberOfSuggestions (settings m))).

(** [_getSuggestions(query)]: the suggestions and the modal after the
    call. *)
Definition _getSuggestions (m : Modal) (query : jsstring)
  : list SuggestionItem * Modal :=
  let m' := prepare m query in
  let qs := smartWhitespaceSplit env (searchQuery m') in
  if backlinkWithoutOrigin m' then ([], m')
  else
    let items := sortedSuggestions m' qs in
    let total := Z.of_nat (length items) in
    let shown := Z.min total (maxNumberOfSuggestions (settings m')) in
    (truncateAndNumber m' items,
     setCountInputEl m' (Some (countInput shown total))).

End Suggestions.

(** The imports as the spec describes them, over the parts it leaves
    open. *)
Definition specImports (ops : TextOps) (rules : Rules)
    (markup : Icons) (lastOpen : list jsstring)
    (files : SearchCommand -> option TFile.t -> list SuggestionItem)
    (prefilter : SearchCommand -> option TFile.t ->
                 list SuggestionItem -> list SuggestionItem)
  : Imports :=
  mkImports (Matcher.stampMatchResults ops)
            (Sorters.sort rules)
            (Sorters.filterNoQueryPriorities rules)
            Collection.smartWhitespaceSplit markup
            lastOpen files prefilter.

End Switcher.

(* ================================================================== *)
(** * [src/ui/suggestion-factory.ts] *)
(* ================================================================== *)

Module SuggestionFactory.

Import Matcher.

Import Dom.

Record Elements : Type := mkElements {
  itemDiv : Node;
  descriptionDiv : option Node
}.

Record Options : Type := mkOptions {
  showDirectory : bool;
  showFullPathOfDirectory : bool;
  showAliasesOnTop : bool;
  hideGutterIcons : bool
}.

(** The markup constants of [./icons] and the helpers of
    [utils/collection-helper], whose bodies are not part of the sources.
    [count] yields the entries of the object it returns, in the order
    [Object.entries] lists them. *)
Record Imports : Type := mkImports {
  ALIAS : jsstring;
  FOLDER : jsstring;
  HEADER : jsstring;
  LINK : jsstring;
  TAG : jsstring;
  count : list jsstring -> list (jsstring * Z);
  uniq : list jsstring -> list jsstring;
  uniqFlatMap :
    list MatchQueryResult -> (MatchQueryResult -> list jsstring) ->
    list jsstring
}.

(** ** Objects and their identity

    [===] on two objects compares identities. Every object is allocated
    at the next free address of the heap; a computation that allocates
    threads that address. *)
Record Object (A : Type) : Type := mkObject {
  address : nat;
  contents : A
}.
Arguments mkObject {A} _ _.
Arguments address {A} _.
Arguments contents {A} _.

Definition Alloc (A : Type) : Type := nat -> A * nat.

Definition ret {A : Type} (a : A) : Alloc A := fun next => (a, next).

Definition bind {A B : Type} (c : Alloc A) (k : A -> Alloc B) : Alloc B :=
  fun next => let (a, next') := c next in k a next'.

Definition newObject {A : Type} (v : A) : Alloc (Object A) :=
  fun next => (mkObject next v, S next).

Definition strictEquals {A B : Type} (a : Object A) (b : Object B) : bool :=
  Nat.eqb (address a) (address b).

Notation "x <- c ;; k" := (bind c (fun x => k))
  (at level 61, c at next level, right associativity).

(** [x.meta ?? []] *)
Definition metaOrEmpty (x : MatchQueryResult) : list jsstring :=
  match meta x with Some vs => vs | None => [] end.

(** [cond ? cls : ""] *)
Definition clsIf (cond : bool) (cls : string) : jsstring :=
  if cond then str cls else [].

Section Factory.

Variable lib : Imports.

Definition createItemDiv (item : SuggestionItem)
    (aliases : list jsstring) (options : Options) : Node :=
  let itemDiv :=
    createDiv
      [str "another-quick-switcher__item";
       clsIf (phantom item) "another-quick-switcher__phantom_item";
       clsIf (starred item) "another-quick-switcher__starred_item";
       clsIf (hideGutterIcons options)
             "another-quick-switcher__gutter_hidden"]
      None in
  let entryDiv :=
    createDiv [str "another-quick-switcher__item__entry"] None in
  let titleDiv :=
    createDiv [str "another-quick-switcher__item__title"]
      (Some (if showAliasesOnTop options
                && (0 <? Z.of_nat (length aliases))
             then join aliases (str " / ")
             else TFile.basename (file item))) in
  let entryDiv := appendChild entryDiv titleDiv in
  let entryDiv :=
    match order item with
    | Some o =>
        if o <? 9 then
          appendChild entryDiv
            (createSpan
               [str "another-quick-switcher__item__hot-key-guide"]
               (Some (numToString (o + 1))) [])
        else entryDiv
    | None => entryDiv
    end in
  let entryDiv :=
    if showDirectory options then
      let directoryDiv :=
        createDiv [str "another-quick-switcher__item__directory"] None in
      let directoryDiv := appendChild directoryDiv (Html (FOLDER lib)) in
      let text :=
        if showFullPathOfDirectory options
        then TFolder.path (TFile.parent (file item))
        else TFolder.name (TFile.parent (file item)) in
      let directoryDiv :=
        appendChild directoryDiv (TextNode (str " " ++ text)) in
      appendChild entryDiv directoryDiv
    else entryDiv in
  appendChild itemDiv entryDiv.

(** One [span] per value, gathered in a description [div]. *)
Definition describe (spans : list Node) : Node :=
  fold_left appendChild spans
    (createDiv [str "another-quick-switcher__item__description"] None).

Definition createDescriptionDiv (item : SuggestionItem)
    (aliases tags links : list jsstring)
    (countByHeader : list (jsstring * Z)) (headerResultsNum : Z)
    (options : Options) : Node :=
  let descriptionDiv :=
    createDiv [str "another-quick-switcher__item__descriptions"] None in
  let descriptionDiv :=
    if 0 <? Z.of_nat (length aliases) then
      let displayAliases :=
        if showAliasesOnTop options
        then [TFile.basename (file item)]
        else aliases in
      appendChild descriptionDiv
        (describe
           (map (fun x =>
                   appendChild
                     (appendChild
                        (createSpan
                           [str "another-quick-switcher__item__description__alias"]
                           None [])
                        (Html (ALIAS lib)))
                     (TextNode x))
                displayAliases))
    else descriptionDiv in
  let descriptionDiv :=
    if 0 <? Z.of_nat (length tags) then
      appendChild descriptionDiv
        (describe
           (map (fun x =>
                   appendChild
                     (appendChild
                        (createSpan
                           [str "another-quick-switcher__item__description__tag"]
                           None [])
                        (Html (TAG lib)))
                     (TextNode (removeFirst x (str "#"))))
                tags))
    else descriptionDiv in
  let descriptionDiv :=
    if 0 <? Z.of_nat (length links) then
      appendChild descriptionDiv
        (describe
           (map (fun x =>
                   appendChild
                     (appendChild
                        (createSpan
                           [str "another-quick-switcher__item__description__link"]
                           None [])
                        (Html (LINK lib)))
                     (createSpan [] (Some x)
                        [(str "style", str "padding-left: 3px")]))
                links))
    else descriptionDiv in
  if 0 <? Z.of_nat (length countByHeader) then
    appendChild descriptionDiv
      (describe
         (map (fun hn =>
                 appendChild
                   (appendChild
                      (createSpan
                         [str "another-quick-switcher__item__description__header";
                          clsIf (negb (snd hn =? headerResultsNum))
                                "another-quick-switcher__item__description__header__dimmed"]
                         None [])
                      (Html (HEADER lib)))
                   (createSpan [] (Some (fst hn))
                      [(str "style", str "padding-left: 3px")]))
              (Collection.stableSort (fun a b => snd b - snd a)
                                     countByHeader)))
  else descriptionDiv.

Definition createElements (item : SuggestionItem) (options : Options)
  : Alloc Elements :=
  let aliases :=
    uniqFlatMap lib (filter alias (matchResults item)) metaOrEmpty in
  let tags :=
    uniqFlatMap lib
      (filter (fun res => MatchType_eqb (type res) Tag)
              (matchResults item))
      metaOrEmpty in
  let links :=
    uniqFlatMap lib
      (filter (fun res => MatchType_eqb (type res) Link)
              (matchResults item))
      metaOrEmpty in
  let headerResults :=
    filter (fun res => MatchType_eqb (type res) Header)
           (matchResults item) in
  let headerResultsNum := Z.of_nat (length headerResults) in
  countByHeader <-
    newObject
      (count lib
         (flat_map (fun xs => uniq lib (metaOrEmpty xs)) headerResults)) ;;
  let itemDiv := createItemDiv item aliases options in
  let describeItem :=
    ret (mkElements itemDiv
           (Some (createDescriptionDiv item aliases tags links
                    (contents countByHeader) headerResultsNum
                    options))) in
  (* [&&] evaluates the object literal only after the three length
     tests have passed *)
  if (Z.of_nat (length aliases) =? 0)
     && (Z.of_nat (length tags) =? 0)
     && (Z.of_nat (length links) =? 0)
  then
    emptyObject <- newObject (@nil (jsstring * Z)) ;;
    if strictEquals countByHeader emptyObject
    then ret (mkElements itemDiv None)
    else describeItem
  else describeItem.

End Factory.

End SuggestionFactory.

(* ================================================================== *)
(** * [src/ui/HeaderModal.ts] *)
(* ================================================================== *)

Module HeaderModal.

Module Loc.
Record t : Type := mk { line : Z; col : Z; offset : Z }.
End Loc.

Module Pos.
Record t : Type := mk { start : Loc.t; end_ : Loc.t }.
End Pos.

Record SuggestionItem : Type := mkItem {
  value : jsstring;
  level : Z;
  position : Pos.t;
  hit : bool;
  index : Z
}.

Definition withHit (x : SuggestionItem) (h : bool) : SuggestionItem :=
  mkItem (value x) (level x) (position x) h (index x).

Record Modal : Type := mkModal {
  items : list SuggestionItem;
  hitItems : list SuggestionItem;
  unsafeSelectedIndex : Z;
  normalizeAccentsAndDiacritics : bool
}.

Definition getNextSelectIndex (m : Modal) : Z :=
  if unsafeSelectedIndex m + 1 >? Z.of_nat (length (items m)) - 1
  then 0
  else unsafeSelectedIndex m + 1.

Definition getPreviousSelectIndex (m : Modal) : Z :=
  if unsafeSelectedIndex m - 1 <? 0
  then Z.of_nat (length (items m)) - 1
  else unsafeSelectedIndex m - 1.

(** [query.split(" ").filter((x) => x)] *)
Definition queryTokens (query : jsstring) : list jsstring :=
  filter truthy (split query SPACE).

Section Suggestions.

(** [smartIncludes] of [utils/strings]; its body is not part of the
    sources. *)
Variable smartIncludes : jsstring -> jsstring -> bool -> bool.

(** [getSuggestions(query)]: the suggestions and the modal after the
    call. *)
Definition getSuggestions (m : Modal) (query : jsstring)
  : list SuggestionItem * Modal :=
  let qs := queryTokens query in
  let suggestions :=
    map (fun x =>
           withHit x
             ((0 <? Z.of_nat (length qs))
              && forallb
                   (fun q =>
                      smartIncludes (value x) q
                                    (normalizeAccentsAndDiacritics m))
                   qs))
        (items m) in
  (suggestions,
   mkModal (items m) (filter hit suggestions) (unsafeSelectedIndex m)
           (normalizeAccentsAndDiacritics m)).

End Suggestions.

End HeaderModal.

(* ================================================================== *)
(** * [src/app-helper.ts]: phantom files *)
(* ================================================================== *)

Module AppHelper.

(** [vault.config.newFileLocation]; [LocationUnset] stands for a missing
    or unknown value. *)
Inductive NewFileLocation : Type :=
| LocationRoot | LocationCurrent | LocationFolder | LocationUnset.

(** The path helpers of [utils/path], the collection helpers, and what
    the host application answers. None of their bodies is part of the
    sources. *)
Record Imports : Type := mkImports {
  basename : jsstring -> option jsstring -> jsstring;
  dirname : jsstring -> jsstring;
  extname : jsstring -> jsstring;
  uniq : list jsstring -> list jsstring;
  flatten : list (list jsstring) -> list jsstring;
  (** [getLinkpath] of the host *)
  getLinkpath : jsstring -> jsstring;
  newFileLocation : NewFileLocation;
  newFileFolderPath : option jsstring;
  (** [getActiveFile()?.parent?.path] *)
  activeFileParentPath : option jsstring;
  (** [metadataCache.unresolvedLinks] *)
  unresolvedLinks : list (jsstring * list (jsstring * Z))
}.

(** A value inside a template literal: [undefined] prints as such. *)
Definition template (v : option jsstring) : jsstring :=
  match v with Some s => s | None => str "undefined" end.

Section Helper.

Variable app : Imports.

Definition getPathToBeCreated (linkText : jsstring) : jsstring :=
  let linkPath := getLinkpath app linkText in
  let linkPath :=
    if negb (Js.eqb (extname app linkPath) (str ".md"))
    then linkPath ++ str ".md"
    else linkPath in
  if includes linkPath (str "/") then linkPath
  else
    match newFileLocation app with
    | LocationRoot => str "/" ++ linkPath
    | LocationCurrent =>
        match activeFileParentPath app with
        | Some p => p
        | None => []
        end ++ str "/" ++ linkPath
    | LocationFolder =>
        template (newFileFolderPath app) ++ str "/" ++ linkPath
    | LocationUnset => str "/" ++ linkPath
    end.

Definition isPhantomFile (file : TFile.t) : bool :=
  FileStats.ctime (TFile.stat file) =? 0.

Definition createPhantomFile (linkText : jsstring) : TFile.t :=
  let linkPath := getPathToBeCreated linkText in
  TFile.mk linkPath
           (basename app linkPath None)
           (basename app linkPath (Some (str ".md")))
           (str "md")
           (TFolder.mk (basename app (dirname app linkPath) None)
                       (dirname app linkPath))
           (FileStats.mk 0 0 0).

(** The link texts that do not resolve to a file. *)
Definition unresolvedLinkTexts : list jsstring :=
  uniq app (flatten app (map (fun e => map fst (snd e))
                             (unresolvedLinks app))).

Definition searchPhantomFiles : list TFile.t :=
  map createPhantomFile unresolvedLinkTexts.

End Helper.

End AppHelper.

(* ================================================================== *)
(** * The claims of the specification, as stated *)
(* ================================================================== *)

Module Claims.

Import Matcher Sorters Switcher.

(** An item appears in a suggestion list when the list holds a
    suggestion for the same file. *)
Definition appears (c : SuggestionItem) (out : list SuggestionItem)
  : bool :=
  existsb (fun y => Js.eqb (TFile.path (file y)) (TFile.path (file c))) out.

(** Every token of the query produced a match result other than
    [NotFound] for the item. *)
Definition allTokensFound (ops : TextOps) (c : SuggestionItem)
    (qs : list jsstring) (opts : Options) : bool :=
  forallb (fun q => found (matchQuery ops c q opts)) qs.

(** The relation between output and matching as the specification words
    it: a candidate appears in the suggestion output if and only if
    every token was found for it. *)
Definition outputIffAllTokensFound (ops : TextOps) (env : Imports)
    (m : Modal) (query : jsstring) : Prop :=
  let m' := prepare env m query in
  forall c, In c (ignoredItems m') ->
    appears c (fst (_getSuggestions env m query)) = true <->
    allTokensFound ops c (smartWhitespaceSplit env (searchQuery m'))
                   (matchOptions m') = true.

(** The status count as the specification words it: beside the list,
    the total before truncation and the shown count, the minimum of the
    total and the cap. *)
Definition countsReported (env : Imports) (m : Modal) (query : jsstring)
  : Prop :=
  let m' := prepare env m query in
  let ranked :=
    sortedSuggestions env m' (smartWhitespaceSplit env (searchQuery m')) in
  let total := Z.of_nat (length ranked) in
  let cap := maxNumberOfSuggestions (settings m) in
  countInputEl (snd (_getSuggestions env m query))
  = Some (countInput (Z.min total cap) total).


End Claims.

(* ================================================================== *)
(** * Sample inputs *)
(* ================================================================== *)

Module Samples.

Import Matcher Sorters Switcher.

(** Lower-casing of the ASCII letters, no folding, no fuzzy credit. *)
Definition lowerUnit (c : N) : N :=
  if ((65 <=? c) && (c <=? 90))%N then (c + 32)%N else c.

Definition asciiOps : TextOps :=
  mkTextOps (map lowerUnit) (fun s => s) (fun _ _ => 0%Q).

(** Two rules: starred items first, then the most recently opened. *)
Definition recency (idx : IndexByPath) (x : SuggestionItem) : Z :=
  match lookup idx (TFile.path (file x)) with
  | Some i => i
  | None => 65535
  end.

Definition sampleRules : Rules :=
  mkRules
    (fun p idx a b =>
       if Js.eqb p (str "Star") then
         (if starred a then 0 else 1) - (if starred b then 0 else 1)
       else if Js.eqb p (str "Last opened") then recency idx a - recency idx b
       else 0)
    (fun p => Js.eqb p (str "Perfect word match")).

Definition note (dir base : string) (star : bool) : SuggestionItem :=
  mkItem
    (TFile.mk (str dir ++ str "/" ++ str base ++ str ".md")
              (str base ++ str ".md") (str base) (str "md")
              (TFolder.mk (str dir) (str dir))
              (FileStats.mk 1700000000000 1700000000000 42))
    (split (str base) SPACE) [] [] [] [] false star [] None.

Definition projectPlan : SuggestionItem := note "work" "Project Plan" false.
Definition projectNotes : SuggestionItem := note "work" "Project Notes" true.
Definition groceries : SuggestionItem := note "home" "Groceries" false.

Definition fileSearch : SearchCommand :=
  mkCommand 1 (str "File name search")
            (SearchBy.mk false false false) TargetFile false (1 # 2)
            [] []
            [str "Perfect word match"; str "Star"; str "Last opened"].

Definition backlinkSearch : SearchCommand :=
  mkCommand 2 (str "Backlink search")
            (SearchBy.mk false false false) TargetBacklink false (1 # 2)
            [] [] [str "Last opened"].

Definition vault : list SuggestionItem :=
  [projectPlan; projectNotes; groceries].

Definition sampleIcons : Icons :=
  mkIcons (str "<svg>filter</svg>") (str "<svg>header</svg>")
          (str "<svg>link</svg>") (str "<svg>search</svg>")
          (str "<svg>tag</svg>").

Definition lastOpened : list jsstring :=
  [str "home/Groceries.md"; str "work/Project Plan.md"].

Definition sampleEnv : Imports :=
  specImports asciiOps sampleRules sampleIcons lastOpened
              (fun _ _ => vault) (fun _ _ items => items).

Definition modalWith (cmd : SearchCommand) (cap : Z) : Modal :=
  mkModal (mkSettings [fileSearch; backlinkSearch] cap false)
          cmd cmd None [] 0 [] vault vault [] None None None None.

(** A backlink search opened while no file is active: there is no origin
    file, and no candidate passes the pre-filter. *)
Definition noOrigin : Modal :=
  mkModal (mkSettings [fileSearch; backlinkSearch] 10 false)
          backlinkSearch backlinkSearch None [] 0 [] vault [] []
          None None None None.

(** A switcher that shows one suggestion, and one that shows ten. *)
Definition oneLine : Modal := modalWith fileSearch 1.
Definition tenLines : Modal := modalWith fileSearch 10.

(** A header query with a full-width space between two words. *)
Definition fullwidthQuery : jsstring :=
  str "a" ++ [FULLWIDTH_SPACE] ++ str "b".

(** The headers of a note, the second one selected. *)
Definition headerModal : HeaderModal.Modal :=
  let at_ (o : Z) :=
    HeaderModal.Pos.mk (HeaderModal.Loc.mk o 0 (10 * o))
                       (HeaderModal.Loc.mk o 5 (10 * o + 5)) in
  HeaderModal.mkModal
    [HeaderModal.mkItem (str "Goals") 1 (at_ 0) false 0;
     HeaderModal.mkItem (str "Plan") 2 (at_ 4) false 1;
     HeaderModal.mkItem (str "Risks") 2 (at_ 9) false 2]
    [] 1 false.

(** Path helpers in the manner of a path library: the extension is what
    follows the last dot of the last segment. *)
Definition lastSegment (p : jsstring) : jsstring :=
  last (split p 47%N) [].

Definition sampleExtname (p : jsstring) : jsstring :=
  match rev (split (lastSegment p) 46%N) with
  | ext :: _ :: _ => if truthy ext then 46%N :: ext else []
  | _ => []
  end.

Definition sampleBasename (p : jsstring) (ext : option jsstring)
  : jsstring :=
  let n := lastSegment p in
  match ext with
  | Some e => if truthy e && endsWith n e then removeFirst n e else n
  | None => n
  end.

Definition sampleDirname (p : jsstring) : jsstring :=
  match rev (split p 47%N) with
  | _ :: d :: ds => join (rev (d :: ds)) (str "/")
  | _ => str "."
  end.

Definition sampleApp : AppHelper.Imports :=
  AppHelper.mkImports
    sampleBasename sampleDirname sampleExtname
    (fun xs => xs) (@concat jsstring)
    (fun linkText => hd [] (split linkText 35%N))
    AppHelper.LocationFolder (Some (str "inbox")) None
    [(str "work/Project Plan.md",
      [(str "Roadmap", 1); (str "ideas/Next.md#Draft", 2)])].

End Samples.

From Stdlib Require Import Sorted.

(* ================================================================== *)
(** * Arrays *)
(* ================================================================== *)

Module Arr.

(** [xs[i]]: [undefined] outside the array. *)
Definition at_ {A : Type} (xs : list A) (i : Z) : option A :=
  if i <? 0 then None else nth_error xs (Z.to_nat i).

(** [xs.findIndex(p)]: -1 when no element satisfies [p]. *)
Fixpoint findIndexFrom {A : Type} (p : A -> bool) (i : Z) (xs : list A)
  : Z :=
  match xs with
  | [] => -1
  | x :: xs' => if p x then i else findIndexFrom p (i + 1) xs'
  end.

Definition findIndex {A : Type} (p : A -> bool) (xs : list A) : Z :=
  findIndexFrom p 0 xs.

End Arr.

(* ================================================================== *)
(** * [src/ui/HeaderModal.ts]: selection and keys *)
(* ================================================================== *)

Module HeadingCache.
Record t : Type := mk {
  heading : jsstring;
  level : Z;
  position : HeaderModal.Pos.t
}.
End HeadingCache.

Module HeaderKeys.

Import HeaderModal Dom.

(** How a handler ends: without preview, with the editor moved to a
    position, or with the TypeError of a property read on [undefined]. The
    modal beside it is the modal as the handler left it. *)
Inductive Completion : Type :=
| Quiet
| MovedTo (p : Pos.t)
| TypeError.

(** The constructor, lines 37-43: one item per heading, numbered by
    position. [excludeFormat] is a helper of [utils/strings]. *)
Definition construct (excludeFormat : jsstring -> jsstring)
    (headings : list HeadingCache.t) (normalize : bool) : Modal :=
  mkModal
    (mapi (fun x i =>
             mkItem (excludeFormat (HeadingCache.heading x))
                    (HeadingCache.level x) (HeadingCache.position x)
                    false i)
          headings)
    [] 0 normalize.

Definition setSelectedIndex (m : Modal) (i : Z) : Modal :=
  mkModal (items m) (hitItems m) i (normalizeAccentsAndDiacritics m).

(** [select(index, preview)]: the index is stored, then the position of
    the item at that index is read for the preview. The selection of the
    chooser is the host's. *)
Definition select (m : Modal) (index : Z) (preview : bool)
  : Modal * Completion :=
  let m' := setSelectedIndex m index in
  if preview then
    match Arr.at_ (items m') (unsafeSelectedIndex m') with
    | Some x => (m', MovedTo (position x))
    | None => (m', TypeError)
    end
  else (m', Quiet).

(** [hitItems.find(p)?.index ?? hitItems[0].index], then [select]. *)
Definition selectHitOrFirst (m : Modal) (p : SuggestionItem -> bool)
    (floating : bool) : Modal * Completion :=
  match find p (hitItems m) with
  | Some x => select m (index x) floating
  | None =>
      match Arr.at_ (hitItems m) 0 with
      | Some h => select m (index h) floating
      | None => (m, TypeError)
      end
  end.


Definition navigateNext (m : Modal) (floating : bool)
  : Modal * Completion :=
  select m (getNextSelectIndex m) floating.

Definition navigatePrevious (m : Modal) (floating : bool)
  : Modal * Completion :=
  select m (getPreviousSelectIndex m) floating.

Definition moveToNextHit (m : Modal) (floating : bool)
  : Modal * Completion :=
  if Z.of_nat (length (hitItems m)) =? 1 then (m, Quiet)
  else if Z.of_nat (length (hitItems m)) =? 0 then navigateNext m floating
  else
    selectHitOrFirst m (fun x => index x >? unsafeSelectedIndex m) floating.

Definition moveToPreviousHit (m : Modal) (floating : bool)
  : Modal * Completion :=
  if Z.of_nat (length (hitItems m)) =? 1 then (m, Quiet)
  else if Z.of_nat (length (hitItems m)) =? 0
  then navigatePrevious m floating
  else
    let currentIndex :=
      Arr.findIndex (fun x => index x >=? unsafeSelectedIndex m)
                    (hitItems m) in
    let previousIndex :=
      if currentIndex =? 0
      then Z.of_nat (length (hitItems m)) - 1
      else currentIndex - 1 in
    match Arr.at_ (hitItems m) previousIndex with
    | Some h => select m (index h) floating
    | None => (m, TypeError)
    end.

(** [onOpen()], lines 112-138, after the placement of a floating prompt:
    the header the cursor is in becomes the selection. [markdownView]
    tells whether the active leaf holds a markdown view, [offset] is the
    offset the view reports for the cursor or the scroll position. *)
Definition onOpen (m : Modal) (markdownView : bool) (offset : option Z)
  : Modal * Completion :=
  if negb markdownView || (Z.of_nat (length (items m)) =? 0)
  then (m, Quiet)
  else
    match offset with
    | None => (m, Quiet)
    | Some o =>
        if o =? 0 then (m, Quiet)
        else
          let firstOverIndex :=
            Arr.findIndex
              (fun x => Loc.offset (Pos.start (position x)) >? o)
              (items m) in
          if firstOverIndex =? -1 then
            match Arr.at_ (items m) (Z.of_nat (length (items m)) - 1) with
            | Some l => select m (index l) false
            | None => (m, TypeError)
            end
          else if firstOverIndex =? 0 then select m 0 false
          else select m (firstOverIndex - 1) false
    end.

(** [renderSuggestion(item, el)]: the item is appended to [el]. *)
Definition renderSuggestion (m : Modal) (item : SuggestionItem) (el : Node)
  : Node :=
  let itemDiv := createDiv [str "another-quick-switcher__item"] None in
  let entryDiv := createDiv [str "another-quick-switcher__item__entry"] None in
  let headerDiv :=
    createDiv
      [str "another-quick-switcher__item__title";
       str "another-quick-switcher__item__title__header";
       if hit item
       then str "another-quick-switcher__item__title__header_hit"
       else str "another-quick-switcher__item__title__header_no_hit";
       str "another-quick-switcher__item__title__header"
       ++ numToString (level item)]
      (Some (value item)) in
  let entryDiv := appendChild entryDiv headerDiv in
  let entryDiv :=
    if hit item then
      let i := Arr.findIndex (fun x => index x =? index item) (hitItems m) in
      if negb (i =? -1) then
        appendChild entryDiv
          (createSpan
             [str "another-quick-switcher__item__title__header_hit__counter"]
             (Some (numToString (i + 1) ++ str " / "
                    ++ numToString (Z.of_nat (length (hitItems m)))))
             [])
      else entryDiv
    else entryDiv in
  appendChild el (appendChild itemDiv entryDiv).

(** The items are numbered by their position in the list. *)
Definition wellIndexed (xs : list SuggestionItem) : Prop :=
  forall i x, nth_error xs i = Some x -> index x = Z.of_nat i.

(** Document order of two items. *)
Definition before (a b : SuggestionItem) : Prop := index a < index b.

(** What the constructor establishes and every handler keeps: the items
    are numbered by position, and the hit items are items of the list, in
    the order of the list. *)
Definition consistent (m : Modal) : Prop :=
  wellIndexed (items m) /\
  StronglySorted before (hitItems m) /\
  Forall (fun h => 0 <= index h < Z.of_nat (length (items m))) (hitItems m).

End HeaderKeys.

(* ================================================================== *)
(** * Sample header modals *)
(* ================================================================== *)

Module HeaderSamples.

Definition headingAt (text : string) (level line : Z) : HeadingCache.t :=
  HeadingCache.mk (str text) level
    (HeaderModal.Pos.mk
       (HeaderModal.Loc.mk line 0 (40 * line))
       (HeaderModal.Loc.mk line 12 (40 * line + 12))).

(** A note with three headers, at the offsets 40, 200 and 360. *)
Definition headings : list HeadingCache.t :=
  [headingAt "Goals" 1 1; headingAt "Plan" 2 5; headingAt "Risks" 2 9].

Definition contains (v q : jsstring) (_ : bool) : bool := includes v q.

Definition opened : HeaderModal.Modal :=
  HeaderKeys.construct (fun s => s) headings false.

(** After the query "s", which hits "Goals" and "Risks", with the
    selection on "Plan". *)
Definition searchedS : HeaderModal.Modal :=
  HeaderKeys.setSelectedIndex
    (snd (HeaderModal.getSuggestions contains opened (str "s"))) 1.

(** After the query "l", which hits "Goals" and "Plan", with the
    selection moved on to "Risks". *)
Definition searchedL : HeaderModal.Modal :=
  HeaderKeys.setSelectedIndex
    (snd (HeaderModal.getSuggestions contains opened (str "l"))) 2.

(** A note without headers. *)
Definition noHeaders : HeaderModal.Modal :=
  HeaderKeys.construct (fun s => s) [] false.

End HeaderSamples.

(* ================================================================== *)
(** * [src/ui/AnotherQuickSwitcherModal.ts], [src/commands.ts]: the
      navigation history *)
(* ================================================================== *)

Module Navigation.

Import Switcher.

(** [{ ...command }]: the fields of [command] in a new object, whose
    identity is [fresh]. *)
Definition copyCommand (fresh : nat) (c : SearchCommand) : SearchCommand :=
  mkCommand fresh (name c) (searchBy c) (searchTarget c)
            (allowFuzzySearchForSearchTarget c) (minFuzzyMatchScore c)
            (commandPrefix c) (defaultInput c) (sortPriorities c).

(** The switcher with the fields of the constructor the suggestion
    computation does not read, and the value of its input element. *)
Record Switch : Type := mkSwitch {
  modal : Modal;
  initialInputQuery : jsstring;
  stackHistory : bool;
  inputValue : jsstring
}.

Section Navigation.

Variable env : Imports.

(** [appHelper.searchPhantomFiles()] and the setting
    [showExistingFilesOnly]. *)
Variable phantomFiles : list TFile.t.
Variable showExistingFilesOnly : bool.

(** The constructor, lines 95-148: the fields of the modal, the phantom
    items and the first indexing. The search query is not set yet. *)
Definition construct (settings : Settings) (command : SearchCommand)
    (originFile : option TFile.t) (inputQuery : jsstring)
    (navigationHistories : list CustomSearchHistory)
    (currentNavigationHistoryIndex : Z) (stackHistory : bool) : Switch :=
  mkSwitch
    (indexingItems env
       (mkModal settings command command originFile navigationHistories
                currentNavigationHistoryIndex
                (if showExistingFilesOnly then []
                 else map phantomItem phantomFiles)
                [] [] [] None None None None))
    inputQuery stackHistory [].

(** [getSuggestions(query)], lines 328-338, reaches [_getSuggestions]
    with the query it is given: at once for an empty query, for the
    default input and while the modal is not marked opened, after the
    delay of the debouncer otherwise. [suggest] is that call. *)
Definition suggest (s : Switch) (query : jsstring) : Switch :=
  mkSwitch (snd (_getSuggestions env (modal s) query))
           (initialInputQuery s) (stackHistory s) (inputValue s).

(** The user types: the value of the input element changes. *)
Definition setInputValue (s : Switch) (value : jsstring) : Switch :=
  mkSwitch (modal s) (initialInputQuery s) (stackHistory s) value.

(** [onOpen()], lines 155-175: the input takes the initial query and the
    input event is dispatched, on which the host asks for the
    suggestions; the modal is not marked opened yet, so they are computed
    at once. Then a modal that stacks its history pushes its state on
    the histories. *)
Definition onOpen (fresh : nat) (s : Switch) : Switch :=
  let s1 :=
    suggest (setInputValue s (initialInputQuery s)) (initialInputQuery s) in
  let m := modal s1 in
  let m' :=
    if stackHistory s1 then
      mkModal (settings m) (initialCommand m) (command m) (originFile m)
              (navigationHistories m
               ++ [mkHistory (originFile m) (copyCommand fresh (command m))
                             (inputValue s1)])
              (currentNavigationHistoryIndex m)
              (phantomItems m) (originItems m) (ignoredItems m)
              (searchQuery m) (navigationHistoryEl m) (searchCommandEl m)
              (defaultInputEl m) (countInputEl m)
    else m in
  mkSwitch m' (initialInputQuery s1) (stackHistory s1) (inputValue s1).

(** [showSearchDialog(app, settings, command)] of [src/commands.ts];
    [activeFile] is [app.workspace.getActiveFile()]. *)
Definition showSearchDialog (fresh : nat) (settings : Settings)
    (command : SearchCommand) (activeFile : option TFile.t) : Switch :=
  onOpen fresh (construct settings command activeFile [] [] 0 true).

(** [navigateLinks(command)], lines 830-863; [selected] is the file of
    the selected suggestion. Without a selected file nothing happens;
    with one, the modal is closed and the new modal is the result. *)
Definition navigateLinks (freshCommand freshHistory freshOpen : nat)
    (s : Switch) (linkCommand : SearchCommand) (selected : option TFile.t)
  : option Switch :=
  let m := modal s in
  match selected with
  | None => None
  | Some file =>
      Some
        (onOpen freshOpen
           (construct (settings m) (copyCommand freshCommand linkCommand)
              (Some file) []
              (slice0 (navigationHistories m)
                      (currentNavigationHistoryIndex m)
               ++ [mkHistory (originFile m)
                             (copyCommand freshHistory (command m))
                             (inputValue s)])
              (currentNavigationHistoryIndex m + 1) true))
  end.

(** [navigate(index)], lines 873-896. Without a history at [index]
    nothing happens. *)
Definition navigate (freshCommand freshOpen : nat) (s : Switch) (index : Z)
  : option Switch :=
  let m := modal s in
  match Arr.at_ (navigationHistories m) index with
  | None => None
  | Some history =>
      Some
        (onOpen freshOpen
           (construct (settings m)
              (copyCommand freshCommand (historyCommand history))
              (historyOriginFile history) (inputQuery history)
              (navigationHistories m) index false))
  end.



(** The switchers a user can get to: one shown by a command of the
    plugin, and from there by typing, by the suggestions computed for
    what was typed, at once or late, and by the navigation keys. *)
Inductive reachable : Switch -> Prop :=
| Shown (fresh : nat) (settings : Settings) (command : SearchCommand)
        (activeFile : option TFile.t) :
    reachable (showSearchDialog fresh settings command activeFile)
| Typed (s : Switch) (value : jsstring) :
    reachable s -> reachable (setInputValue s value)
| Suggested (s : Switch) (query : jsstring) :
    reachable s -> reachable (suggest s query)
| Linked (f1 f2 f3 : nat) (s s' : Switch) (linkCommand : SearchCommand)
         (selected : option TFile.t) :
    reachable s ->
    navigateLinks f1 f2 f3 s linkCommand selected = Some s' ->
    reachable s'
| Navigated (f1 f2 : nat) (s s' : Switch) (index : Z) :
    reachable s -> navigate f1 f2 s index = Some s' -> reachable s'.

(** The items are those [indexingItems] computes for the command. *)
Definition indexed (m : Modal) : Prop :=
  originItems m
  = fileItems env (command m) (originFile m) ++ phantomItems m /\
  ignoredItems m
  = prefilterItems env (command m) (originFile m) (originItems m).


End Navigation.

End Navigation.

(* ================================================================== *)
(** * [src/app-helper.ts]: the backlinks *)
(* ================================================================== *)

Module Backlinks.

Import AppHelper.

(** [Record<string, Record<string, number>>], the entries in the order
    [Object.entries] lists them. *)
Definition LinkGraph : Type := list (jsstring * list (jsstring * Z)).

(** [Record<string, Set<string>>]; a [Set] holds each value once, in the
    order of insertion. *)
Definition BacklinksMap : Type := list (jsstring * list jsstring).

(** The own property [k] of an object. *)
Fixpoint get {V : Type} (o : list (jsstring * V)) (k : jsstring)
  : option V :=
  match o with
  | [] => None
  | (k', v) :: o' => if Js.eqb k' k then Some v else get o' k
  end.

(** [o[k] = v] on an own or a new property. *)
Fixpoint put {V : Type} (o : list (jsstring * V)) (k : jsstring) (v : V)
  : list (jsstring * V) :=
  match o with
  | [] => [(k, v)]
  | (k', v') :: o' =>
      if Js.eqb k' k then (k', v) :: o' else (k', v') :: put o' k v
  end.

(** The names every object literal inherits from [Object.prototype]. *)
Definition inheritedKeys : list jsstring :=
  [str "constructor"; str "hasOwnProperty"; str "isPrototypeOf";
   str "propertyIsEnumerable"; str "toLocaleString"; str "toString";
   str "valueOf"; str "__defineGetter__"; str "__defineSetter__";
   str "__lookupGetter__"; str "__lookupSetter__"; str "__proto__"].

Definition inherited (k : jsstring) : bool :=
  existsb (Js.eqb k) inheritedKeys.

(** What [backLinksMap[k]] reads: a set of the map, a value inherited
    from the prototype, or [undefined]. *)
Inductive Value : Type :=
| SetOf (s : list jsstring)
| Inherited
| Undefined.

Definition read (o : BacklinksMap) (k : jsstring) : Value :=
  match get o k with
  | Some s => SetOf s
  | None => if inherited k then Inherited else Undefined
  end.

(** [set.add(v)] *)
Definition setAdd (s : list jsstring) (v : jsstring) : list jsstring :=
  if existsb (Js.eqb v) s then s else s ++ [v].

(** The body of the inner loop, lines 258-261. An inherited value is
    truthy and has no [add]: the call raises a TypeError, [None] here. *)
Definition addBacklink (filePath linkPath : jsstring) (o : BacklinksMap)
  : option BacklinksMap :=
  let o1 :=
    match read o linkPath with
    | Undefined => put o linkPath []
    | _ => o
    end in
  match read o1 linkPath with
  | SetOf s => Some (put o1 linkPath (setAdd s filePath))
  | _ => None
  end.

Section Backlinks.

Variable app : Imports.

(** [metadataCache.resolvedLinks] *)
Variable resolvedLinks : LinkGraph.

(** [mapValues] and [mapKeys] of [utils/collection-helper] and [merge]
    of [ts-deepmerge]; their bodies are not part of the sources. *)
Variable mapValues :
  LinkGraph -> (list (jsstring * Z) -> list (jsstring * Z)) -> LinkGraph.
Variable mapKeys :
  list (jsstring * Z) -> (jsstring -> jsstring) -> list (jsstring * Z).
Variable merge : LinkGraph -> LinkGraph -> LinkGraph.

(** The graph the loops of [createBacklinksMap] run over. *)
Definition mergedLinks : LinkGraph :=
  merge resolvedLinks
        (mapValues (unresolvedLinks app)
                   (fun innerMap =>
                      mapKeys innerMap (getPathToBeCreated app))).

(** [createBacklinksMap()]; [None] is a TypeError. *)
Definition createBacklinksMap : option BacklinksMap :=
  fold_left
    (fun acc entry =>
       fold_left
         (fun acc' linkPath =>
            match acc' with
            | Some o => addBacklink (fst entry) linkPath o
            | None => None
            end)
         (map fst (snd entry)) acc)
    mergedLinks (Some []).

End Backlinks.

End Backlinks.

(* ================================================================== *)
(** * Reading the elements *)
(* ================================================================== *)

Module DomRead.

Import Dom.

(** [el.childNodes] *)
Definition childNodes (n : Node) : list Node :=
  match n with
  | Element _ _ _ children => children
  | _ => []
  end.

(** [el.lastChild] *)
Definition lastChild (n : Node) : option Node :=
  match rev (childNodes n) with
  | c :: _ => Some c
  | [] => None
  end.

End DomRead.

(* ================================================================== *)
(** * [src/ui/AnotherQuickSwitcherModal.ts]: the line of a suggestion *)
(* ================================================================== *)

Module Rendering.

Import Dom DomRead SuggestionFactory.

(** [el.hasChildNodes()] *)
Definition hasChildNodes (n : Node) : bool :=
  match childNodes n with [] => false | _ :: _ => true end.

(** [renderSuggestion(item, el)], lines 481-500. [options] holds the
    four options the factory reads of the object it is handed. The
    elements of the factory have no [metaDiv]: the first test reads
    [undefined] and appends nothing. *)
Definition renderSuggestion (lib : Imports) (options : Options)
    (item : Matcher.SuggestionItem) (el : Node) : Alloc Node :=
  elements <- createElements lib item options ;;
  let itemDiv := itemDiv elements in
  let itemDiv :=
    match descriptionDiv elements with
    | Some d => if hasChildNodes d then appendChild itemDiv d else itemDiv
    | None => itemDiv
    end in
  ret (appendChild el itemDiv).

End Rendering.

(* ================================================================== *)
(** * Sample elements *)
(* ================================================================== *)

Module FactorySamples.

Import SuggestionFactory.

(** Helpers in the manner of [utils/collection-helper], over lists
    without repeated values. *)
Definition lib : Imports :=
  mkImports (str "<svg>alias</svg>") (str "<svg>folder</svg>")
            (str "<svg>header</svg>") (str "<svg>link</svg>")
            (str "<svg>tag</svg>")
            (map (fun h => (h, 1)))
            (fun xs => xs)
            (fun xs f => flat_map f xs).

Definition plain : Options := mkOptions false false false false.

(** Three headers, matched by one, three and one of three tokens. *)
Definition counts : list (jsstring * Z) :=
  [(str "Intro", 1); (str "Plan", 3); (str "Risks", 1)].

End FactorySamples.

(* ================================================================== *)
(** * [src/commands.ts]: the commands of the plugin *)
(* ================================================================== *)

Module Commands.

Import Switcher.

(** What the host tells a check callback. *)
Record Host : Type := mkHost {
  hasActiveFile : bool;
  isDesktop : bool
}.

(** The dialog a command shows. *)
Inductive Action : Type :=
| ShowHeaderDialog (floating : bool)
| ShowMoveDialog
| ShowGrepDialog
| ShowSearchDialog (command : SearchCommand).

Record Hotkey : Type := mkHotkey {
  modifiers : list jsstring;
  key : jsstring
}.

(** A command of the host: [check] is the answer of a [checkCallback]
    that is asked whether the command applies; a command with a plain
    [callback] has none. *)
Record Command : Type := mkCommand {
  id : jsstring;
  name : jsstring;
  hotkeys : option (list Hotkey);
  check : option (Host -> bool);
  action : Action
}.

Definition SEARCH_COMMAND_PREFIX : jsstring := str "search-command".

(** [name.replace(/ /g, "-")] *)
Definition hyphenate (name : jsstring) : jsstring :=
  map (fun c => if (c =? 0x20)%N then 0x2D%N else c) name.

Section Commands.

(** [String.prototype.toLowerCase] *)
Variable toLowerCase : jsstring -> jsstring.

Definition searchCommandId (command : SearchCommand) : jsstring :=
  SEARCH_COMMAND_PREFIX ++ str "_"
  ++ toLowerCase (hyphenate (Switcher.name command)).

Definition createCommands (settings : Settings) : list Command :=
  [mkCommand (str "header-search-in-file") (str "Header search in file")
             None (Some hasActiveFile) (ShowHeaderDialog false);
   mkCommand (str "header-floating-search-in-file")
             (str "Header floating search in file")
             None (Some hasActiveFile) (ShowHeaderDialog true);
   mkCommand (str "move") (str "Move file to another folder")
             (Some [mkHotkey [str "Mod"; str "Shift"] (str "m")])
             (Some hasActiveFile) ShowMoveDialog;
   mkCommand (str "grep") (str "Grep") (Some [])
             (Some isDesktop) ShowGrepDialog]
  ++ map (fun command =>
            mkCommand (searchCommandId command) (Switcher.name command)
                      (Some []) None (ShowSearchDialog command))
         (searchCommands settings).

End Commands.

End Commands.

(* ================================================================== *)
(** * [src/app-helper.ts]: the first link to a file *)
(* ================================================================== *)

Module LinkCache.
Record t : Type := mk {
  link : jsstring;
  position : HeaderModal.Pos.t
}.
End LinkCache.

Module FileCache.
Record t : Type := mk {
  links : option (list LinkCache.t);
  embeds : option (list LinkCache.t)
}.
End FileCache.

Module Links.

Import AppHelper.

Section Links.

Variable app : Imports.

(** [metadataCache.getFileCache(file)] and
    [metadataCache.getFirstLinkpathDest(linkpath, sourcePath)] of the
    host. *)
Variable getFileCache : TFile.t -> option FileCache.t.
Variable getFirstLinkpathDest : jsstring -> jsstring -> option TFile.t.

(** [a === b] where [a] may be [undefined] *)
Definition isPath (a : option jsstring) (b : jsstring) : bool :=
  match a with Some p => Js.eqb p b | None => false end.

(** The path a link leads to, as [findFirstLinkOffset] works it out. *)
Definition firstLinkPath (file linkFile : TFile.t) (x : LinkCache.t)
  : option jsstring :=
  if isPhantomFile linkFile
  then Some (getPathToBeCreated app (LinkCache.link x))
  else option_map TFile.path
         (getFirstLinkpathDest (getLinkpath app (LinkCache.link x))
                               (TFile.path file)).

(** [findFirstLinkOffset(file, linkFile)]; [None] is the TypeError of
    reading [position] of [undefined], when no link is found. *)
Definition findFirstLinkOffset (file linkFile : TFile.t) : option Z :=
  let fileCache := getFileCache file in
  let links :=
    match fileCache with
    | Some c => match FileCache.links c with Some l => l | None => [] end
    | None => []
    end in
  let embeds :=
    match fileCache with
    | Some c => match FileCache.embeds c with Some l => l | None => [] end
    | None => []
    end in
  option_map
    (fun x => HeaderModal.Loc.offset
                (HeaderModal.Pos.start (LinkCache.position x)))
    (find (fun x => isPath (firstLinkPath file linkFile x)
                           (TFile.path linkFile))
          (links ++ embeds)).

End Links.

End Links.

(* ================================================================== *)
(** * Sample switchers with command prefixes *)
(* ================================================================== *)

Module SwitcherSamples.

Import Switcher Samples.

(** A command reached by the prefix ":t ", which puts "#" in front of the
    query. *)
Definition tagSearch : SearchCommand :=
  mkCommand 3 (str "Tag search")
            (SearchBy.mk true false false) TargetFile false (1 # 2)
            (str ":t ") (str "#") [str "Last opened"].

(** A command reached by the prefix ":", listed after [tagSearch]. *)
Definition recentSearch : SearchCommand :=
  mkCommand 4 (str "Recent search")
            (SearchBy.mk false false false) TargetFile false (1 # 2)
            (str ":") [] [str "Last opened"].

Definition withPrefixes : Modal :=
  mkModal (mkSettings [fileSearch; tagSearch; recentSearch] 10 false)
          fileSearch fileSearch None [] 0 [] vault vault []
          None None None None.

End SwitcherSamples.

(* ================================================================== *)
(** * Sample navigations *)
(* ================================================================== *)

Module NavigationSamples.

Import Switcher Samples.

Definition sampleSettings : Settings :=
  mkSettings [fileSearch; backlinkSearch] 10 false.

(** The switcher a command shows while no file is active. *)
Definition shown : Navigation.Switch :=
  Navigation.showSearchDialog sampleEnv [] false 10
    sampleSettings fileSearch None.

(** The same after "plan" was typed and searched. *)
Definition typed : Navigation.Switch :=
  Navigation.suggest sampleEnv
    (Navigation.setInputValue shown (str "plan")) (str "plan").

(** The switcher of the backlinks of the selected note. *)
Definition linked : option Navigation.Switch :=
  Navigation.navigateLinks sampleEnv [] false 11 12 13 typed
    backlinkSearch (Some (Matcher.file projectPlan)).

End NavigationSamples.

(* ================================================================== *)
(** * Sample links and commands *)
(* ================================================================== *)

Module LinkSamples.

Import Samples.

Definition linkAt (text : string) (line : Z) : LinkCache.t :=
  LinkCache.mk (str text)
    (HeaderModal.Pos.mk (HeaderModal.Loc.mk line 0 (40 * line))
                        (HeaderModal.Loc.mk line 9 (40 * line + 9))).

(** The cache of a note with two links and an embed. *)
Definition cache : FileCache.t :=
  FileCache.mk (Some [linkAt "ideas/Next.md#Draft" 2; linkAt "Roadmap" 3])
               (Some [linkAt "Roadmap" 1]).

(** The links that resolve, by file. *)
Definition resolved : Backlinks.LinkGraph :=
  [(str "home/Groceries.md", [(str "work/Project Plan.md", 1)])].

(** A vault in which a note links to a file named "constructor". *)
Definition awkward : Backlinks.LinkGraph :=
  [(str "home/Groceries.md", [(str "constructor", 1)])].

(** Helpers in the manner of [utils/collection-helper], and a merge of
    graphs without common files. *)
Definition mapValues (graph : Backlinks.LinkGraph)
    (f : list (jsstring * Z) -> list (jsstring * Z)) : Backlinks.LinkGraph :=
  map (fun e => (fst e, f (snd e))) graph.

Definition mapKeys (o : list (jsstring * Z)) (f : jsstring -> jsstring)
  : list (jsstring * Z) :=
  map (fun e => (f (fst e), snd e)) o.

Definition merge (a b : Backlinks.LinkGraph) : Backlinks.LinkGraph := a ++ b.

End LinkSamples.

Module CommandSamples.

Import Switcher Samples.

Definition lower : jsstring -> jsstring := map lowerUnit.

Definition named (r : nat) (n : string) : SearchCommand :=
  mkCommand r (str n) (SearchBy.mk false false false) TargetFile false
            (1 # 2) [] [] [].

Definition spaced : SearchCommand := named 5 "File search".
Definition hyphened : SearchCommand := named 6 "File-search".

End CommandSamples.

(* ================================================================== *)
(** * Properties of the string and list helpers *)
(* ================================================================== *)

Section JsFacts.

Lemma eqb_eq (a b : jsstring) : Js.eqb a b = true <-> a = b.
Proof.
  revert b; induction a as [|x a IH]; intros [|y b]; simpl;
    try (split; [discriminate | congruence]); try tauto.
  rewrite andb_true_iff, N.eqb_eq, IH.
  split; [intros [-> ->]; reflexivity | intros [= -> ->]; auto].
Qed.

Lemma startsWith_app (p t : jsstring) : startsWith (p ++ t) p = true.
Proof.
  induction p as [|c p IH]; simpl; [now destruct t|].
  now rewrite N.eqb_refl, IH.
Qed.

Lemma startsWith_app_l (s p t : jsstring) :
  startsWith s p = true -> startsWith (s ++ t) p = true.
Proof.
  revert s; induction p as [|c p IH]; intros s H.
  - now destruct (s ++ t).
  - destruct s as [|d s]; simpl in *; [discriminate|].
    rewrite andb_true_iff in *. destruct H; split; auto.
Qed.


Lemma endsWith_app_r (a s p : jsstring) :
  endsWith s p = true -> endsWith (a ++ s) p = true.
Proof.
  unfold endsWith. rewrite rev_app_distr. apply startsWith_app_l.
Qed.



Lemma mapiFrom_length {A B} (f : A -> Z -> B) (k : Z) (l : list A) :
  length (mapiFrom f k l) = length l.
Proof. revert k; induction l; simpl; intros; auto. Qed.

Lemma mapiFrom_nth_error {A B} (f : A -> Z -> B) (l : list A) :
  forall (k : Z) (i : nat),
    nth_error (mapiFrom f k l) i =
    option_map (fun x => f x (k + Z.of_nat i)) (nth_error l i).
Proof.
  induction l as [|x l IH]; intros k [|i]; simpl; try reflexivity.
  - now rewrite Z.add_0_r.
  - rewrite IH. destruct (nth_error l i); simpl; [|reflexivity].
    do 2 f_equal. lia.
Qed.

Lemma slice0_length_le {A} (l : list A) (n : Z) :
  (length (slice0 l n) <= length l)%nat.
Proof. unfold slice0. rewrite length_firstn. lia. Qed.

Lemma slice0_length {A} (l : list A) (n : Z) :
  0 <= n ->
  Z.of_nat (length (slice0 l n)) = Z.min (Z.of_nat (length l)) n.
Proof.
  intros Hn. unfold slice0.
  destruct (Z.ltb_spec n 0); [lia|].
  rewrite length_firstn. lia.
Qed.

Lemma slice0_all {A} (l : list A) (n : Z) :
  Z.of_nat (length l) <= n -> slice0 l n = l.
Proof.
  intros Hn. unfold slice0.
  destruct (Z.ltb_spec n 0); [lia|].
  apply firstn_all2. lia.
Qed.

Lemma slice0_nth_error {A} (l : list A) (n : Z) (i : nat) (x : A) :
  nth_error (slice0 l n) i = Some x -> nth_error l i = Some x.
Proof.
  unfold slice0. generalize (Z.to_nat
    (if n <? 0 then Z.max (Z.of_nat (length l) + n) 0
     else Z.min n (Z.of_nat (length l)))) as k.
  revert i; induction l as [|y l IH]; intros [|i] [|k]; simpl;
    try discriminate; auto.
  apply IH.
Qed.

End JsFacts.

Section SortFacts.

Context {A : Type} (cmp : A -> A -> Z).

Lemma insert_perm (x : A) (l : list A) :
  Permutation (Collection.insert cmp x l) (x :: l).
Proof.
  induction l as [|y l IH]; simpl; [reflexivity|].
  destruct (cmp x y <=? 0); [reflexivity|].
  rewrite IH. apply perm_swap.
Qed.

Lemma stableSort_perm (l : list A) :
  Permutation (Collection.stableSort cmp l) l.
Proof.
  induction l as [|x l IH]; simpl; [reflexivity|].
  unfold Collection.stableSort in *; simpl.
  rewrite insert_perm. now constructor.
Qed.

Lemma stableSort_length (l : list A) :
  length (Collection.stableSort cmp l) = length l.
Proof. apply Permutation_length, stableSort_perm. Qed.

Lemma stableSort_In (l : list A) (x : A) :
  In x (Collection.stableSort cmp l) <-> In x l.
Proof.
  split; apply Permutation_in;
    [ | apply Permutation_sym ]; apply stableSort_perm.
Qed.

(** An inserted element never jumps over an element it ties with: the
    elements of a class of mutually tied elements keep their order. *)
Lemma insert_filter (P : A -> bool) (x : A) (l : list A) :
  (forall y, In y l -> P x = true -> P y = true -> cmp x y = 0) ->
  filter P (Collection.insert cmp x l) = filter P (x :: l).
Proof.
  induction l as [|y l IH]; intros Htie; simpl; [reflexivity|].
  destruct (Z.leb_spec (cmp x y) 0) as [Hle|Hgt]; [reflexivity|].
  simpl. rewrite IH by (intros z Hz; apply Htie; now right).
  simpl. destruct (P x) eqn:Px, (P y) eqn:Py; try reflexivity.
  specialize (Htie y (or_introl eq_refl) eq_refl Py). lia.
Qed.

Lemma stableSort_stable (P : A -> bool) (l : list A) :
  (forall a b, In a l -> In b l ->
               P a = true -> P b = true -> cmp a b = 0) ->
  filter P (Collection.stableSort cmp l) = filter P l.
Proof.
  induction l as [|x l IH]; intros Htie; [reflexivity|].
  change (Collection.stableSort cmp (x :: l))
    with (Collection.insert cmp x (Collection.stableSort cmp l)).
  rewrite insert_filter.
  - simpl. rewrite IH; [reflexivity|].
    intros a b Ha Hb. apply Htie; now right.
  - intros y Hy. apply Htie; [now left|].
    right. now apply stableSort_In.
Qed.

End SortFacts.

Import Matcher Sorters Switcher Claims Samples.

(* ================================================================== *)
(** * Header navigation *)
(* ================================================================== *)

(** C9. In HeaderModal, when the item list is not empty and the selected
    index lies between 0 and the last index, [getNextSelectIndex] and
    [getPreviousSelectIndex] return an index in the same range and wrap
    around: the successor of the last index is 0, the predecessor of 0 is
    the last index; elsewhere they step by one. *)
Theorem C9_select_index_wraps (m : HeaderModal.Modal) :
  HeaderModal.items m <> [] ->
  0 <= HeaderModal.unsafeSelectedIndex m
    <= Z.of_nat (length (HeaderModal.items m)) - 1 ->
  let i := HeaderModal.unsafeSelectedIndex m in
  let last := Z.of_nat (length (HeaderModal.items m)) - 1 in
  0 <= HeaderModal.getNextSelectIndex m <= last /\
  0 <= HeaderModal.getPreviousSelectIndex m <= last /\
  (i = last -> HeaderModal.getNextSelectIndex m = 0) /\
  (i < last -> HeaderModal.getNextSelectIndex m = i + 1) /\
  (i = 0 -> HeaderModal.getPreviousSelectIndex m = last) /\
  (0 < i -> HeaderModal.getPreviousSelectIndex m = i - 1).
Proof.
  intros _ Hrange i last.
  unfold HeaderModal.getNextSelectIndex, HeaderModal.getPreviousSelectIndex.
  fold i last.
  destruct (Z.gtb_spec (i + 1) last), (Z.ltb_spec (i - 1) 0);
    repeat split; lia.
Qed.

Lemma C9_select_index_wraps_witness :
  HeaderModal.getNextSelectIndex headerModal = 2 /\
  HeaderModal.getPreviousSelectIndex headerModal = 0.
Proof.
  destruct (C9_select_index_wraps headerModal) as (_ & _ & _ & Hn & _ & Hp).
  - discriminate.
  - simpl. lia.
  - split; [apply Hn | apply Hp]; simpl; lia.
Defined.

(* ================================================================== *)
(** * Rendering of a suggestion *)
(* ================================================================== *)

Section FactoryFacts.

Import SuggestionFactory.

(** An object allocated later is never identical to one allocated
    before. *)
Lemma fresh_object_differs {A B : Type} (v : A) (w : B) (next : nat) :
  let (o, next') := newObject v next in
  let (e, _) := newObject w next' in
  strictEquals o e = false.
Proof.
  simpl. unfold strictEquals; simpl. apply Nat.eqb_neq. lia.
Qed.

End FactoryFacts.

(** C8. For every item and every options value, [createElements] returns
    a result that contains a [descriptionDiv]: the branch that returns the
    [itemDiv] alone is never taken, because its guard compares
    [countByHeader] with a fresh object literal, and [===] between two
    distinct objects is false. *)
Theorem C8_createElements_has_description
    (lib : SuggestionFactory.Imports) (item : SuggestionItem)
    (options : SuggestionFactory.Options) (next : nat) :
  (exists d,
     SuggestionFactory.descriptionDiv
       (fst (SuggestionFactory.createElements lib item options next))
     = Some d) /\
  (forall countByHeader : list (jsstring * Z),
     let (o, next') := SuggestionFactory.newObject countByHeader next in
     let (e, _) :=
       SuggestionFactory.newObject (@nil (jsstring * Z)) next' in
     SuggestionFactory.strictEquals o e = false).
Proof.
  split; [|intros; apply (fresh_object_differs _ _ next)].
  unfold SuggestionFactory.createElements, SuggestionFactory.bind,
    SuggestionFactory.newObject, SuggestionFactory.ret,
    SuggestionFactory.strictEquals.
  cbn [SuggestionFactory.address SuggestionFactory.contents].
  destruct (_ && _ && _); cbn.
  - replace (Nat.eqb next (S next)) with false
      by (symmetry; apply Nat.eqb_neq; lia).
    cbn. eexists; reflexivity.
  - eexists; reflexivity.
Qed.

(* ================================================================== *)
(** * Phantom files *)
(* ================================================================== *)

Section PhantomFacts.

Import AppHelper.

Variable app : AppHelper.Imports.


End PhantomFacts.



(* ================================================================== *)
(** * Tokenization *)
(* ================================================================== *)

Section SplitFacts.

Variable sep : N -> bool.

Lemma splitBy_not_nil (s : jsstring) : Collection.splitBy sep s <> [].
Proof.
  destruct s as [|c s]; simpl; [discriminate|].
  destruct (sep c); [discriminate|].
  destruct (Collection.splitBy sep s); discriminate.
Qed.

Lemma splitBy_app (a b : jsstring) (c : N) :
  sep c = true ->
  Collection.splitBy sep (a ++ c :: b)
  = Collection.splitBy sep a ++ Collection.splitBy sep b.
Proof.
  intros Hc. induction a as [|x a IH]; simpl.
  - now rewrite Hc.
  - rewrite IH. destruct (sep x); [reflexivity|].
    pose proof (splitBy_not_nil a).
    destruct (Collection.splitBy sep a); [contradiction | reflexivity].
Qed.

Lemma splitBy_word (w : jsstring) :
  (forall c, In c w -> sep c = false) -> Collection.splitBy sep w = [w].
Proof.
  induction w as [|c w IH]; intros Hw; simpl; [reflexivity|].
  rewrite (Hw c (or_introl eq_refl)).
  rewrite IH; [reflexivity|]. intros d Hd; apply Hw; now right.
Qed.

Lemma splitBy_clean (s t : jsstring) (c : N) :
  In t (Collection.splitBy sep s) -> In c t -> sep c = false.
Proof.
  revert t; induction s as [|x s IH]; simpl; intros t Ht Hc.
  - destruct Ht as [<-|[]]; contradiction.
  - destruct (sep x) eqn:Hx.
    + destruct Ht as [<-|Ht]; [contradiction | eauto].
    + destruct (Collection.splitBy sep s) as [|w ws].
      * destruct Ht as [<-|[]]. destruct Hc as [<-|[]]; assumption.
      * destruct Ht as [<-|Ht].
        -- destruct Hc as [<-|Hc]; [assumption|].
           apply (IH w); [now left | assumption].
        -- apply (IH t); [now right | assumption].
Qed.

Lemma splitBy_concat (s : jsstring) :
  concat (Collection.splitBy sep s) = filter (fun c => negb (sep c)) s.
Proof.
  induction s as [|x s IH]; simpl; [reflexivity|].
  destruct (sep x); simpl; [assumption|].
  rewrite <- IH.
  pose proof (splitBy_not_nil s).
  destruct (Collection.splitBy sep s); [contradiction | reflexivity].
Qed.

Lemma concat_truthy (l : list jsstring) :
  concat (filter truthy l) = concat l.
Proof.
  induction l as [|[|c w] l IH]; simpl; [reflexivity | assumption |].
  now rewrite IH.
Qed.

Lemma tokens_app (a b : jsstring) (c : N) :
  sep c = true ->
  filter truthy (Collection.splitBy sep (a ++ c :: b))
  = filter truthy (Collection.splitBy sep a)
    ++ filter truthy (Collection.splitBy sep b).
Proof.
  intros Hc. now rewrite splitBy_app, filter_app.
Qed.

Lemma tokens_word (w : jsstring) :
  w <> [] -> (forall c, In c w -> sep c = false) ->
  filter truthy (Collection.splitBy sep w) = [w].
Proof.
  intros Hne Hw. rewrite splitBy_word by assumption.
  destruct w; [contradiction | reflexivity].
Qed.

Lemma tokens_clean (s t : jsstring) :
  In t (filter truthy (Collection.splitBy sep s)) ->
  t <> [] /\ forall c, In c t -> sep c = false.
Proof.
  rewrite filter_In. intros [Hin Ht]. split.
  - intros ->; discriminate.
  - intros c. now apply splitBy_clean with (s := s).
Qed.

Lemma tokens_concat (s : jsstring) :
  concat (filter truthy (Collection.splitBy sep s))
  = filter (fun c => negb (sep c)) s.
Proof. now rewrite concat_truthy, splitBy_concat. Qed.

End SplitFacts.

Lemma split_splitBy (s : jsstring) (c : N) :
  split s c = Collection.splitBy (fun x => (x =? c)%N) s.
Proof.
  induction s as [|x s IH]; simpl; [reflexivity|]. now rewrite IH.
Qed.

Lemma queryTokens_splitBy (q : jsstring) :
  HeaderModal.queryTokens q
  = filter truthy (Collection.splitBy (fun x => (x =? SPACE)%N) q).
Proof. unfold HeaderModal.queryTokens. now rewrite split_splitBy. Qed.

(** The header modal keeps as one token a query whose two words are
    separated by a full-width space: its tokens are not free of
    whitespace, and they are not those of the switcher's tokenizer. *)
Lemma C6_fullwidth_space_counterexample :
  HeaderModal.queryTokens fullwidthQuery = [fullwidthQuery] /\
  ~ (forall t, In t (HeaderModal.queryTokens fullwidthQuery) ->
               forall c, In c t -> isWhiteSpace c = false) /\
  HeaderModal.queryTokens fullwidthQuery
    <> Collection.smartWhitespaceSplit fullwidthQuery.
Proof.
  split; [reflexivity|]. split.
  - intros H.
    specialize (H fullwidthQuery (or_introl eq_refl) FULLWIDTH_SPACE).
    assert (In FULLWIDTH_SPACE fullwidthQuery) as Hin
        by (right; left; reflexivity).
    specialize (H Hin). vm_compute in H. discriminate.
  - vm_compute. discriminate.
Qed.

(** C6 (amended). Tokenization discards empty fragments, preserves the
    order of what remains, and yields no token for the empty string. The
    header modal cuts the query at the space U+0020 only: every other code
    unit, the full-width space included, stays inside a token, and runs of
    spaces separate like one space. The switcher's [smartWhitespaceSplit]
    cuts at every whitespace code unit, the full-width space included. *)
Theorem C6_tokenization :
  (* the header modal *)
  HeaderModal.queryTokens [] = [] /\
  (forall q t, In t (HeaderModal.queryTokens q) ->
     t <> [] /\ ~ In SPACE t) /\
  (forall a b, HeaderModal.queryTokens (a ++ SPACE :: b)
               = HeaderModal.queryTokens a ++ HeaderModal.queryTokens b) /\
  (forall w, w <> [] -> ~ In SPACE w -> HeaderModal.queryTokens w = [w]) /\
  (forall q, concat (HeaderModal.queryTokens q)
             = filter (fun c => negb (c =? SPACE)%N) q) /\
  (* the switcher *)
  Collection.smartWhitespaceSplit [] = [] /\
  isWhiteSpace SPACE = true /\ isWhiteSpace FULLWIDTH_SPACE = true /\
  (forall q t, In t (Collection.smartWhitespaceSplit q) ->
     t <> [] /\ forall c, In c t -> isWhiteSpace c = false) /\
  (forall a b c, isWhiteSpace c = true ->
     Collection.smartWhitespaceSplit (a ++ c :: b)
     = Collection.smartWhitespaceSplit a ++ Collection.smartWhitespaceSplit b) /\
  (forall w, w <> [] -> (forall c, In c w -> isWhiteSpace c = false) ->
     Collection.smartWhitespaceSplit w = [w]) /\
  (forall q, concat (Collection.smartWhitespaceSplit q)
             = filter (fun c => negb (isWhiteSpace c)) q).
Proof.
  repeat match goal with |- _ /\ _ => split end;
    try reflexivity.
  - intros q t. rewrite queryTokens_splitBy. intros Ht.
    apply tokens_clean in Ht. destruct Ht as [Hne Hclean].
    split; [assumption|]. intros Hin.
    specialize (Hclean _ Hin). now rewrite N.eqb_refl in Hclean.
  - intros a b. rewrite !queryTokens_splitBy.
    apply tokens_app. apply N.eqb_refl.
  - intros w Hne Hw. rewrite queryTokens_splitBy.
    apply tokens_word; [assumption|].
    intros c Hc. apply N.eqb_neq. intros ->. contradiction.
  - intros q. rewrite queryTokens_splitBy. apply tokens_concat.
  - intros q t. apply tokens_clean.
  - intros a b c. apply tokens_app.
  - intros w. apply tokens_word.
  - intros q. apply tokens_concat.
Qed.

Lemma C6_tokenization_witness :
  HeaderModal.queryTokens fullwidthQuery = [fullwidthQuery] /\
  Collection.smartWhitespaceSplit fullwidthQuery = [str "a"; str "b"].
Proof.
  destruct C6_tokenization
    as (_ & _ & _ & Hword & _ & _ & _ & Hfull & _ & Hcut & Hw & _).
  split.
  - apply Hword; [discriminate|].
    simpl. intros [H|[H|[H|[]]]]; discriminate.
  - change fullwidthQuery with (str "a" ++ FULLWIDTH_SPACE :: str "b").
    rewrite Hcut by exact Hfull.
    rewrite !Hw; try reflexivity; try discriminate;
      simpl; intros c [<-|[]]; reflexivity.
Defined.

(* ================================================================== *)
(** * The suggestion computation *)
(* ================================================================== *)

Section MatcherFacts.

Variable ops : TextOps.

Lemma tryFacet_NotFound (item : SuggestionItem) (opts : Options)
    (token : jsstring) :
  tryFacet ops item opts token NotFound = None.
Proof. reflexivity. Qed.

(** OR across facets: a token is found exactly when one of the facets
    tried yields a result. *)
Lemma found_firstFacet (item : SuggestionItem) (opts : Options)
    (token : jsstring) (ks : list MatchType) :
  found (firstFacet ops item opts token ks) = true <->
  exists k, In k ks /\ tryFacet ops item opts token k <> None.
Proof.
  induction ks as [|k ks IH]; simpl.
  - split; [discriminate | intros (k & [] & _)].
  - destruct (tryFacet ops item opts token k) as [[vs s]|] eqn:Hk.
    + split; [intros _; exists k; split; [now left | congruence]|].
      intros _. destruct k; try reflexivity.
      rewrite tryFacet_NotFound in Hk. discriminate.
    + rewrite IH. split; intros (k' & Hin & Hsome).
      * exists k'. split; [now right | assumption].
      * destruct Hin as [<-|Hin]; [congruence|]. now exists k'.
Qed.

Lemma found_type (r : MatchQueryResult) :
  found r = true <-> type r <> NotFound.
Proof.
  unfold found. destruct (type r); simpl; split;
    congruence || discriminate || auto.
Qed.


Lemma forallb_found_stamp (c : SuggestionItem) (qs : list jsstring)
    (opts : Options) :
  forallb found (matchResults (Matcher.stampMatchResults ops c qs opts))
  = allTokensFound ops c qs opts.
Proof.
  unfold allTokensFound. simpl.
  induction qs as [|q qs IH]; simpl; [reflexivity|]. now rewrite IH.
Qed.

End MatcherFacts.

Section SwitcherFacts.

Variable env : Imports.

Lemma settings_prepare (m : Modal) (query : jsstring) :
  settings (prepare env m query) = settings m.
Proof.
  unfold prepare, selectCommand.
  destruct (_ && _); reflexivity.
Qed.

Lemma command_prepare (m : Modal) (query : jsstring) :
  command (prepare env m query) = command (selectCommand env m query) /\
  initialCommand (prepare env m query) = initialCommand m.
Proof.
  unfold prepare, selectCommand.
  destruct (_ && _); split; reflexivity.
Qed.

(** Once the command has been selected for a query, the same query
    selects nothing new: the items are not indexed again. *)
Lemma selectCommand_stays (m m2 : Modal) (query : jsstring) :
  settings m2 = settings m ->
  initialCommand m2 = initialCommand m ->
  command m2 = command (selectCommand env m query) ->
  selectCommand env m2 query = m2.
Proof.
  intros Hs Hi Hc.
  unfold selectCommand, commandByPrefix in *. rewrite Hs, Hi.
  destruct (find _ _) as [c'|]; unfold sameObject in *.
  - destruct (Nat.eqb (ref c') (ref (command m))) eqn:Hsame;
      cbn in Hc; rewrite Hc.
    + now rewrite Hsame.
    + now rewrite Nat.eqb_refl.
  - destruct (Nat.eqb (ref (initialCommand m)) (ref (command m)))
      eqn:Hsame; cbn in Hc; rewrite Hc.
    + now rewrite Hsame.
    + now rewrite Nat.eqb_refl.
Qed.

Lemma prepare_again (m : Modal) (query : jsstring) (el : option Dom.Node) :
  prepare env (setCountInputEl (prepare env m query) el) query
  = prepare env m query.
Proof.
  destruct (command_prepare m query) as [Hc Hi].
  pose proof (settings_prepare m query) as Hs.
  unfold prepare at 1.
  rewrite (selectCommand_stays m) by assumption.
  unfold prepare, resolveSearchQuery.
  destruct (selectCommand env m query); reflexivity.
Qed.

Lemma getSuggestions_unfold (m : Modal) (query : jsstring) :
  _getSuggestions env m query =
  let m' := prepare env m query in
  if backlinkWithoutOrigin m' then ([], m')
  else
    let items :=
      sortedSuggestions env m' (smartWhitespaceSplit env (searchQuery m')) in
    (truncateAndNumber m' items,
     setCountInputEl m'
       (Some (countInput
                (Z.min (Z.of_nat (length items))
                       (maxNumberOfSuggestions (settings m')))
                (Z.of_nat (length items))))).
Proof. reflexivity. Qed.

(** What the final step returns: copies of the first items of the
    ranking, each with its index as [order]. *)
Lemma truncateAndNumber_nth (m : Modal) (items : list SuggestionItem)
    (i : nat) (y : SuggestionItem) :
  nth_error (truncateAndNumber m items) i = Some y ->
  exists x, nth_error items i = Some x /\ y = withOrder x (Z.of_nat i).
Proof.
  unfold truncateAndNumber, mapi. rewrite mapiFrom_nth_error.
  destruct (nth_error (slice0 items _) i) as [x|] eqn:Hx; [|discriminate].
  intros [= <-]. exists x. split; [|reflexivity].
  eapply slice0_nth_error; eassumption.
Qed.

Lemma truncateAndNumber_length (m : Modal) (items : list SuggestionItem) :
  (length (truncateAndNumber m items) <= length items)%nat.
Proof.
  unfold truncateAndNumber, mapi. rewrite mapiFrom_length.
  apply slice0_length_le.
Qed.

Lemma truncateAndNumber_all (m : Modal) (items : list SuggestionItem)
    (x : SuggestionItem) :
  Z.of_nat (length items) <= maxNumberOfSuggestions (settings m) ->
  In x items -> exists i, In (withOrder x i) (truncateAndNumber m items).
Proof.
  intros Hcap Hin. unfold truncateAndNumber, mapi.
  rewrite slice0_all by assumption.
  apply In_nth_error in Hin. destruct Hin as [i Hi].
  exists (0 + Z.of_nat i). apply nth_error_In with (n := i).
  rewrite mapiFrom_nth_error, Hi. reflexivity.
Qed.

End SwitcherFacts.

(** The example of the specification: "Project Plan" is not suggested
    for the tokens "proj" and "zzz" when only the name is searched. *)
Example and_filter_project_plan :
  allTokensFound asciiOps projectPlan [str "proj"; str "zzz"]
                 (matchOptions tenLines) = false /\
  appears projectPlan
    (fst (_getSuggestions sampleEnv tenLines (str "proj zzz"))) = false /\
  appears projectPlan
    (fst (_getSuggestions sampleEnv tenLines (str "proj"))) = true.
Proof. vm_compute. auto. Qed.

(** With room for one suggestion only, "Project Plan" is left out of the
    output for the query "proj" although the token was found in its name:
    the starred "Project Notes" takes the single line. *)
Lemma C1_truncation_counterexample :
  ~ outputIffAllTokensFound asciiOps sampleEnv oneLine (str "proj").
Proof.
  intros H.
  assert (In projectPlan (ignoredItems (prepare sampleEnv oneLine (str "proj"))))
    as Hin by (left; reflexivity).
  destruct (H projectPlan Hin) as [_ Hback].
  assert (appears projectPlan
            (fst (_getSuggestions sampleEnv oneLine (str "proj"))) = false)
    as Hout by (vm_compute; reflexivity).
  rewrite Hback in Hout; [discriminate|].
  vm_compute. reflexivity.
Qed.

(** C1 (amended). For a query that is not blank, an item is eligible --
    it is in the list that is ranked and counted before truncation -- if
    and only if it is the stamped copy of a pre-filtered candidate for
    which every token of the query produced a match result whose kind is
    not NotFound (AND across tokens), a token being found exactly when one
    of the facets yields a match (OR across facets). The suggestion output
    holds eligible items only; it holds all of them when they are no more
    than the result cap and the search is not cut short for want of an
    origin file. *)
Theorem C1_eligible_iff_all_tokens_found
    (ops : TextOps) (rules : Rules) (markup : Icons)
    (lastOpen : list jsstring)
    (files : SearchCommand -> option TFile.t -> list SuggestionItem)
    (prefilter : SearchCommand -> option TFile.t ->
                 list SuggestionItem -> list SuggestionItem)
    (m : Modal) (query : jsstring) :
  let env := specImports ops rules markup lastOpen files prefilter in
  let m' := prepare env m query in
  let qs := smartWhitespaceSplit env (searchQuery m') in
  let eligible := matchedSuggestions env m' qs in
  let out := fst (_getSuggestions env m query) in
  isQueryEmpty m' = false ->
  (forall x, In x eligible <->
     exists c, In c (ignoredItems m') /\
       x = Matcher.stampMatchResults ops c qs (matchOptions m') /\
       forall q, In q qs ->
         type (matchQuery ops c q (matchOptions m')) <> NotFound) /\
  (forall c q,
     type (matchQuery ops c q (matchOptions m')) <> NotFound <->
     exists k, In k facetPrecedence /\
               tryFacet ops c (matchOptions m') q k <> None) /\
  (forall y, In y out -> exists x i, In x eligible /\ y = withOrder x i) /\
  (backlinkWithoutOrigin m' = false ->
   Z.of_nat (length eligible) <= maxNumberOfSuggestions (settings m') ->
   forall x, In x eligible -> exists i, In (withOrder x i) out).
Proof.
  intros env m' qs eligible out Hquery.
  assert (backlinkWithoutOrigin m' = false ->
          out = truncateAndNumber m'
                  (Sorters.sort rules eligible (sortPriorities (command m'))
                     (lastOpenFileIndexByPath env))) as Hout.
  { intros Hguard.
    unfold out. rewrite getSuggestions_unfold. cbv zeta. fold m'.
    rewrite Hguard. cbn [fst]. unfold sortedSuggestions. fold qs eligible.
    now rewrite Hquery. }
  split; [|split; [|split]].
  - intros x. unfold eligible, matchedSuggestions. rewrite Hquery.
    rewrite filter_In, in_map_iff. split.
    + intros [(c & <- & Hc) Hall]. exists c. repeat split; [assumption|].
      cbn [stampMatchResults specImports env] in Hall.
      rewrite forallb_found_stamp in Hall. unfold allTokensFound in Hall.
      rewrite forallb_forall in Hall.
      intros q Hq. apply found_type. auto.
    + intros (c & Hc & -> & Hall). split; [now exists c|].
      cbn [stampMatchResults specImports env].
      rewrite forallb_found_stamp. unfold allTokensFound.
      rewrite forallb_forall. intros q Hq. apply found_type. auto.
  - intros c q. rewrite <- found_type. apply found_firstFacet.
  - intros y Hy.
    destruct (backlinkWithoutOrigin m') eqn:Hguard.
    + unfold out in Hy. rewrite getSuggestions_unfold in Hy.
      cbv zeta in Hy. fold m' in Hy. rewrite Hguard in Hy. contradiction.
    + rewrite (Hout eq_refl) in Hy.
      apply In_nth_error in Hy. destruct Hy as [i Hi].
      apply truncateAndNumber_nth in Hi. destruct Hi as (x & Hx & ->).
      exists x, (Z.of_nat i). split; [|reflexivity].
      apply nth_error_In in Hx. unfold Sorters.sort in Hx.
      now apply stableSort_In in Hx.
  - intros Hguard Hcap x Hx. rewrite (Hout Hguard).
    apply truncateAndNumber_all.
    + unfold Sorters.sort. now rewrite stableSort_length.
    + unfold Sorters.sort. now apply stableSort_In.
Qed.

Lemma C1_eligible_iff_all_tokens_found_witness :
  exists i,
    In (withOrder
          (Matcher.stampMatchResults asciiOps projectPlan [str "proj"]
                                     (matchOptions tenLines)) i)
       (fst (_getSuggestions sampleEnv tenLines (str "proj"))).
Proof.
  destruct (C1_eligible_iff_all_tokens_found asciiOps sampleRules
              sampleIcons lastOpened
              (fun _ _ => vault) (fun _ _ items => items)
              tenLines (str "proj"))
    as (Heligible & _ & _ & Hall); [reflexivity|].
  apply Hall.
  - reflexivity.
  - vm_compute. discriminate.
  - apply Heligible. exists projectPlan.
    split; [left; reflexivity|]. split; [reflexivity|].
    intros q [<-|[]]. vm_compute. discriminate.
Defined.



(** C3. The suggestion list is truncated to at most
    [maxNumberOfSuggestions] items, and the [order] of each returned item
    is its 0-based index in the truncated list: the returned items are
    copies of the first items of the ranking, numbered after the
    truncation, and the items the modal keeps are left as they were. *)
Theorem C3_truncated_and_numbered
    (env : Imports) (m : Modal) (query : jsstring) :
  0 <= maxNumberOfSuggestions (settings m) ->
  let m' := prepare env m query in
  let ranked :=
    sortedSuggestions env m' (smartWhitespaceSplit env (searchQuery m')) in
  let out := fst (_getSuggestions env m query) in
  Z.of_nat (length out) <= maxNumberOfSuggestions (settings m) /\
  (length out <= length ranked)%nat /\
  (forall i y, nth_error out i = Some y ->
     order y = Some (Z.of_nat i) /\
     exists x, nth_error ranked i = Some x /\ y = withOrder x (Z.of_nat i)) /\
  ignoredItems (snd (_getSuggestions env m query)) = ignoredItems m' /\
  originItems (snd (_getSuggestions env m query)) = originItems m'.
Proof.
  intros Hcap m' ranked out.
  unfold out. rewrite getSuggestions_unfold. cbv zeta. fold m' ranked.
  destruct (backlinkWithoutOrigin m'); cbn [fst snd].
  - repeat split; simpl; try lia.
    all: destruct i; discriminate.
  - split; [|split; [|split; [|split; reflexivity]]].
    + unfold truncateAndNumber, mapi. rewrite mapiFrom_length.
      unfold m'. rewrite settings_prepare.
      rewrite slice0_length by assumption. lia.
    + apply truncateAndNumber_length.
    + intros i y Hy. apply truncateAndNumber_nth in Hy.
      destruct Hy as (x & Hx & ->). split; [reflexivity|]. now exists x.
Qed.

Lemma C3_truncated_and_numbered_witness :
  (Z.of_nat (length (fst (_getSuggestions sampleEnv oneLine (str "proj"))))
   <=? 1) = true /\
  option_map order
    (nth_error (fst (_getSuggestions sampleEnv oneLine (str "proj"))) 0)
  = Some (Some 0).
Proof.
  destruct (C3_truncated_and_numbered sampleEnv oneLine (str "proj"))
    as (Hcap & _ & Horder & _); [simpl; lia|].
  split; [apply Z.leb_le; exact Hcap|].
  destruct (nth_error (fst (_getSuggestions sampleEnv oneLine (str "proj"))) 0)
    as [y|] eqn:Hy; [|vm_compute in Hy; discriminate].
  destruct (Horder 0%nat y Hy) as [Ho _]. simpl. now rewrite Ho.
Defined.

(** C4. Evaluating the suggestions a second time with the same query,
    the items, the configuration and the last open files unchanged,
    returns the same suggestions -- same match results, same order -- and
    leaves the modal as the first evaluation left it. The sorter is
    stable: items that tie with one another under all priority rules keep
    their original relative order. *)
Theorem C4_deterministic_and_stable :
  (forall (env : Imports) (m : Modal) (query : jsstring),
     let first := _getSuggestions env m query in
     _getSuggestions env (snd first) query = first) /\
  (forall (rules : Rules) (priorities : list SortPriority)
          (idx : IndexByPath) (items : list SuggestionItem)
          (P : SuggestionItem -> bool),
     (forall a b, In a items -> In b items -> P a = true -> P b = true ->
                  Sorters.compare rules priorities idx a b = 0) ->
     filter P (Sorters.sort rules items priorities idx) = filter P items) /\
  (forall (rules : Rules) (priorities : list SortPriority)
          (idx : IndexByPath) (items : list SuggestionItem),
     Permutation (Sorters.sort rules items priorities idx) items).
Proof.
  split; [|split].
  - intros env m query first.
    assert (prepare env (snd first) query = prepare env m query) as Hsame.
    { unfold first. rewrite getSuggestions_unfold. cbv zeta.
      destruct (backlinkWithoutOrigin (prepare env m query)); cbn [snd].
      - transitivity
          (prepare env (setCountInputEl (prepare env m query) None) query);
          [|apply prepare_again].
        reflexivity.
      - apply prepare_again. }
    unfold first at 2.
    rewrite (getSuggestions_unfold env (snd first)),
            (getSuggestions_unfold env m).
    cbv zeta. now rewrite Hsame.
  - intros rules priorities idx items P Htie.
    unfold Sorters.sort. now apply stableSort_stable.
  - intros. apply stableSort_perm.
Qed.

Lemma C4_deterministic_and_stable_witness :
  filter (fun x => negb (starred x))
         (Sorters.sort sampleRules vault [str "Star"] [])
  = [projectPlan; groceries].
Proof.
  destruct C4_deterministic_and_stable as (_ & Hstable & _).
  rewrite Hstable; [reflexivity|].
  intros a b Ha Hb.
  simpl in Ha, Hb.
  destruct Ha as [<-|[<-|[<-|[]]]], Hb as [<-|[<-|[<-|[]]]];
    intros Pa Pb; try discriminate; reflexivity.
Defined.

(** A backlink search without origin file returns before the count
    element is built, after the previous one has been removed: no count
    is shown beside its empty list. *)
Lemma C5_no_count_counterexample :
  ~ countsReported sampleEnv noOrigin (str "proj").
Proof.
  unfold countsReported. vm_compute. discriminate.
Qed.

(** C5 (amended). Beside the ranked and truncated list the switcher
    shows "shown / total": the total is the number of ranked items before
    the truncation, the shown count is the minimum of the total and
    [maxNumberOfSuggestions], and that is the number of suggestions
    returned when the cap is not negative. A backlink search without
    origin file is the exception: its list is empty and no count is
    shown. *)
Theorem C5_shown_and_total_counts
    (env : Imports) (m : Modal) (query : jsstring) :
  let m' := prepare env m query in
  let ranked :=
    sortedSuggestions env m' (smartWhitespaceSplit env (searchQuery m')) in
  let total := Z.of_nat (length ranked) in
  let cap := maxNumberOfSuggestions (settings m) in
  let result := _getSuggestions env m query in
  (backlinkWithoutOrigin m' = true ->
   fst result = [] /\ countInputEl (snd result) = None) /\
  (backlinkWithoutOrigin m' = false ->
   countInputEl (snd result)
   = Some (countInput (Z.min total cap) total) /\
   fst result = truncateAndNumber m' ranked /\
   (0 <= cap -> Z.of_nat (length (fst result)) = Z.min total cap)).
Proof.
  intros m' ranked total cap result.
  pose proof (settings_prepare env m query) as Hs. fold m' in Hs.
  unfold result. rewrite getSuggestions_unfold. cbv zeta.
  fold m' ranked. split; intros Hguard; rewrite Hguard; cbn [fst snd].
  - split; reflexivity.
  - rewrite Hs. fold cap total.
    split; [reflexivity|]. split; [reflexivity|]. intros Hcap.
    unfold truncateAndNumber, mapi. rewrite mapiFrom_length, Hs. fold cap.
    now rewrite slice0_length.
Qed.

Lemma C5_shown_and_total_counts_witness :
  countInputEl (snd (_getSuggestions sampleEnv oneLine (str "proj")))
  = Some (Dom.createDiv
            [str "another-quick-switcher__status__count-input"]
            (Some (str "1 / 2"))) /\
  length (fst (_getSuggestions sampleEnv oneLine (str "proj"))) = 1%nat /\
  countInputEl (snd (_getSuggestions sampleEnv noOrigin (str "proj")))
  = None.
Proof.
  destruct (C5_shown_and_total_counts sampleEnv oneLine (str "proj"))
    as (_ & Hshown).
  destruct Hshown as (Hcount & _ & Hlength); [reflexivity|].
  destruct (C5_shown_and_total_counts sampleEnv noOrigin (str "proj"))
    as (Hnone & _).
  destruct Hnone as (_ & Hnone); [reflexivity|].
  split; [rewrite Hcount; reflexivity|]. split; [|exact Hnone].
  apply Nat2Z.inj. rewrite Hlength by (simpl; lia). reflexivity.
Defined.



(* ================================================================== *)
(** * Arrays: facts *)
(* ================================================================== *)

Section ArrFacts.

Context {A : Type}.

Lemma at_Some (xs : list A) (i : Z) (x : A) :
  Arr.at_ xs i = Some x <->
  0 <= i /\ nth_error xs (Z.to_nat i) = Some x.
Proof.
  unfold Arr.at_. destruct (Z.ltb_spec i 0); split.
  - discriminate.
  - intros [? _]; lia.
  - auto.
  - now intros [_ ?].
Qed.

Lemma at_None (xs : list A) (i : Z) :
  Arr.at_ xs i = None <-> i < 0 \/ Z.of_nat (length xs) <= i.
Proof.
  unfold Arr.at_. destruct (Z.ltb_spec i 0).
  - split; auto.
  - rewrite nth_error_None. split; [intros; right; lia|].
    intros [?|?]; lia.
Qed.

Lemma at_of_nat (xs : list A) (i : nat) :
  Arr.at_ xs (Z.of_nat i) = nth_error xs i.
Proof.
  unfold Arr.at_. destruct (Z.ltb_spec (Z.of_nat i) 0); [lia|].
  now rewrite Nat2Z.id.
Qed.

(** What [find] returns, by the place of the first element that
    satisfies the test. *)
Lemma find_split (p : A -> bool) (xs : list A) :
  (find p xs = None /\ forall x, In x xs -> p x = false) \/
  (exists pre x post,
      xs = pre ++ x :: post /\ p x = true /\
      (forall y, In y pre -> p y = false) /\ find p xs = Some x).
Proof.
  induction xs as [|a xs IH]; simpl.
  - left. split; [reflexivity | intros x []].
  - destruct (p a) eqn:Ha.
    + right. exists [], a, xs. repeat split; auto. intros y [].
    + destruct IH as [[Hn Hall] | (pre & x & post & -> & Hx & Hpre & Hf)].
      * left. split; [assumption|]. intros x [<-|Hx]; auto.
      * right. exists (a :: pre), x, post. repeat split; auto.
        intros y [<-|Hy]; auto.
Qed.

Lemma findIndexFrom_split (p : A -> bool) (xs : list A) (k : Z) :
  (Arr.findIndexFrom p k xs = -1 /\ forall x, In x xs -> p x = false) \/
  (exists pre x post,
      xs = pre ++ x :: post /\ p x = true /\
      (forall y, In y pre -> p y = false) /\
      Arr.findIndexFrom p k xs = k + Z.of_nat (length pre)).
Proof.
  revert k. induction xs as [|a xs IH]; intros k; simpl.
  - left. split; [reflexivity | intros x []].
  - destruct (p a) eqn:Ha.
    + right. exists [], a, xs.
      split; [reflexivity|]. split; [assumption|].
      split; [intros y [] | simpl; lia].
    + destruct (IH (k + 1))
        as [[Hn Hall] | (pre & x & post & -> & Hx & Hpre & Hf)].
      * left. split; [assumption|]. intros x [<-|Hx]; auto.
      * right. exists (a :: pre), x, post.
        split; [reflexivity|]. split; [assumption|]. split.
        -- intros y [<-|Hy]; auto.
        -- rewrite Hf. simpl length. lia.
Qed.

Lemma findIndex_split (p : A -> bool) (xs : list A) :
  (Arr.findIndex p xs = -1 /\ forall x, In x xs -> p x = false) \/
  (exists pre x post,
      xs = pre ++ x :: post /\ p x = true /\
      (forall y, In y pre -> p y = false) /\
      Arr.findIndex p xs = Z.of_nat (length pre)).
Proof.
  unfold Arr.findIndex.
  destruct (findIndexFrom_split p xs 0)
    as [? | (pre & x & post & ? & ? & ? & Hf)]; [now left|].
  right. exists pre, x, post.
  split; [assumption|]. split; [assumption|]. split; [assumption|].
  now rewrite Hf.
Qed.

Lemma nth_error_middle (pre post : list A) (x : A) :
  nth_error (pre ++ x :: post) (length pre) = Some x.
Proof. induction pre; simpl; auto. Qed.

End ArrFacts.

(* ================================================================== *)
(** * Header modal: hits, selection and keys *)
(* ================================================================== *)

Section HeaderFacts.

Import HeaderModal HeaderKeys.

Lemma sorted_of_numbered (l : list SuggestionItem) (k : Z) :
  (forall i x, nth_error l i = Some x -> index x = k + Z.of_nat i) ->
  StronglySorted before l.
Proof.
  revert k. induction l as [|a l IH]; intros k Hnum; constructor.
  - apply (IH (k + 1)). intros i x Hx.
    rewrite (Hnum (S i) x Hx). lia.
  - apply Forall_forall. intros y Hy.
    apply In_nth_error in Hy. destruct Hy as [j Hj]. unfold before.
    rewrite (Hnum 0%nat a eq_refl), (Hnum (S j) y Hj). lia.
Qed.

Lemma sorted_filter (p : SuggestionItem -> bool) (l : list SuggestionItem) :
  StronglySorted before l -> StronglySorted before (filter p l).
Proof.
  induction 1 as [|a l Hs IH Hall]; simpl; [constructor|].
  destruct (p a); [|assumption].
  constructor; [assumption|].
  rewrite Forall_forall in *. intros y Hy.
  apply filter_In in Hy. now apply Hall.
Qed.

(** In a sorted list the elements before a place are smaller, those
    after it larger. *)
Lemma sorted_split (pre post : list SuggestionItem) (x : SuggestionItem) :
  StronglySorted before (pre ++ x :: post) ->
  (forall y, In y pre -> index y < index x) /\
  (forall y, In y post -> index x < index y).
Proof.
  induction pre as [|a pre IH]; simpl; intros Hs.
  - apply StronglySorted_inv in Hs. destruct Hs as [_ Hall].
    rewrite Forall_forall in Hall. split; [intros y []|auto].
  - apply StronglySorted_inv in Hs. destruct Hs as [Hs Hall].
    destruct (IH Hs) as [Hpre Hpost]. split; [|assumption].
    rewrite Forall_forall in Hall.
    intros y [<-|Hy]; [|auto].
    apply Hall. apply in_or_app. right. now left.
Qed.

Lemma wellIndexed_range (l : list SuggestionItem) (x : SuggestionItem) :
  wellIndexed l -> In x l -> 0 <= index x < Z.of_nat (length l).
Proof.
  intros Hw Hx. apply In_nth_error in Hx. destruct Hx as [i Hi].
  rewrite (Hw i x Hi).
  assert (i < length l)%nat by (apply nth_error_Some; congruence). lia.
Qed.

Lemma wellIndexed_at (l : list SuggestionItem) (x : SuggestionItem) :
  wellIndexed l -> In x l -> Arr.at_ l (index x) = Some x.
Proof.
  intros Hw Hx. apply In_nth_error in Hx. destruct Hx as [i Hi].
  rewrite (Hw i x Hi), at_of_nat. exact Hi.
Qed.

Lemma construct_consistent (excludeFormat : jsstring -> jsstring)
    (headings : list HeadingCache.t) (normalize : bool) :
  consistent (construct excludeFormat headings normalize).
Proof.
  split; [|split; constructor].
  intros i x. unfold construct, mapi. cbn [items].
  rewrite mapiFrom_nth_error.
  destruct (nth_error headings i); [|discriminate].
  intros [= <-]. reflexivity.
Qed.

(** The suggestions are the items, with [hit] set. *)
Lemma getSuggestions_nth (smartIncludes : jsstring -> jsstring -> bool -> bool)
    (m : Modal) (query : jsstring) (i : nat) :
  nth_error (fst (getSuggestions smartIncludes m query)) i
  = option_map
      (fun x =>
         withHit x
           ((0 <? Z.of_nat (length (queryTokens query)))
            && forallb
                 (fun q =>
                    smartIncludes (value x) q
                                  (normalizeAccentsAndDiacritics m))
                 (queryTokens query)))
      (nth_error (items m) i).
Proof. unfold getSuggestions. cbn [fst]. apply nth_error_map. Qed.

Lemma getSuggestions_consistent
    (smartIncludes : jsstring -> jsstring -> bool -> bool)
    (m : Modal) (query : jsstring) :
  consistent m -> consistent (snd (getSuggestions smartIncludes m query)).
Proof.
  intros (Hw & _ & _).
  assert (wellIndexed (fst (getSuggestions smartIncludes m query))) as Hw'.
  { intros i y. rewrite getSuggestions_nth.
    destruct (nth_error (items m) i) as [x|] eqn:Hx; [|discriminate].
    intros [= <-]. exact (Hw i x Hx). }
  assert (length (fst (getSuggestions smartIncludes m query))
          = length (items m)) as Hlen
      by (unfold getSuggestions; cbn [fst]; apply length_map).
  unfold consistent. unfold getSuggestions in *.
  cbn [fst snd items hitItems] in *.
  split; [exact Hw|]. split.
  - apply sorted_filter. apply (sorted_of_numbered _ 0).
    intros i x Hx. rewrite (Hw' i x Hx). lia.
  - apply Forall_forall. intros h Hh. apply filter_In in Hh.
    destruct Hh as [Hh _]. rewrite <- Hlen.
    now apply wellIndexed_range.
Qed.

Lemma select_frame (m : Modal) (i : Z) (preview : bool) :
  items (fst (select m i preview)) = items m /\
  hitItems (fst (select m i preview)) = hitItems m /\
  unsafeSelectedIndex (fst (select m i preview)) = i.
Proof.
  unfold select. destruct preview; [|now cbn].
  cbn [items setSelectedIndex unsafeSelectedIndex].
  destruct (Arr.at_ (items m) i); now cbn.
Qed.

Lemma select_completion (m : Modal) (i : Z) (preview : bool) :
  snd (select m i preview) = TypeError <->
  preview = true /\ ~ (0 <= i < Z.of_nat (length (items m))).
Proof.
  unfold select. destruct preview; cbn -[Arr.at_].
  - destruct (Arr.at_ (items m) i) as [x|] eqn:Hx; cbn.
    + apply at_Some in Hx. destruct Hx as [H0 Hx].
      assert (Z.to_nat i < length (items m))%nat
        by (apply nth_error_Some; congruence).
      split; [discriminate|]. intros [_ Hn]. exfalso. apply Hn. lia.
    + apply at_None in Hx. split; [|reflexivity].
      intros _. split; [reflexivity|]. lia.
  - split; [discriminate | intros [? _]; discriminate].
Qed.


End HeaderFacts.

Lemma queryTokens_blank (query : jsstring) :
  (forall c, In c query -> c = SPACE) -> HeaderModal.queryTokens query = [].
Proof.
  intros Hblank.
  destruct (HeaderModal.queryTokens query) as [|t ts] eqn:Ht; [reflexivity|].
  exfalso.
  assert (In t (HeaderModal.queryTokens query)) as Hin
      by (rewrite Ht; now left).
  rewrite queryTokens_splitBy in Hin.
  pose proof (tokens_clean _ _ _ Hin) as [Hne _].
  pose proof (tokens_concat (fun x => (x =? SPACE)%N) query) as Hcat.
  rewrite <- queryTokens_splitBy, Ht in Hcat.
  assert (filter (fun c => negb (c =? SPACE)%N) query = []) as Hnone.
  { clear -Hblank. induction query as [|c q IH]; [reflexivity|].
    simpl. rewrite (Hblank c (or_introl eq_refl)), N.eqb_refl. simpl.
    apply IH. intros d Hd. apply Hblank. now right. }
  rewrite Hnone in Hcat. simpl in Hcat.
  apply app_eq_nil in Hcat. destruct Hcat. contradiction.
Qed.

(** X1. [HeaderModal.getSuggestions] returns the headers unchanged but
    for [hit]: a header is hit when the query has at least one token and
    the header includes every token, so a query made of spaces only hits
    nothing. The hit items the modal keeps are the hit suggestions in
    document order, the selection is not moved, and the numbering of the
    items by position, which the constructor sets up, is kept. *)
Theorem X1_header_hits
    (smartIncludes : jsstring -> jsstring -> bool -> bool)
    (m : HeaderModal.Modal) (query : jsstring) :
  let r := HeaderModal.getSuggestions smartIncludes m query in
  let qs := HeaderModal.queryTokens query in
  map (fun x => HeaderModal.withHit x false) (fst r)
  = map (fun x => HeaderModal.withHit x false) (HeaderModal.items m) /\
  (forall x, In x (fst r) ->
     HeaderModal.hit x = true <->
     qs <> [] /\
     forall q, In q qs ->
       smartIncludes (HeaderModal.value x) q
                     (HeaderModal.normalizeAccentsAndDiacritics m) = true) /\
  HeaderModal.hitItems (snd r) = filter HeaderModal.hit (fst r) /\
  HeaderModal.items (snd r) = HeaderModal.items m /\
  HeaderModal.unsafeSelectedIndex (snd r)
  = HeaderModal.unsafeSelectedIndex m /\
  ((forall c, In c query -> c = SPACE) -> HeaderModal.hitItems (snd r) = []) /\
  (HeaderKeys.consistent m -> HeaderKeys.consistent (snd r)) /\
  (forall excludeFormat headings normalize,
     HeaderKeys.consistent
       (HeaderKeys.construct excludeFormat headings normalize)).
Proof.
  intros r qs.
  assert (forall x, In x (fst r) ->
            HeaderModal.hit x = true <->
            qs <> [] /\
            forall q, In q qs ->
              smartIncludes (HeaderModal.value x) q
                (HeaderModal.normalizeAccentsAndDiacritics m) = true)
    as Hhit.
  { intros y Hy. unfold r, HeaderModal.getSuggestions in Hy. cbn [fst] in Hy.
    apply in_map_iff in Hy. destruct Hy as (x & <- & _).
    cbn [HeaderModal.hit HeaderModal.withHit HeaderModal.value].
    fold qs. rewrite andb_true_iff, forallb_forall, Z.ltb_lt.
    split; intros [Hlen Hall]; (split; [|exact Hall]).
    - intros Hnil. rewrite Hnil in Hlen. simpl in Hlen. lia.
    - destruct qs; [contradiction | simpl; lia]. }
  split; [|split; [exact Hhit|]].
  { unfold r, HeaderModal.getSuggestions. cbn [fst].
    rewrite map_map. reflexivity. }
  split; [reflexivity|]. split; [reflexivity|]. split; [reflexivity|].
  split; [|split].
  - intros Hblank.
    change (HeaderModal.hitItems (snd r)) with (filter HeaderModal.hit (fst r)).
    apply queryTokens_blank in Hblank.
    destruct (filter HeaderModal.hit (fst r)) as [|h hs] eqn:Hf;
      [reflexivity|].
    assert (In h (filter HeaderModal.hit (fst r))) as Hin
        by (rewrite Hf; now left).
    apply filter_In in Hin. destruct Hin as [Hin Hh].
    apply (Hhit h Hin) in Hh. destruct Hh as [Hne _].
    exfalso. apply Hne. exact Hblank.
  - apply getSuggestions_consistent.
  - apply construct_consistent.
Qed.

Lemma X1_header_hits_witness :
  HeaderModal.hitItems
    (snd (HeaderModal.getSuggestions (fun v q _ => includes v q)
            headerModal (str "   ")))
  = [] /\
  map HeaderModal.index
    (HeaderModal.hitItems
       (snd (HeaderModal.getSuggestions (fun v q _ => includes v q)
               headerModal (str "s "))))
  = [0; 2].
Proof.
  destruct (X1_header_hits (fun v q _ => includes v q) headerModal
              (str "   ")) as (_ & _ & _ & _ & _ & Hblank & _).
  split; [|reflexivity].
  apply Hblank. simpl. intros c [<-|[<-|[<-|[]]]]; reflexivity.
Defined.

Section HitSelection.

Import HeaderModal HeaderKeys.

(** [find(p)?.index ?? hitItems[0].index] over hits in document order:
    the first hit that passes the test, and the first hit of all when none
    passes. *)
Lemma selectHitOrFirst_spec (m : Modal) (p : SuggestionItem -> bool)
    (floating : bool) :
  consistent m -> hitItems m <> [] ->
  exists h,
    In h (hitItems m) /\
    selectHitOrFirst m p floating = select m (index h) floating /\
    ((exists h', In h' (hitItems m) /\ p h' = true) ->
     p h = true /\
     forall h', In h' (hitItems m) -> p h' = true -> index h <= index h') /\
    ((forall h', In h' (hitItems m) -> p h' = false) ->
     forall h', In h' (hitItems m) -> index h <= index h').
Proof.
  intros (_ & Hsorted & _) Hne. unfold selectHitOrFirst.
  destruct (find_split p (hitItems m))
    as [[Hnone Hall] | (pre & x & post & Heq & Hx & Hpre & Hfind)].
  - rewrite Hnone.
    destruct (hitItems m) as [|h0 hs] eqn:Hh; [contradiction|].
    cbn. exists h0. split; [now left|]. split; [reflexivity|]. split.
    + intros (h' & Hin & Hp). rewrite (Hall h' Hin) in Hp. discriminate.
    + intros _ h' [<-|Hin]; [lia|].
      apply StronglySorted_inv in Hsorted. destruct Hsorted as [_ Hlt].
      rewrite Forall_forall in Hlt. specialize (Hlt h' Hin).
      unfold before in Hlt. lia.
  - rewrite Hfind. exists x. rewrite Heq in *.
    split; [apply in_or_app; right; now left|]. split; [reflexivity|].
    destruct (sorted_split pre post x Hsorted) as [Hbefore Hafter].
    split.
    + intros _. split; [assumption|]. intros h' Hin Hp.
      apply in_app_or in Hin. destruct Hin as [Hin|[<-|Hin]].
      * rewrite (Hpre h' Hin) in Hp. discriminate.
      * lia.
      * specialize (Hafter h' Hin). lia.
    + intros Hall. rewrite Hall in Hx; [discriminate|].
      apply in_or_app. right. now left.
Qed.

Lemma select_hit_completes (m : Modal) (h : SuggestionItem)
    (floating : bool) :
  consistent m -> In h (hitItems m) ->
  snd (select m (index h) floating) <> TypeError.
Proof.
  intros (_ & _ & Hrange) Hin Hthrow.
  apply select_completion in Hthrow. destruct Hthrow as [_ Hout].
  rewrite Forall_forall in Hrange. auto.
Qed.

End HitSelection.


Section SampleHeaders.

Import HeaderModal HeaderKeys HeaderSamples.

Lemma setSelectedIndex_consistent (m : Modal) (i : Z) :
  consistent m -> consistent (setSelectedIndex m i).
Proof. intros H. exact H. Qed.

Lemma searchedS_consistent : consistent searchedS.
Proof.
  apply setSelectedIndex_consistent, getSuggestions_consistent,
    construct_consistent.
Qed.

Lemma searchedL_consistent : consistent searchedL.
Proof.
  apply setSelectedIndex_consistent, getSuggestions_consistent,
    construct_consistent.
Qed.

End SampleHeaders.


Section HitMoves.

Import HeaderModal HeaderKeys.

Lemma at_last (l : list SuggestionItem) :
  l <> [] ->
  exists init z,
    l = init ++ [z] /\ Arr.at_ l (Z.of_nat (length l) - 1) = Some z.
Proof.
  intros Hne. destruct (exists_last Hne) as (init & z & ->).
  exists init, z. split; [reflexivity|].
  rewrite length_app. simpl length.
  replace (Z.of_nat (length init + 1) - 1) with (Z.of_nat (length init))
    by lia.
  rewrite at_of_nat. apply nth_error_middle.
Qed.

Lemma two_hits_ordered (l : list SuggestionItem) :
  StronglySorted before l -> (2 <= length l)%nat ->
  forall h, In h l -> (forall h', In h' l -> index h <= index h') ->
  exists h', In h' l /\ index h < index h'.
Proof.
  intros Hs Hlen h Hin Hmin.
  destruct l as [|a [|b l]]; simpl in Hlen; try lia.
  apply StronglySorted_inv in Hs. destruct Hs as [_ Hall].
  rewrite Forall_forall in Hall.
  specialize (Hall b (or_introl eq_refl)). unfold before in Hall.
  exists b. split; [right; now left|].
  specialize (Hmin a (or_introl eq_refl)). lia.
Qed.

End HitMoves.

(** X3. [moveToNextHit] of the header modal. With two hits or more the
    selection goes to a hit without raising, and always to another header:
    the first hit after the old selection, and the first hit of the note
    when no hit comes after it. With exactly one hit nothing happens, and
    without hits the key navigates to the next header. *)
Theorem X3_next_hit (m : HeaderModal.Modal) (floating : bool) :
  HeaderKeys.consistent m ->
  let r := HeaderKeys.moveToNextHit m floating in
  let sel := HeaderModal.unsafeSelectedIndex m in
  let hits := HeaderModal.hitItems m in
  ((2 <= length hits)%nat ->
   snd r <> HeaderKeys.TypeError /\
   exists h,
     In h hits /\
     HeaderModal.unsafeSelectedIndex (fst r) = HeaderModal.index h /\
     HeaderModal.index h <> sel /\
     ((exists h', In h' hits /\ sel < HeaderModal.index h') ->
      sel < HeaderModal.index h /\
      forall h', In h' hits -> sel < HeaderModal.index h' ->
                 HeaderModal.index h <= HeaderModal.index h') /\
     ((forall h', In h' hits -> HeaderModal.index h' <= sel) ->
      forall h', In h' hits ->
                 HeaderModal.index h <= HeaderModal.index h')) /\
  (length hits = 1%nat -> r = (m, HeaderKeys.Quiet)) /\
  (hits = [] -> r = HeaderKeys.navigateNext m floating).
Proof.
  intros Hc r sel hits. subst hits. split; [|split].
  - intros Hlen.
    assert (HeaderModal.hitItems m <> []) as Hne
        by (destruct (HeaderModal.hitItems m); [simpl in Hlen; lia
                                               | discriminate]).
    assert (r = HeaderKeys.selectHitOrFirst m
                  (fun x => HeaderModal.index x >? sel) floating) as Hr.
    { unfold r, HeaderKeys.moveToNextHit. fold sel.
      destruct (Z.eqb_spec (Z.of_nat (length (HeaderModal.hitItems m))) 1);
        [lia|].
      destruct (Z.eqb_spec (Z.of_nat (length (HeaderModal.hitItems m))) 0);
        [lia | reflexivity]. }
    destruct (selectHitOrFirst_spec m
                (fun x => HeaderModal.index x >? sel) floating Hc Hne)
      as (h & Hin & Heq & Hnear & Hwrap).
    rewrite Hr, Heq.
    destruct (select_frame m (HeaderModal.index h) floating)
      as (_ & _ & Hsel).
    split; [now apply select_hit_completes|].
    exists h. split; [assumption|]. split; [assumption|].
    assert ((exists h', In h' (HeaderModal.hitItems m) /\
                        sel < HeaderModal.index h') ->
            sel < HeaderModal.index h /\
            forall h', In h' (HeaderModal.hitItems m) ->
                       sel < HeaderModal.index h' ->
                       HeaderModal.index h <= HeaderModal.index h') as Hafter.
    { intros (h' & Hin' & Hgt).
      destruct Hnear as [Hp Hmin].
      { exists h'. split; [assumption|]. apply Z.gtb_lt. lia. }
      apply Z.gtb_lt in Hp. split; [lia|].
      intros h'' Hin'' Hgt''. apply Hmin; [assumption|].
      apply Z.gtb_lt. lia. }
    assert ((forall h', In h' (HeaderModal.hitItems m) ->
                        HeaderModal.index h' <= sel) ->
            forall h', In h' (HeaderModal.hitItems m) ->
                       HeaderModal.index h <= HeaderModal.index h') as Hnone.
    { intros Hall. apply Hwrap. intros h' Hin'.
      specialize (Hall h' Hin').
      destruct (Z.gtb_spec (HeaderModal.index h') sel); [lia | reflexivity]. }
    split; [|split; assumption].
    destruct (Z.ltb_spec sel (HeaderModal.index h)) as [Hlt|Hge]; [lia|].
    assert (forall h', In h' (HeaderModal.hitItems m) ->
                       HeaderModal.index h' <= sel) as Hall.
    { intros h' Hin'.
      destruct (Z.leb_spec (HeaderModal.index h') sel) as [|Hgt];
        [assumption|].
      destruct Hafter as [Hbad _]; [now exists h' | lia]. }
    destruct Hc as (_ & Hsorted & _).
    destruct (two_hits_ordered _ Hsorted Hlen h Hin (Hnone Hall))
      as (h' & Hin' & Hlt).
    specialize (Hall h' Hin'). lia.
  - intros Hone. unfold r, HeaderKeys.moveToNextHit.
    now rewrite Hone.
  - intros Hnil. unfold r, HeaderKeys.moveToNextHit.
    now rewrite Hnil.
Qed.

Lemma X3_next_hit_witness :
  HeaderModal.unsafeSelectedIndex
    (fst (HeaderKeys.moveToNextHit HeaderSamples.searchedS false)) = 2 /\
  HeaderModal.unsafeSelectedIndex
    (fst (HeaderKeys.moveToNextHit HeaderSamples.searchedL false)) = 0.
Proof.
  destruct (X3_next_hit HeaderSamples.searchedS false searchedS_consistent)
    as (Hmany & _).
  destruct Hmany as (_ & h & _ & Hsel & _); [simpl; lia|].
  split; reflexivity.
Defined.

(** X4. [moveToPreviousHit] of the header modal, with two hits or more.
    It raises a TypeError, before anything is selected, exactly when every
    hit lies before the selection: [findIndex] then answers -1 and the hit
    at index -2 is read. Otherwise the selection goes to a hit: the last
    hit before the old selection, and the last hit of the note when no hit
    lies before it. *)
Theorem X4_previous_hit (m : HeaderModal.Modal) (floating : bool) :
  HeaderKeys.consistent m ->
  (2 <= length (HeaderModal.hitItems m))%nat ->
  let r := HeaderKeys.moveToPreviousHit m floating in
  let sel := HeaderModal.unsafeSelectedIndex m in
  let hits := HeaderModal.hitItems m in
  (snd r = HeaderKeys.TypeError <->
   forall h, In h hits -> HeaderModal.index h < sel) /\
  (snd r = HeaderKeys.TypeError -> fst r = m) /\
  (snd r <> HeaderKeys.TypeError ->
   exists h,
     In h hits /\
     HeaderModal.unsafeSelectedIndex (fst r) = HeaderModal.index h /\
     ((forall h', In h' hits -> sel <= HeaderModal.index h') ->
      forall h', In h' hits ->
                 HeaderModal.index h' <= HeaderModal.index h) /\
     ((exists h', In h' hits /\ HeaderModal.index h' < sel) ->
      HeaderModal.index h < sel /\
      forall h', In h' hits -> HeaderModal.index h' < sel ->
                 HeaderModal.index h' <= HeaderModal.index h)).
Proof.
  intros Hc Hlen r sel hits. subst hits.
  pose proof Hc as (_ & Hsorted & _).
  assert (HeaderModal.hitItems m <> []) as Hne
      by (destruct (HeaderModal.hitItems m); [simpl in Hlen; lia
                                             | discriminate]).
  assert (r = let currentIndex :=
                Arr.findIndex (fun x => HeaderModal.index x >=? sel)
                              (HeaderModal.hitItems m) in
              let previousIndex :=
                if currentIndex =? 0
                then Z.of_nat (length (HeaderModal.hitItems m)) - 1
                else currentIndex - 1 in
              match Arr.at_ (HeaderModal.hitItems m) previousIndex with
              | Some h => HeaderKeys.select m (HeaderModal.index h) floating
              | None => (m, HeaderKeys.TypeError)
              end) as Hr.
  { unfold r, HeaderKeys.moveToPreviousHit. fold sel.
    destruct (Z.eqb_spec (Z.of_nat (length (HeaderModal.hitItems m))) 1);
      [lia|].
    destruct (Z.eqb_spec (Z.of_nat (length (HeaderModal.hitItems m))) 0);
      [lia | reflexivity]. }
  cbv zeta in Hr.
  destruct (findIndex_split (fun x => HeaderModal.index x >=? sel)
                            (HeaderModal.hitItems m))
    as [[Hminus Hall] | (pre & x & post & Heq & Hx & Hpre & Hidx)].
  - (* every hit lies before the selection *)
    rewrite Hminus in Hr. cbn in Hr. rewrite Hr. cbn [fst snd].
    assert (forall h, In h (HeaderModal.hitItems m) ->
                      HeaderModal.index h < sel) as Hbefore.
    { intros h Hin. specialize (Hall h Hin).
      destruct (Z.geb_spec (HeaderModal.index h) sel); [discriminate | lia]. }
    split; [split; auto|]. split; [reflexivity|].
    intros Habs. now contradiction Habs.
  - apply Z.geb_le in Hx.
    assert (forall y, In y pre -> HeaderModal.index y < sel) as Hpre'.
    { intros y Hy. specialize (Hpre y Hy).
      destruct (Z.geb_spec (HeaderModal.index y) sel); [discriminate | lia]. }
    assert (In x (HeaderModal.hitItems m)) as Hxin
        by (rewrite Heq; apply in_or_app; right; now left).
    assert (~ (forall h, In h (HeaderModal.hitItems m) ->
                         HeaderModal.index h < sel)) as Hnot
        by (intros Hbad; specialize (Hbad x Hxin); lia).
    assert (exists h,
               In h (HeaderModal.hitItems m) /\
               r = HeaderKeys.select m (HeaderModal.index h) floating /\
               ((forall h', In h' (HeaderModal.hitItems m) ->
                            sel <= HeaderModal.index h') ->
                forall h', In h' (HeaderModal.hitItems m) ->
                           HeaderModal.index h' <= HeaderModal.index h) /\
               ((exists h', In h' (HeaderModal.hitItems m) /\
                            HeaderModal.index h' < sel) ->
                HeaderModal.index h < sel /\
                forall h', In h' (HeaderModal.hitItems m) ->
                           HeaderModal.index h' < sel ->
                           HeaderModal.index h' <= HeaderModal.index h))
      as (h & Hin & Hsel & Hwrap & Hnear).
    { rewrite Hidx in Hr.
      destruct pre as [|p0 pre0] using rev_ind.
      - (* the first hit is at or after the selection: wrap to the last *)
        cbn [length Z.of_nat Z.eqb] in Hr.
        destruct (at_last _ Hne) as (init & z & Hlast & Hat).
        rewrite Hat in Hr. exists z.
        assert (forall y, In y init ->
                          HeaderModal.index y < HeaderModal.index z) as Hz.
        { rewrite Hlast in Hsorted.
          now destruct (sorted_split init [] z Hsorted). }
        split; [rewrite Hlast; apply in_or_app; right; now left|].
        split; [assumption|]. split.
        + intros _ h' Hin'. rewrite Hlast in Hin'.
          apply in_app_or in Hin'. destruct Hin' as [Hin'|[<-|[]]];
            [specialize (Hz h' Hin') |]; lia.
        + intros (h' & Hin' & Hlt). exfalso.
          rewrite Heq in Hin', Hsorted. simpl in Hin'.
          destruct (sorted_split [] post x Hsorted) as [_ Hpost].
          destruct Hin' as [<-|Hin']; [lia|].
          specialize (Hpost h' Hin'). lia.
      - (* the hit before the first hit at or after the selection *)
        clear IHpre0.
        rewrite length_app in Hr. simpl length in Hr.
        destruct (Z.eqb_spec (Z.of_nat (length pre0 + 1)) 0); [lia|].
        replace (Z.of_nat (length pre0 + 1) - 1)
          with (Z.of_nat (length pre0)) in Hr by lia.
        rewrite at_of_nat, Heq, <- app_assoc in Hr. simpl app in Hr.
        rewrite nth_error_middle in Hr.
        exists p0.
        assert (In p0 (pre0 ++ [p0])) as Hp0
            by (apply in_or_app; right; now left).
        split; [rewrite Heq; apply in_or_app; left; assumption|].
        split; [assumption|].
        pose proof (Hpre' p0 Hp0) as Hp0lt.
        split.
        + intros Hall. exfalso.
          assert (In p0 (HeaderModal.hitItems m)) as Hin0
              by (rewrite Heq; apply in_or_app; now left).
          specialize (Hall p0 Hin0). lia.
        + intros _. split; [assumption|].
          intros h' Hin' Hlt. rewrite Heq in Hin', Hsorted.
          destruct (sorted_split (pre0 ++ [p0]) post x Hsorted)
            as [_ Hpost].
          rewrite <- app_assoc in Hsorted. simpl app in Hsorted.
          destruct (sorted_split pre0 (x :: post) p0 Hsorted)
            as [Hbefore0 _].
          apply in_app_or in Hin'. destruct Hin' as [Hin'|[<-|Hin']].
          * apply in_app_or in Hin'. destruct Hin' as [Hin'|[<-|[]]];
              [specialize (Hbefore0 h' Hin') |]; lia.
          * lia.
          * specialize (Hpost h' Hin'). lia. }
    assert (snd r <> HeaderKeys.TypeError) as Hok
        by (rewrite Hsel; now apply select_hit_completes).
    split; [split; [intros Habs; contradiction | intros Hbad; contradiction]|].
    split; [intros Habs; contradiction|].
    intros _. exists h. split; [assumption|].
    split; [|split; assumption].
    rewrite Hsel.
    now destruct (select_frame m (HeaderModal.index h) floating)
      as (_ & _ & ?).
Qed.

Lemma X4_previous_hit_witness :
  snd (HeaderKeys.moveToPreviousHit HeaderSamples.searchedL true)
  = HeaderKeys.TypeError /\
  HeaderModal.unsafeSelectedIndex
    (fst (HeaderKeys.moveToPreviousHit HeaderSamples.searchedS true)) = 0.
Proof.
  destruct (X4_previous_hit HeaderSamples.searchedL true
              searchedL_consistent) as (Hthrow & _); [simpl; lia|].
  split; [|reflexivity].
  apply Hthrow. simpl.
  intros h [<-|[<-|[]]]; simpl; lia.
Defined.

(** X5. [onOpen] of the header modal, in a markdown view of a note with
    headers. The offset 0 is taken for a missing offset: nothing is
    selected. For any other offset the selection lands inside the list,
    without preview and without touching the items or the hits: on the
    first header when that header starts after the offset, and otherwise
    on a header such that no header up to it starts after the offset and
    the next header, if there is one, does. *)
Theorem X5_open_selects_header (m : HeaderModal.Modal) (o : Z) :
  HeaderKeys.wellIndexed (HeaderModal.items m) ->
  HeaderModal.items m <> [] ->
  let start x :=
    HeaderModal.Loc.offset (HeaderModal.Pos.start (HeaderModal.position x)) in
  let r := HeaderKeys.onOpen m true (Some o) in
  let s := HeaderModal.unsafeSelectedIndex (fst r) in
  (o = 0 -> r = (m, HeaderKeys.Quiet)) /\
  (o <> 0 ->
   snd r = HeaderKeys.Quiet /\
   HeaderModal.items (fst r) = HeaderModal.items m /\
   HeaderModal.hitItems (fst r) = HeaderModal.hitItems m /\
   0 <= s < Z.of_nat (length (HeaderModal.items m)) /\
   (forall x0, nth_error (HeaderModal.items m) 0 = Some x0 ->
               start x0 > o -> s = 0) /\
   (forall x0, nth_error (HeaderModal.items m) 0 = Some x0 ->
               start x0 <= o ->
      (forall i x, nth_error (HeaderModal.items m) i = Some x ->
                   Z.of_nat i <= s -> start x <= o) /\
      (forall x, Arr.at_ (HeaderModal.items m) (s + 1) = Some x ->
                 start x > o))).
Proof.
  intros Hwi Hne start r s.
  assert (Z.of_nat (length (HeaderModal.items m)) <> 0) as Hlen
      by (destruct (HeaderModal.items m); [congruence | simpl; lia]).
  split.
  { intros ->. unfold r, HeaderKeys.onOpen. simpl negb. simpl orb.
    destruct (Z.eqb_spec (Z.of_nat (length (HeaderModal.items m))) 0);
      [lia | reflexivity]. }
  intros Ho.
  assert (r = let firstOverIndex :=
                Arr.findIndex (fun x => start x >? o) (HeaderModal.items m) in
              if firstOverIndex =? -1 then
                match Arr.at_ (HeaderModal.items m)
                        (Z.of_nat (length (HeaderModal.items m)) - 1) with
                | Some l => HeaderKeys.select m (HeaderModal.index l) false
                | None => (m, HeaderKeys.TypeError)
                end
              else if firstOverIndex =? 0 then HeaderKeys.select m 0 false
              else HeaderKeys.select m (firstOverIndex - 1) false) as Hr.
  { unfold r, HeaderKeys.onOpen. simpl negb. simpl orb.
    destruct (Z.eqb_spec (Z.of_nat (length (HeaderModal.items m))) 0);
      [lia|].
    destruct (Z.eqb_spec o 0); [lia | reflexivity]. }
  cbv zeta in Hr.
  assert (forall i, r = HeaderKeys.select m i false ->
            snd r = HeaderKeys.Quiet /\
            HeaderModal.items (fst r) = HeaderModal.items m /\
            HeaderModal.hitItems (fst r) = HeaderModal.hitItems m /\
            s = i) as Hsel.
  { intros i Hi. unfold s. rewrite Hi.
    destruct (select_frame m i false) as (? & ? & ?).
    repeat (split; [assumption || reflexivity|]). assumption. }
  destruct (findIndex_split (fun x => start x >? o) (HeaderModal.items m))
    as [[Hminus Hall] | (pre & x & post & Heq & Hx & Hpre & Hidx)].
  - (* no header starts after the offset: the last one *)
    rewrite Hminus in Hr. simpl Z.eqb in Hr. cbv iota in Hr.
    destruct (at_last _ Hne) as (init & z & Hlast & Hat).
    rewrite Hat in Hr.
    assert (HeaderModal.index z
            = Z.of_nat (length (HeaderModal.items m)) - 1) as Hz.
    { rewrite (Hwi (length init) z).
      - rewrite Hlast, length_app. simpl. lia.
      - rewrite Hlast. apply nth_error_middle. }
    destruct (Hsel _ Hr) as (Hq & Hi & Hh & Hs).
    split; [assumption|]. split; [assumption|]. split; [assumption|].
    split; [lia|].
    assert (forall y, In y (HeaderModal.items m) -> start y <= o) as Hle.
    { intros y Hy. specialize (Hall y Hy). cbv beta in Hall.
      destruct (Z.gtb_spec (start y) o); [discriminate | lia]. }
    split.
    + intros x0 H0 Hgt. apply nth_error_In in H0.
      specialize (Hle x0 H0). lia.
    + intros x0 _ _. split.
      * intros i y Hy _. apply nth_error_In in Hy. now apply Hle.
      * intros y Hy. apply at_Some in Hy. destruct Hy as [_ Hy].
        assert (nth_error (HeaderModal.items m) (Z.to_nat (s + 1)) = None)
          as Hnone by (apply nth_error_None; lia).
        congruence.
  - assert (start x > o) as Hxgt.
    { cbv beta in Hx. destruct (Z.gtb_spec (start x) o);
        [lia | discriminate]. }
    assert (forall y, In y pre -> start y <= o) as Hple.
    { intros y Hy. specialize (Hpre y Hy). cbv beta in Hpre.
      destruct (Z.gtb_spec (start y) o); [discriminate | lia]. }
    rewrite Hidx in Hr.
    destruct (Z.eqb_spec (Z.of_nat (length pre)) (-1)); [lia|].
    assert (Z.of_nat (length (HeaderModal.items m))
            = Z.of_nat (length pre) + 1 + Z.of_nat (length post)) as Hl
        by (rewrite Heq, length_app; simpl; lia).
    destruct pre as [|p0 pre0].
    + (* the first header starts after the offset *)
      simpl in Hr. destruct (Hsel _ Hr) as (Hq & Hi & Hh & Hs).
      split; [assumption|]. split; [assumption|]. split; [assumption|].
      split; [simpl in Hl; lia|].
      split; [intros; assumption|].
      intros x0 H0 Hle0. exfalso.
      rewrite Heq in H0. simpl in H0. injection H0 as <-. lia.
    + destruct (Z.eqb_spec (Z.of_nat (length (p0 :: pre0))) 0);
        [simpl length in *; lia|].
      destruct (Hsel _ Hr) as (Hq & Hi & Hh & Hs).
      split; [assumption|]. split; [assumption|]. split; [assumption|].
      split; [simpl length in *; lia|].
      split.
      * intros x0 H0 Hgt. exfalso.
        rewrite Heq in H0. simpl in H0. injection H0 as <-.
        specialize (Hple p0 (or_introl eq_refl)). lia.
      * intros x0 _ _. split.
        -- intros i y Hy Hi'. rewrite Heq in Hy.
           rewrite nth_error_app1 in Hy by lia.
           apply nth_error_In in Hy. now apply Hple.
        -- intros y Hy. rewrite Hs in Hy.
           replace (Z.of_nat (length (p0 :: pre0)) - 1 + 1)
             with (Z.of_nat (length (p0 :: pre0))) in Hy by lia.
           rewrite at_of_nat, Heq, nth_error_middle in Hy.
           injection Hy as <-. assumption.
Qed.

Lemma X5_open_selects_header_witness :
  HeaderModal.unsafeSelectedIndex
    (fst (HeaderKeys.onOpen HeaderSamples.opened true (Some 250))) = 1 /\
  HeaderModal.unsafeSelectedIndex
    (fst (HeaderKeys.onOpen HeaderSamples.opened true (Some 7))) = 0 /\
  HeaderModal.unsafeSelectedIndex
    (fst (HeaderKeys.onOpen HeaderSamples.opened true (Some 900))) = 2.
Proof.
  assert (HeaderKeys.wellIndexed (HeaderModal.items HeaderSamples.opened))
    as Hwi by apply construct_consistent.
  destruct (X5_open_selects_header HeaderSamples.opened 250 Hwi)
    as (_ & H); [discriminate|].
  destruct H as (_ & _ & _ & _ & _ & _); [lia|].
  repeat split.
Defined.

Section HitCounter.

Import HeaderModal HeaderKeys.

(** In a list in document order, the first hit with the index of the hit
    at place [k] is at place [k]. *)
Lemma findIndex_rank (hits : list SuggestionItem) (k : nat)
    (h item : SuggestionItem) :
  StronglySorted before hits ->
  nth_error hits k = Some h -> index h = index item ->
  Arr.findIndex (fun x => index x =? index item) hits = Z.of_nat k.
Proof.
  intros Hsorted Hk Hidx.
  destruct (findIndex_split (fun x => index x =? index item) hits)
    as [[_ Hall] | (pre & x & post & Heq & Hx & Hpre & ->)].
  - specialize (Hall h (nth_error_In _ _ Hk)). cbv beta in Hall.
    apply Z.eqb_neq in Hall. contradiction.
  - apply Z.eqb_eq in Hx. rewrite Heq in Hk, Hsorted.
    destruct (sorted_split pre post x Hsorted) as [_ Hpost].
    destruct (Nat.lt_trichotomy k (length pre)) as [Hlt | [-> | Hgt]].
    + rewrite nth_error_app1 in Hk by assumption.
      specialize (Hpre h (nth_error_In _ _ Hk)). cbv beta in Hpre.
      apply Z.eqb_neq in Hpre. contradiction.
    + reflexivity.
    + rewrite nth_error_app2 in Hk by lia.
      destruct (k - length pre)%nat as [|j] eqn:Hj; [lia|].
      simpl in Hk. specialize (Hpost h (nth_error_In _ _ Hk)). lia.
Qed.

End HitCounter.

(** X6. [renderSuggestion] of the header modal appends one line to the
    list element. With the hits in document order, the line of the hit at
    place [k] of the [n] hits ends in the counter [k + 1 / n]; the line of
    an item that is no hit, or whose index no hit carries, has no
    counter. *)
Theorem X6_hit_counter (m : HeaderModal.Modal)
    (item : HeaderModal.SuggestionItem)
    (tag : jsstring) (cls : list jsstring)
    (attr : list (jsstring * jsstring)) (children : list Dom.Node) :
  StronglySorted HeaderKeys.before (HeaderModal.hitItems m) ->
  let hits := HeaderModal.hitItems m in
  let line := HeaderKeys.renderSuggestion m item
                (Dom.Element tag cls attr children) in
  let header :=
    Dom.createDiv
      [str "another-quick-switcher__item__title";
       str "another-quick-switcher__item__title__header";
       if HeaderModal.hit item
       then str "another-quick-switcher__item__title__header_hit"
       else str "another-quick-switcher__item__title__header_no_hit";
       str "another-quick-switcher__item__title__header"
       ++ numToString (HeaderModal.level item)]
      (Some (HeaderModal.value item)) in
  let shown entry :=
    Dom.Element tag cls attr
      (children
       ++ [Dom.Element (str "div") [str "another-quick-switcher__item"] []
             [Dom.Element (str "div")
                [str "another-quick-switcher__item__entry"] [] entry]]) in
  (forall k h,
     HeaderModal.hit item = true ->
     nth_error hits k = Some h ->
     HeaderModal.index h = HeaderModal.index item ->
     line
     = shown
         [header;
          Dom.createSpan
            [str "another-quick-switcher__item__title__header_hit__counter"]
            (Some (numToString (Z.of_nat k + 1) ++ str " / "
                   ++ numToString (Z.of_nat (length hits))))
            []]) /\
  (HeaderModal.hit item = false \/
   (forall h, In h hits -> HeaderModal.index h <> HeaderModal.index item) ->
   line = shown [header]).
Proof.
  intros Hsorted hits line header shown. split.
  - intros k h Hhit Hk Hidx. unfold line, HeaderKeys.renderSuggestion.
    rewrite Hhit.
    rewrite (findIndex_rank _ k h item Hsorted Hk Hidx).
    destruct (Z.eqb_spec (Z.of_nat k) (-1)); [lia|].
    unfold header. rewrite Hhit. reflexivity.
  - intros Hno. unfold line, HeaderKeys.renderSuggestion.
    destruct (HeaderModal.hit item) eqn:Hhit.
    + destruct Hno as [Hno | Hno]; [discriminate|].
      destruct (findIndex_split
                  (fun x => HeaderModal.index x =? HeaderModal.index item)
                  (HeaderModal.hitItems m))
        as [[-> _] | (pre & x & post & Heq & Hx & _)].
      * reflexivity.
      * exfalso. apply Z.eqb_eq in Hx. apply (Hno x); [|assumption].
        unfold hits. rewrite Heq. apply in_or_app. right. now left.
    + reflexivity.
Qed.

Lemma X6_hit_counter_witness :
  HeaderKeys.renderSuggestion HeaderSamples.searchedS
    (HeaderModal.mkItem (str "Risks") 2
       (HeaderModal.Pos.mk (HeaderModal.Loc.mk 9 0 360)
                           (HeaderModal.Loc.mk 9 12 372))
       true 2)
    (Dom.Element (str "div") [] [] [])
  = Dom.Element (str "div") [] []
      [Dom.Element (str "div") [str "another-quick-switcher__item"] []
         [Dom.Element (str "div")
            [str "another-quick-switcher__item__entry"] []
            [Dom.createDiv
               [str "another-quick-switcher__item__title";
                str "another-quick-switcher__item__title__header";
                str "another-quick-switcher__item__title__header_hit";
                str "another-quick-switcher__item__title__header2"]
               (Some (str "Risks"));
             Dom.createSpan
               [str "another-quick-switcher__item__title__header_hit__counter"]
               (Some (str "2 / 2")) []]]].
Proof.
  destruct searchedS_consistent as (_ & Hsorted & _).
  destruct (X6_hit_counter HeaderSamples.searchedS
              (HeaderModal.mkItem (str "Risks") 2
                 (HeaderModal.Pos.mk (HeaderModal.Loc.mk 9 0 360)
                                     (HeaderModal.Loc.mk 9 12 372))
                 true 2)
              (str "div") [] [] [] Hsorted) as [Hrank _].
  etransitivity;
    [exact (Hrank 1%nat _ eq_refl eq_refl eq_refl) | reflexivity].
Defined.

(** X7. [navigateNext] and [navigatePrevious] of the header modal. With a
    selection inside the list, each of them completes, keeps the selection
    inside the list, and is undone by the other: the modal is back as it
    was. In a note without headers both raise a TypeError once a preview
    is asked for, whatever the selection. *)
Theorem X7_navigate_round_trip (m : HeaderModal.Modal) (floating : bool) :
  let len := Z.of_nat (length (HeaderModal.items m)) in
  let next := HeaderKeys.navigateNext m floating in
  let previous := HeaderKeys.navigatePrevious m floating in
  (0 <= HeaderModal.unsafeSelectedIndex m < len ->
   snd next <> HeaderKeys.TypeError /\
   snd previous <> HeaderKeys.TypeError /\
   0 <= HeaderModal.unsafeSelectedIndex (fst next) < len /\
   0 <= HeaderModal.unsafeSelectedIndex (fst previous) < len /\
   fst (HeaderKeys.navigatePrevious (fst next) floating) = m /\
   fst (HeaderKeys.navigateNext (fst previous) floating) = m) /\
  (HeaderModal.items m = [] -> floating = true ->
   snd next = HeaderKeys.TypeError /\ snd previous = HeaderKeys.TypeError).
Proof.
  intros len next previous. split.
  - intros Hrange.
    assert (forall m0 i, snd (HeaderKeys.select m0 i floating)
                           = HeaderKeys.TypeError ->
                         ~ (0 <= i < Z.of_nat (length (HeaderModal.items m0))))
      as Hthrow by (intros m0 i H; now apply select_completion in H).
    assert (0 <= HeaderModal.getNextSelectIndex m < len) as Hn.
    { unfold HeaderModal.getNextSelectIndex. fold len.
      destruct (Z.gtb_spec (HeaderModal.unsafeSelectedIndex m + 1) (len - 1));
        lia. }
    assert (0 <= HeaderModal.getPreviousSelectIndex m < len) as Hp.
    { unfold HeaderModal.getPreviousSelectIndex. fold len.
      destruct (Z.ltb_spec (HeaderModal.unsafeSelectedIndex m - 1) 0); lia. }
    split; [intros H; apply Hthrow in H; contradiction|].
    split; [intros H; apply Hthrow in H; contradiction|].
    subst next previous. unfold HeaderKeys.navigateNext,
      HeaderKeys.navigatePrevious.
    destruct (select_frame m (HeaderModal.getNextSelectIndex m) floating)
      as (Hi1 & Hh1 & Hs1).
    destruct (select_frame m (HeaderModal.getPreviousSelectIndex m) floating)
      as (Hi2 & Hh2 & Hs2).
    rewrite Hs1, Hs2.
    split; [assumption|]. split; [assumption|].
    assert (forall m1 i j,
               HeaderModal.items m1 = HeaderModal.items m ->
               HeaderModal.hitItems m1 = HeaderModal.hitItems m ->
               HeaderModal.normalizeAccentsAndDiacritics m1
               = HeaderModal.normalizeAccentsAndDiacritics m ->
               j = HeaderModal.unsafeSelectedIndex m ->
               i = j ->
               fst (HeaderKeys.select m1 i floating) = m) as Hback.
    { intros m1 i j Hi Hh Hnorm -> ->. destruct m, m1.
      unfold HeaderKeys.select, HeaderKeys.setSelectedIndex.
      cbn in *. subst.
      destruct floating; [|reflexivity].
      match goal with |- fst (match ?a with _ => _ end) = _ =>
        destruct a end; reflexivity. }
    assert (forall i, HeaderModal.normalizeAccentsAndDiacritics
                        (fst (HeaderKeys.select m i floating))
                      = HeaderModal.normalizeAccentsAndDiacritics m)
      as Hnorm.
    { intros i. unfold HeaderKeys.select. destruct floating; [|reflexivity].
      match goal with |- context [match ?a with _ => _ end] =>
        destruct a end; reflexivity. }
    split.
    + apply (Hback _ _ (HeaderModal.unsafeSelectedIndex m)); auto.
      unfold HeaderModal.getPreviousSelectIndex.
      rewrite Hs1, Hi1. fold len.
      unfold HeaderModal.getNextSelectIndex. fold len.
      destruct (Z.gtb_spec (HeaderModal.unsafeSelectedIndex m + 1) (len - 1)).
      * destruct (Z.ltb_spec (0 - 1) 0); lia.
      * destruct (Z.ltb_spec (HeaderModal.unsafeSelectedIndex m + 1 - 1) 0);
          lia.
    + apply (Hback _ _ (HeaderModal.unsafeSelectedIndex m)); auto.
      unfold HeaderModal.getNextSelectIndex.
      rewrite Hs2, Hi2. fold len.
      unfold HeaderModal.getPreviousSelectIndex. fold len.
      destruct (Z.ltb_spec (HeaderModal.unsafeSelectedIndex m - 1) 0).
      * destruct (Z.gtb_spec (len - 1 + 1) (len - 1)); lia.
      * destruct (Z.gtb_spec (HeaderModal.unsafeSelectedIndex m - 1 + 1)
                             (len - 1)); lia.
  - intros Hnil ->. subst next previous.
    unfold HeaderKeys.navigateNext, HeaderKeys.navigatePrevious.
    split; apply select_completion; (split; [reflexivity|]);
      rewrite Hnil; simpl; lia.
Qed.

Lemma X7_navigate_round_trip_witness :
  fst (HeaderKeys.navigatePrevious
         (fst (HeaderKeys.navigateNext HeaderSamples.searchedL true)) true)
  = HeaderSamples.searchedL /\
  snd (HeaderKeys.navigateNext HeaderSamples.noHeaders true)
  = HeaderKeys.TypeError.
Proof.
  destruct (X7_navigate_round_trip HeaderSamples.searchedL true)
    as [Hin _].
  destruct (X7_navigate_round_trip HeaderSamples.noHeaders true)
    as [_ Hout].
  split.
  - apply Hin. simpl. lia.
  - apply Hout; reflexivity.
Defined.

(* ================================================================== *)
(** * The command of the switcher *)
(* ================================================================== *)

Section PrefixFacts.

Import Switcher.

Variable env : Imports.

Lemma startsWith_split (s p : jsstring) :
  startsWith s p = true -> exists rest, s = p ++ rest.
Proof.
  revert s. induction p as [|b p IH]; intros s H.
  - now exists s.
  - destruct s as [|a s]; simpl in H; [discriminate|].
    apply andb_true_iff in H. destruct H as [Hab Hs].
    apply N.eqb_eq in Hab. subst b.
    destruct (IH s Hs) as [rest ->]. now exists rest.
Qed.

Lemma removeFirst_prefix (p rest : jsstring) :
  removeFirst (p ++ rest) p = rest.
Proof.
  destruct (p ++ rest) as [|c s] eqn:E.
  - apply app_eq_nil in E. now destruct E as [_ ->].
  - unfold removeFirst. rewrite <- E, startsWith_app.
    induction p as [|b p IH'] in |- *; [reflexivity|].
    clear. induction (b :: p) as [|x l IHl]; [reflexivity | exact IHl].
Qed.

Lemma find_first {A : Type} (p : A -> bool) (pre post : list A) (c : A) :
  p c = true -> (forall b, In b pre -> p b = false) ->
  find p (pre ++ c :: post) = Some c.
Proof.
  intros Hc Hpre. induction pre as [|b pre IH]; simpl.
  - now rewrite Hc.
  - rewrite (Hpre b (or_introl eq_refl)). apply IH.
    intros b' Hb'. apply Hpre. now right.
Qed.

Lemma find_none {A : Type} (p : A -> bool) (l : list A) :
  (forall b, In b l -> p b = false) -> find p l = None.
Proof.
  intros H. destruct (find p l) as [x|] eqn:E; [|reflexivity].
  apply find_some in E. destruct E as [Hin Hp].
  rewrite (H x Hin) in Hp. discriminate.
Qed.

(** The command a query designates: the first command with a prefix the
    query starts with, and the initial command when there is none. *)
Lemma selectCommand_cases (m : Modal) (query : jsstring) :
  let target :=
    match commandByPrefix m query with
    | Some c => c
    | None => initialCommand m
    end in
  (sameObject target (command m) = true /\ selectCommand env m query = m) \/
  (sameObject target (command m) = false /\
   selectCommand env m query = indexingItems env (setCommand m target)).
Proof.
  unfold selectCommand.
  destruct (commandByPrefix m query) as [c|]; cbn zeta;
    match goal with |- context [sameObject ?a ?b] =>
      destruct (sameObject a b) end; cbn; auto.
Qed.

Lemma getSuggestions_state (m : Modal) (query : jsstring) :
  let m' := snd (_getSuggestions env m query) in
  let m1 := selectCommand env m query in
  command m' = command m1 /\
  searchQuery m' = resolveSearchQuery m1 query /\
  originItems m' = originItems m1 /\
  ignoredItems m' = ignoredItems m1.
Proof.
  cbv zeta. rewrite getSuggestions_unfold. cbv zeta.
  destruct (backlinkWithoutOrigin _); cbn [snd];
    unfold setCountInputEl, setStatusElements, prepare,
      renderInputComponent, setStatusElements, setSearchQuery;
    cbn; auto.
Qed.

Lemma resolveSearchQuery_prefix (m : Modal) (rest : jsstring) :
  resolveSearchQuery m (commandPrefix (command m) ++ rest)
  = defaultInput (command m) ++ rest.
Proof.
  unfold resolveSearchQuery.
  rewrite startsWith_app, removeFirst_prefix.
  now destruct (defaultInput (command m)).
Qed.

Lemma resolveSearchQuery_other (m : Modal) (query : jsstring) :
  startsWith query (commandPrefix (command m)) = false ->
  resolveSearchQuery m query = defaultInput (command m) ++ query.
Proof.
  intros H. unfold resolveSearchQuery. rewrite H.
  now destruct (defaultInput (command m)).
Qed.

End PrefixFacts.

(** X8. The command [_getSuggestions] works with. Commands are objects:
    one with the identity of the current command is the current command.
    The first command of the settings with a prefix the query starts with
    becomes the command, and the query is searched without that prefix,
    behind the default input of the command. When no prefix fits, the
    command is the initial command of the modal again. The items are
    indexed again exactly when the command is another object than
    before. *)
Theorem X8_command_by_prefix (env : Switcher.Imports) (m : Switcher.Modal)
    (query : jsstring) :
  (forall c, In c (Switcher.searchCommands (Switcher.settings m)) ->
             Switcher.sameObject c (Switcher.command m) = true ->
             c = Switcher.command m) ->
  (Switcher.sameObject (Switcher.initialCommand m) (Switcher.command m)
   = true ->
   Switcher.initialCommand m = Switcher.command m) ->
  let m' := snd (Switcher._getSuggestions env m query) in
  let prefixed :=
    filter (fun x => truthy (Switcher.commandPrefix x))
           (Switcher.searchCommands (Switcher.settings m)) in
  (forall pre c post,
     prefixed = pre ++ c :: post ->
     startsWith query (Switcher.commandPrefix c) = true ->
     (forall b, In b pre ->
                startsWith query (Switcher.commandPrefix b) = false) ->
     Switcher.command m' = c /\
     exists rest,
       query = Switcher.commandPrefix c ++ rest /\
       Switcher.searchQuery m' = Switcher.defaultInput c ++ rest) /\
  ((forall c, In c prefixed ->
              startsWith query (Switcher.commandPrefix c) = false) ->
   Switcher.command m' = Switcher.initialCommand m /\
   (forall rest,
      query = Switcher.commandPrefix (Switcher.initialCommand m) ++ rest ->
      Switcher.searchQuery m'
      = Switcher.defaultInput (Switcher.initialCommand m) ++ rest) /\
   (startsWith query (Switcher.commandPrefix (Switcher.initialCommand m))
    = false ->
    Switcher.searchQuery m'
    = Switcher.defaultInput (Switcher.initialCommand m) ++ query)) /\
  (Switcher.sameObject (Switcher.command m') (Switcher.command m) = true ->
   Switcher.originItems m' = Switcher.originItems m /\
   Switcher.ignoredItems m' = Switcher.ignoredItems m) /\
  (Switcher.sameObject (Switcher.command m') (Switcher.command m) = false ->
   Switcher.originItems m'
   = Switcher.fileItems env (Switcher.command m') (Switcher.originFile m)
     ++ Switcher.phantomItems m /\
   Switcher.ignoredItems m'
   = Switcher.prefilterItems env (Switcher.command m')
       (Switcher.originFile m) (Switcher.originItems m')).
Proof.
  intros Hid Hinit m' prefixed.
  destruct (getSuggestions_state env m query) as (Hc & Hq & Ho & Hi).
  fold m' in Hc, Hq, Ho, Hi.
  assert (forall target,
             match Switcher.commandByPrefix m query with
             | Some c => c
             | None => Switcher.initialCommand m
             end = target ->
             (Switcher.sameObject target (Switcher.command m) = true ->
              target = Switcher.command m) ->
             Switcher.command m' = target /\
             Switcher.searchQuery m'
             = Switcher.resolveSearchQuery
                 (Switcher.setCommand m target) query) as Htarget.
  { intros target Ht Hsame.
    destruct (selectCommand_cases env m query) as [[Hs Hm] | [Hs Hm]];
      cbv zeta in Hs, Hm; rewrite ?Ht in Hs; rewrite ?Ht in Hm;
      rewrite Hc, Hq, Hm.
    - rewrite (Hsame Hs). split; [reflexivity|].
      unfold Switcher.resolveSearchQuery. reflexivity.
    - split; reflexivity. }
  split; [|split; [|split]].
  - intros pre c post Hsplit Hstarts Hpre.
    assert (Switcher.commandByPrefix m query = Some c) as Hfind.
    { unfold Switcher.commandByPrefix. fold prefixed. rewrite Hsplit.
      now apply find_first. }
    assert (In c (Switcher.searchCommands (Switcher.settings m))) as Hin.
    { assert (In c prefixed) as Hp
          by (rewrite Hsplit; apply in_or_app; right; now left).
      now apply filter_In in Hp. }
    destruct (Htarget c) as [Hcmd Hquery];
      [now rewrite Hfind | now apply Hid |].
    split; [assumption|].
    destruct (startsWith_split _ _ Hstarts) as [rest Hrest].
    exists rest. split; [assumption|].
    rewrite Hquery, Hrest.
    apply (resolveSearchQuery_prefix (Switcher.setCommand m c) rest).
  - intros Hnone.
    assert (Switcher.commandByPrefix m query = None) as Hfind
        by (unfold Switcher.commandByPrefix; now apply find_none).
    destruct (Htarget (Switcher.initialCommand m)) as [Hcmd Hquery];
      [now rewrite Hfind | assumption |].
    split; [assumption|]. split.
    + intros rest ->. rewrite Hquery.
      apply (resolveSearchQuery_prefix
               (Switcher.setCommand m (Switcher.initialCommand m)) rest).
    + intros Hno. rewrite Hquery.
      now apply (resolveSearchQuery_other
                   (Switcher.setCommand m (Switcher.initialCommand m))).
  - intros Hsame.
    destruct (selectCommand_cases env m query) as [[Hs Hm] | [Hs Hm]];
      cbv zeta in Hs, Hm.
    + rewrite Ho, Hi, Hm. split; reflexivity.
    + exfalso. rewrite Hc, Hm in Hsame. cbn in Hsame. congruence.
  - intros Hother.
    destruct (selectCommand_cases env m query) as [[Hs Hm] | [Hs Hm]];
      cbv zeta in Hs, Hm.
    + exfalso. rewrite Hc, Hm in Hother.
      unfold Switcher.sameObject in Hother.
      rewrite Nat.eqb_refl in Hother. discriminate.
    + rewrite Hi, Ho, Hc, Hm. split; reflexivity.
Qed.

Lemma X8_command_by_prefix_witness :
  Switcher.command
    (snd (Switcher._getSuggestions Samples.sampleEnv
            SwitcherSamples.withPrefixes (str ":t plan")))
  = SwitcherSamples.tagSearch /\
  Switcher.searchQuery
    (snd (Switcher._getSuggestions Samples.sampleEnv
            SwitcherSamples.withPrefixes (str ":t plan")))
  = str "#plan".
Proof.
  assert (forall c,
             In c (Switcher.searchCommands
                     (Switcher.settings SwitcherSamples.withPrefixes)) ->
             Switcher.sameObject
               c (Switcher.command SwitcherSamples.withPrefixes) = true ->
             c = Switcher.command SwitcherSamples.withPrefixes) as Hid.
  { intros c [<-|[<-|[<-|[]]]]; [reflexivity | discriminate | discriminate]. }
  destruct (X8_command_by_prefix Samples.sampleEnv
              SwitcherSamples.withPrefixes (str ":t plan") Hid
              (fun _ => eq_refl)) as (Hfirst & _).
  destruct (Hfirst [] SwitcherSamples.tagSearch
                   [SwitcherSamples.recentSearch] eq_refl eq_refl)
    as (Hcmd & rest & Hrest & Hquery).
  - intros b [].
  - split; [exact Hcmd|].
    rewrite Hquery. f_equal.
    change (str ":t plan")
      with (Switcher.commandPrefix SwitcherSamples.tagSearch ++ str "plan")
      in Hrest.
    apply app_inv_head in Hrest. now rewrite <- Hrest.
Defined.

(* ================================================================== *)
(** * The index of the last open files *)
(* ================================================================== *)

Section RecencyFacts.

Import Sorters.




End RecencyFacts.



(* ================================================================== *)
(** * The navigation history *)
(* ================================================================== *)

Section NavigationFacts.

Import Switcher Navigation.

Variable env : Imports.
Variable phantomFiles : list TFile.t.
Variable showExistingFilesOnly : bool.

(** The suggestion computation leaves the navigation alone. *)
Lemma getSuggestions_frame (m : Modal) (query : jsstring) :
  let m' := snd (_getSuggestions env m query) in
  navigationHistories m' = navigationHistories m /\
  currentNavigationHistoryIndex m' = currentNavigationHistoryIndex m /\
  originFile m' = originFile m /\
  initialCommand m' = initialCommand m /\
  settings m' = settings m.
Proof.
  cbv zeta. rewrite getSuggestions_unfold. cbv zeta.
  assert (forall m0 : Modal,
             navigationHistories (prepare env m0 query)
             = navigationHistories m0 /\
             currentNavigationHistoryIndex (prepare env m0 query)
             = currentNavigationHistoryIndex m0 /\
             originFile (prepare env m0 query) = originFile m0 /\
             initialCommand (prepare env m0 query) = initialCommand m0 /\
             settings (prepare env m0 query) = settings m0) as Hp.
  { intros m0. unfold prepare, selectCommand.
    destruct (_ && _); cbn; auto. }
  destruct (backlinkWithoutOrigin _); cbn [snd]; [apply Hp|].
  unfold setCountInputEl, setStatusElements. cbn. apply Hp.
Qed.






End NavigationFacts.





(* ================================================================== *)
(** * The paths of the files to be created *)
(* ================================================================== *)

Section PathFacts.

Lemma includes_app_r (t s p : jsstring) :
  includes s p = true -> includes (t ++ s) p = true.
Proof.
  intros H. induction t as [|c t IH]; [assumption|].
  simpl app. cbn [includes]. rewrite IH. apply orb_true_r.
Qed.

Lemma includes_separator (dir rest : jsstring) :
  includes (dir ++ str "/" ++ rest) (str "/") = true.
Proof.
  apply includes_app_r. destruct rest; cbn; now rewrite ?N.eqb_refl.
Qed.

End PathFacts.

(** X12. [getPathToBeCreated] never answers a bare file name: whatever
    the link text and the configuration of the vault, also with no folder
    configured and no active file, the path has a slash in it. So has the
    path of every phantom file. *)
Theorem X12_path_has_folder (app : AppHelper.Imports) :
  (forall linkText,
     includes (AppHelper.getPathToBeCreated app linkText) (str "/") = true) /\
  (forall f, In f (AppHelper.searchPhantomFiles app) ->
             includes (TFile.path f) (str "/") = true).
Proof.
  assert (forall t,
             includes (AppHelper.getPathToBeCreated app t) (str "/") = true)
    as Hall.
  { intros t. unfold AppHelper.getPathToBeCreated. cbv zeta.
    set (linkPath :=
           if negb (Js.eqb (AppHelper.extname app
                              (AppHelper.getLinkpath app t)) (str ".md"))
           then AppHelper.getLinkpath app t ++ str ".md"
           else AppHelper.getLinkpath app t).
    destruct (includes linkPath (str "/")) eqn:E; [exact E|].
    destruct (AppHelper.newFileLocation app);
      first [apply includes_separator
            | apply (includes_separator [] linkPath)]. }
  split; [exact Hall|].
  intros f Hf. unfold AppHelper.searchPhantomFiles in Hf.
  apply in_map_iff in Hf. destruct Hf as (t & <- & _).
  apply Hall.
Qed.

Lemma X12_path_has_folder_witness :
  exists f,
    In f (AppHelper.searchPhantomFiles Samples.sampleApp) /\
    TFile.path f = str "inbox/Roadmap.md" /\
    includes (TFile.path f) (str "/") = true.
Proof.
  destruct (X12_path_has_folder Samples.sampleApp) as [_ Hphantom].
  eexists. split; [left; reflexivity|]. split; [reflexivity|].
  apply Hphantom. left. reflexivity.
Defined.

(* ================================================================== *)
(** * The backlinks *)
(* ================================================================== *)

Section BacklinkFacts.

Import Backlinks.

Lemma get_put {V : Type} (o : list (jsstring * V)) (k k' : jsstring)
    (v : V) :
  get (put o k v) k' = if Js.eqb k k' then Some v else get o k'.
Proof.
  induction o as [|[k0 v0] o IH]; simpl.
  - reflexivity.
  - destruct (Js.eqb k0 k) eqn:E0; simpl.
    + apply eqb_eq in E0. subst k0. now destruct (Js.eqb k k').
    + destruct (Js.eqb k0 k') eqn:E1; [|exact IH].
      destruct (Js.eqb k k') eqn:E2; [|reflexivity].
      apply eqb_eq in E1, E2. subst k0 k'.
      rewrite (proj2 (eqb_eq k k) eq_refl) in E0. discriminate.
Qed.

Lemma In_setAdd (s : list jsstring) (v x : jsstring) :
  In x (setAdd s v) <-> In x s \/ x = v.
Proof.
  unfold setAdd. destruct (existsb (Js.eqb v) s) eqn:E.
  - apply existsb_exists in E. destruct E as (y & Hy & Hvy).
    apply eqb_eq in Hvy. subst y. split; [auto|].
    intros [H | ->]; assumption.
  - rewrite in_app_iff. simpl. split.
    + intros [H | [<- | []]]; auto.
    + intros [H | ->]; auto.
Qed.

(** One step of the loops: a TypeError exactly on a name that is
    inherited and not a key of the map; else the file joins the set of
    the link path, and nothing else changes. *)
Lemma addBacklink_spec (filePath linkPath : jsstring) (o : BacklinksMap) :
  match addBacklink filePath linkPath o with
  | None => get o linkPath = None /\ inherited linkPath = true
  | Some o' =>
      (get o linkPath = None -> inherited linkPath = false) /\
      forall k,
        get o' k =
        if Js.eqb linkPath k
        then Some (setAdd (match get o linkPath with
                           | Some s => s
                           | None => []
                           end) filePath)
        else get o k
  end.
Proof.
  unfold addBacklink, read.
  destruct (get o linkPath) as [s|] eqn:Hget.
  - cbn. rewrite Hget. split; [discriminate|]. intros k. apply get_put.
  - destruct (inherited linkPath) eqn:Hin.
    + cbn. rewrite Hget. auto.
    + rewrite get_put, (proj2 (eqb_eq linkPath linkPath) eq_refl).
      split; [reflexivity|]. intros k. rewrite !get_put.
      now destruct (Js.eqb linkPath k).
Qed.

(** The links of a graph, one by one. *)
Lemma edges_fold (graph : LinkGraph) (acc : option BacklinksMap) :
  fold_left
    (fun acc entry =>
       fold_left
         (fun acc' linkPath =>
            match acc' with
            | Some o => addBacklink (fst entry) linkPath o
            | None => None
            end)
         (map fst (snd entry)) acc)
    graph acc
  = fold_left
      (fun acc e =>
         match acc with
         | Some o => addBacklink (fst e) (snd e) o
         | None => None
         end)
      (flat_map (fun entry =>
                   map (fun link => (fst entry, fst link)) (snd entry))
                graph)
      acc.
Proof.
  revert acc. induction graph as [|[filePath linkMap] graph IH];
    intros acc; [reflexivity|].
  cbn [fold_left flat_map fst snd]. rewrite fold_left_app, IH. f_equal.
  clear. revert acc. induction linkMap as [|link linkMap IH];
    intros acc; [reflexivity|].
  cbn. apply IH.
Qed.

Lemma backlinks_fold (edges : list (jsstring * jsstring)) :
  match fold_left
          (fun acc e =>
             match acc with
             | Some o => addBacklink (fst e) (snd e) o
             | None => None
             end)
          edges (Some []) with
  | None =>
      exists filePath linkPath,
        In (filePath, linkPath) edges /\ inherited linkPath = true
  | Some o =>
      (forall filePath linkPath,
         In (filePath, linkPath) edges -> inherited linkPath = false) /\
      (forall k s, get o k = Some s -> inherited k = false) /\
      (forall linkPath filePath,
         (exists s, get o linkPath = Some s /\ In filePath s) <->
         In (filePath, linkPath) edges)
  end.
Proof.
  induction edges as [|[filePath linkPath] edges IH] using rev_ind.
  - cbn. split; [intros ? ? []|]. split; [discriminate|].
    intros l f. split; [intros (s & Hs & _); discriminate | intros []].
  - rewrite fold_left_app. cbn [fold_left fst snd].
    match type of IH with match ?folded with _ => _ end =>
      destruct folded as [o|] end.
    + destruct IH as (Hclean & Hkeys & Hmem).
      pose proof (addBacklink_spec filePath linkPath o) as Hstep.
      destruct (addBacklink filePath linkPath o) as [o'|].
      * destruct Hstep as [Hnew Hget].
        assert (inherited linkPath = false) as Hlp.
        { destruct (get o linkPath) as [s|] eqn:E; [|now apply Hnew].
          now apply (Hkeys linkPath s). }
        split; [|split].
        -- intros f l Hin. apply in_app_or in Hin.
           destruct Hin as [Hin | [[= <- <-] | []]];
             [now apply (Hclean f l) | assumption].
        -- intros k s. rewrite Hget.
           destruct (Js.eqb linkPath k) eqn:E.
           ++ apply eqb_eq in E. subst k. intros _. assumption.
           ++ apply Hkeys.
        -- intros l f. rewrite Hget, in_app_iff.
           destruct (Js.eqb linkPath l) eqn:E.
           ++ apply eqb_eq in E. subst l. split.
              ** intros (s & [= <-] & Hin). apply In_setAdd in Hin.
                 destruct Hin as [Hin | ->]; [|right; now left].
                 left. apply Hmem.
                 destruct (get o linkPath) as [s|]; [|destruct Hin].
                 now exists s.
              ** intros Hin. eexists. split; [reflexivity|].
                 apply In_setAdd.
                 destruct Hin as [Hin | [[= ->] | []]]; [|now right].
                 left. apply Hmem in Hin.
                 destruct Hin as (s & -> & Hin). assumption.
           ++ rewrite Hmem. split; [auto|].
              intros [Hin | [[= <- <-] | []]]; [assumption|].
              rewrite (proj2 (eqb_eq linkPath linkPath) eq_refl) in E.
              discriminate.
      * destruct Hstep as [_ Hin]. exists filePath, linkPath.
        split; [apply in_or_app; right; now left | assumption].
    + destruct IH as (f & l & Hin & Hl). exists f, l.
      split; [apply in_or_app; now left | assumption].
Qed.

End BacklinkFacts.

(** X13. [createBacklinksMap] turns the link graph round. It completes
    exactly when no link path of the merged graph is a name that objects
    inherit, such as "constructor"; on such a name it raises a TypeError.
    When it completes, a file is in the set of a link path exactly when
    the graph has a link from that file to that path. *)
Theorem X13_backlinks_invert (app : AppHelper.Imports)
    (resolvedLinks : Backlinks.LinkGraph)
    (mapValues :
       Backlinks.LinkGraph ->
       (list (jsstring * Z) -> list (jsstring * Z)) -> Backlinks.LinkGraph)
    (mapKeys :
       list (jsstring * Z) -> (jsstring -> jsstring) -> list (jsstring * Z))
    (merge :
       Backlinks.LinkGraph -> Backlinks.LinkGraph -> Backlinks.LinkGraph) :
  let graph :=
    Backlinks.mergedLinks app resolvedLinks mapValues mapKeys merge in
  let links filePath linkPath :=
    exists linkMap n,
      In (filePath, linkMap) graph /\ In (linkPath, n) linkMap in
  let result :=
    Backlinks.createBacklinksMap app resolvedLinks mapValues mapKeys merge in
  (result = None <->
   exists filePath linkPath,
     links filePath linkPath /\ Backlinks.inherited linkPath = true) /\
  (forall o, result = Some o ->
     forall linkPath filePath,
       (exists s, Backlinks.get o linkPath = Some s /\ In filePath s) <->
       links filePath linkPath).
Proof.
  intros graph links result.
  assert (forall f l,
             In (f, l)
                (flat_map (fun entry =>
                             map (fun link => (fst entry, fst link))
                                 (snd entry))
                          graph) <->
             links f l) as Hedges.
  { intros f l. rewrite in_flat_map. split.
    - intros ([f' linkMap] & Hin & Hl). cbn in Hl.
      apply in_map_iff in Hl. destruct Hl as ([l' n] & [= <- <-] & Hl).
      now exists linkMap, n.
    - intros (linkMap & n & Hin & Hl). exists (f, linkMap).
      split; [assumption|]. cbn. apply in_map_iff. now exists (l, n). }
  unfold result, Backlinks.createBacklinksMap. fold graph.
  rewrite edges_fold.
  pose proof (backlinks_fold
                (flat_map (fun entry =>
                             map (fun link => (fst entry, fst link))
                                 (snd entry))
                          graph)) as Hfold.
  match type of Hfold with match ?folded with _ => _ end =>
    destruct folded as [o|] end.
  - destruct Hfold as (Hclean & _ & Hmem). split.
    + split; [discriminate|].
      intros (f & l & Hl & Hin). apply Hedges in Hl.
      rewrite (Hclean f l Hl) in Hin. discriminate.
    + intros o' [= <-] l f. rewrite Hmem. apply Hedges.
  - destruct Hfold as (f & l & Hin & Hl). split.
    + split; [|reflexivity]. intros _. exists f, l.
      split; [now apply Hedges | assumption].
    + discriminate.
Qed.

Lemma X13_backlinks_invert_witness :
  (exists o s,
     Backlinks.createBacklinksMap Samples.sampleApp LinkSamples.resolved
       LinkSamples.mapValues LinkSamples.mapKeys LinkSamples.merge
     = Some o /\
     Backlinks.get o (str "inbox/Roadmap.md") = Some s /\
     In (str "work/Project Plan.md") s) /\
  Backlinks.createBacklinksMap Samples.sampleApp LinkSamples.awkward
    LinkSamples.mapValues LinkSamples.mapKeys LinkSamples.merge
  = None.
Proof.
  split.
  - destruct (X13_backlinks_invert Samples.sampleApp LinkSamples.resolved
                LinkSamples.mapValues LinkSamples.mapKeys LinkSamples.merge)
      as [_ Hsome].
    destruct (Backlinks.createBacklinksMap _ _ _ _ _) as [o|] eqn:Ho;
      [|discriminate].
    destruct (proj2 (Hsome o eq_refl (str "inbox/Roadmap.md")
                           (str "work/Project Plan.md")))
      as (s & Hs & Hin).
    + exists [(str "inbox/Roadmap.md", 1); (str "ideas/Next.md", 2)], 1.
      split; [right; left; reflexivity | left; reflexivity].
    + exists o, s. auto.
  - destruct (X13_backlinks_invert Samples.sampleApp LinkSamples.awkward
                LinkSamples.mapValues LinkSamples.mapKeys LinkSamples.merge)
      as [Hnone _].
    apply Hnone.
    exists (str "home/Groceries.md"), (str "constructor").
    split; [|reflexivity].
    exists [(str "constructor", 1)], 1.
    split; left; reflexivity.
Defined.

(* ================================================================== *)
(** * The elements of a suggestion *)
(* ================================================================== *)

Section FactoryFacts.

Import Dom DomRead SuggestionFactory.

Variable lib : Imports.

(** What [createElements] returns: the guard on the fresh object never
    holds, so the description is always built. *)
Lemma createElements_unfold (item : Matcher.SuggestionItem)
    (options : Options) (next : nat) :
  let aliases :=
    uniqFlatMap lib (filter Matcher.alias (Matcher.matchResults item))
                metaOrEmpty in
  let tags :=
    uniqFlatMap lib
      (filter (fun res => Matcher.MatchType_eqb (Matcher.type res)
                                                Matcher.Tag)
              (Matcher.matchResults item))
      metaOrEmpty in
  let links :=
    uniqFlatMap lib
      (filter (fun res => Matcher.MatchType_eqb (Matcher.type res)
                                                Matcher.Link)
              (Matcher.matchResults item))
      metaOrEmpty in
  let headerResults :=
    filter (fun res => Matcher.MatchType_eqb (Matcher.type res)
                                             Matcher.Header)
           (Matcher.matchResults item) in
  fst (createElements lib item options next)
  = mkElements
      (createItemDiv lib item aliases options)
      (Some (createDescriptionDiv lib item aliases tags links
               (count lib
                  (flat_map (fun xs => uniq lib (metaOrEmpty xs))
                            headerResults))
               (Z.of_nat (length headerResults)) options)).
Proof.
  cbv zeta.
  unfold createElements, bind, newObject, ret, strictEquals.
  cbn [address contents].
  destruct (_ && _ && _); cbn; [|reflexivity].
  replace (Nat.eqb next (S next)) with false
    by (symmetry; apply Nat.eqb_neq; lia).
  reflexivity.
Qed.

Lemma positive_length {A : Type} (l : list A) :
  (0 <? Z.of_nat (length l)) = negb (match l with [] => true | _ => false end).
Proof. destruct l; reflexivity. Qed.

(** One group for each list that is not empty. *)
Lemma createDescriptionDiv_groups (item : Matcher.SuggestionItem)
    (aliases tags links : list jsstring)
    (countByHeader : list (jsstring * Z)) (headerResultsNum : Z)
    (options : Options) :
  length (childNodes
            (createDescriptionDiv lib item aliases tags links
               countByHeader headerResultsNum options))
  = ((match aliases with [] => 0 | _ => 1 end)
     + (match tags with [] => 0 | _ => 1 end)
     + (match links with [] => 0 | _ => 1 end)
     + (match countByHeader with [] => 0 | _ => 1 end))%nat.
Proof.
  unfold createDescriptionDiv. rewrite !positive_length.
  destruct aliases, tags, links, countByHeader; reflexivity.
Qed.

End FactoryFacts.

Lemma sorted_weaken {A : Type} (R S : A -> A -> Prop) (l : list A) :
  (forall a b, R a b -> S a b) -> StronglySorted R l -> StronglySorted S l.
Proof.
  intros Himp. induction 1 as [|x l Hs IH Hall]; constructor; auto.
  eapply Forall_impl; [|exact Hall]. intros b. apply Himp.
Qed.

Section CountOrder.

Variable A : Type.
Variable cmp : A -> A -> Z.

Hypothesis cmp_total : forall a b, 0 < cmp a b -> cmp b a <= 0.
Hypothesis cmp_trans :
  forall a b c, cmp a b <= 0 -> cmp b c <= 0 -> cmp a c <= 0.

Lemma insert_sorted (x : A) (l : list A) :
  StronglySorted (fun a b => cmp a b <= 0) l ->
  StronglySorted (fun a b => cmp a b <= 0) (Collection.insert cmp x l).
Proof.
  induction 1 as [|y l Hsorted IH Hall]; simpl.
  - constructor; constructor.
  - destruct (Z.leb_spec (cmp x y) 0) as [Hle|Hgt].
    + constructor; [now constructor|].
      constructor; [assumption|].
      rewrite Forall_forall in *. intros z Hz.
      apply (cmp_trans x y z); auto.
    + constructor; [assumption|].
      rewrite Forall_forall in *. intros z Hz.
      apply (Permutation_in _ (insert_perm cmp x l)) in Hz.
      destruct Hz as [<- | Hz]; [now apply cmp_total | now apply Hall].
Qed.

Lemma stableSort_sorted (l : list A) :
  StronglySorted (fun a b => cmp a b <= 0) (Collection.stableSort cmp l).
Proof.
  induction l as [|x l IH]; [constructor|].
  change (Collection.stableSort cmp (x :: l))
    with (Collection.insert cmp x (Collection.stableSort cmp l)).
  now apply insert_sorted.
Qed.

End CountOrder.

(** X14. The description of a suggestion. [createElements] builds it
    for every item, and it holds one group for each of the aliases, the
    tags, the links and the headers that is not empty: an item nothing
    was matched in gets a description without children. *)
Theorem X14_description_groups (lib : SuggestionFactory.Imports)
    (item : Matcher.SuggestionItem) (options : SuggestionFactory.Options)
    (next : nat) :
  let aliases :=
    SuggestionFactory.uniqFlatMap lib
      (filter Matcher.alias (Matcher.matchResults item))
      SuggestionFactory.metaOrEmpty in
  let tags :=
    SuggestionFactory.uniqFlatMap lib
      (filter (fun res => Matcher.MatchType_eqb (Matcher.type res)
                                                Matcher.Tag)
              (Matcher.matchResults item))
      SuggestionFactory.metaOrEmpty in
  let links :=
    SuggestionFactory.uniqFlatMap lib
      (filter (fun res => Matcher.MatchType_eqb (Matcher.type res)
                                                Matcher.Link)
              (Matcher.matchResults item))
      SuggestionFactory.metaOrEmpty in
  let countByHeader :=
    SuggestionFactory.count lib
      (flat_map (fun xs => SuggestionFactory.uniq
                             lib (SuggestionFactory.metaOrEmpty xs))
                (filter (fun res => Matcher.MatchType_eqb (Matcher.type res)
                                                          Matcher.Header)
                        (Matcher.matchResults item))) in
  exists d,
    SuggestionFactory.descriptionDiv
      (fst (SuggestionFactory.createElements lib item options next))
    = Some d /\
    length (DomRead.childNodes d)
    = ((match aliases with [] => 0 | _ => 1 end)
       + (match tags with [] => 0 | _ => 1 end)
       + (match links with [] => 0 | _ => 1 end)
       + (match countByHeader with [] => 0 | _ => 1 end))%nat /\
    (DomRead.childNodes d = [] <->
     aliases = [] /\ tags = [] /\ links = [] /\ countByHeader = []).
Proof.
  intros aliases tags links countByHeader.
  rewrite createElements_unfold.
  cbn [SuggestionFactory.descriptionDiv].
  eexists. split; [reflexivity|].
  fold aliases tags links countByHeader.
  split; [apply createDescriptionDiv_groups|].
  rewrite <- length_zero_iff_nil, createDescriptionDiv_groups.
  destruct aliases, tags, links, countByHeader; cbn;
    split; try discriminate; try lia; auto;
    intros (? & ? & ? & ?); discriminate.
Qed.

Lemma X14_description_groups_witness :
  exists d,
    SuggestionFactory.descriptionDiv
      (fst (SuggestionFactory.createElements FactorySamples.lib
              Samples.groceries FactorySamples.plain 0%nat))
    = Some d /\
    DomRead.childNodes d = [].
Proof.
  destruct (X14_description_groups FactorySamples.lib Samples.groceries
              FactorySamples.plain 0%nat) as (d & Hd & _ & Hempty).
  exists d. split; [exact Hd|].
  apply Hempty. repeat split.
Defined.

(** X15. The headers in the description of a suggestion. When headers
    were matched, the last group of the description lists every header
    of the count once, by decreasing count; headers of one count keep the
    order of the count. A header is dimmed when its count is not the
    number of header results. *)
Theorem X15_headers_by_count (lib : SuggestionFactory.Imports)
    (item : Matcher.SuggestionItem) (aliases tags links : list jsstring)
    (countByHeader : list (jsstring * Z)) (headerResultsNum : Z)
    (options : SuggestionFactory.Options) :
  countByHeader <> [] ->
  exists sorted,
    Permutation sorted countByHeader /\
    StronglySorted (fun a b => snd b <= snd a) sorted /\
    (forall n,
       filter (fun hn => snd hn =? n) sorted
       = filter (fun hn => snd hn =? n) countByHeader) /\
    DomRead.lastChild
      (SuggestionFactory.createDescriptionDiv lib item aliases tags links
         countByHeader headerResultsNum options)
    = Some
        (SuggestionFactory.describe
           (map (fun hn =>
                   Dom.appendChild
                     (Dom.appendChild
                        (Dom.createSpan
                           [str "another-quick-switcher__item__description__header";
                            if snd hn =? headerResultsNum then []
                            else str "another-quick-switcher__item__description__header__dimmed"]
                           None [])
                        (Dom.Html (SuggestionFactory.HEADER lib)))
                     (Dom.createSpan [] (Some (fst hn))
                        [(str "style", str "padding-left: 3px")]))
                sorted)).
Proof.
  intros Hne.
  exists (Collection.stableSort (fun a b => snd b - snd a) countByHeader).
  split; [apply stableSort_perm|]. split; [|split].
  - apply (sorted_weaken
             (fun a b : jsstring * Z => snd b - snd a <= 0));
      [intros a b H; lia|].
    apply (stableSort_sorted _ (fun a b : jsstring * Z => snd b - snd a)).
    + intros a b H. lia.
    + intros a b c H1 H2. lia.
  - intros n. apply stableSort_stable.
    intros a b _ _ Ha Hb. apply Z.eqb_eq in Ha, Hb. lia.
  - unfold SuggestionFactory.createDescriptionDiv.
    rewrite !positive_length.
    assert (forall hn : jsstring * Z,
               SuggestionFactory.clsIf
                 (negb (snd hn =? headerResultsNum))
                 "another-quick-switcher__item__description__header__dimmed"
               = (if snd hn =? headerResultsNum then []
                  else str "another-quick-switcher__item__description__header__dimmed"))
      as Hcls by (intros hn; now destruct (snd hn =? headerResultsNum)).
    destruct countByHeader as [|c cs]; [contradiction|].
    destruct aliases, tags, links; cbn [negb];
      unfold DomRead.lastChild; cbn [Dom.createDiv Dom.appendChild
        DomRead.childNodes app rev];
      (rewrite ?rev_app_distr; cbn [rev app]; do 2 f_equal;
       apply map_ext; intros hn; now rewrite Hcls).
Qed.

Lemma X15_headers_by_count_witness :
  exists group,
    DomRead.lastChild
      (SuggestionFactory.createDescriptionDiv FactorySamples.lib
         Samples.projectPlan [] [] [] FactorySamples.counts 3
         FactorySamples.plain)
    = Some group /\
    length (DomRead.childNodes group) = 3%nat.
Proof.
  destruct (X15_headers_by_count FactorySamples.lib Samples.projectPlan
              [] [] [] FactorySamples.counts 3 FactorySamples.plain)
    as (sorted & Hperm & _ & _ & Hlast); [discriminate|].
  eexists. split; [exact Hlast|].
  apply Permutation_length in Hperm.
  destruct sorted as [|a [|b [|c [|d sorted]]]]; try discriminate.
  reflexivity.
Defined.

Section RenderingFacts.

Import Dom DomRead SuggestionFactory.

Lemma renderSuggestion_unfold (lib : Imports) (options : Options)
    (item : Matcher.SuggestionItem) (el : Node) (next : nat) :
  fst (Rendering.renderSuggestion lib options item el next)
  = let elements := fst (createElements lib item options next) in
    appendChild el
      (match descriptionDiv elements with
       | Some d =>
           if Rendering.hasChildNodes d
           then appendChild (itemDiv elements) d
           else itemDiv elements
       | None => itemDiv elements
       end).
Proof.
  unfold Rendering.renderSuggestion, bind, ret.
  destruct (createElements lib item options next) as [elements next'].
  reflexivity.
Qed.

(** The suggestions [_getSuggestions] returns carry their place. *)
Lemma getSuggestions_order (env : Switcher.Imports) (m : Switcher.Modal)
    (query : jsstring) (i : nat) (y : Matcher.SuggestionItem) :
  nth_error (fst (Switcher._getSuggestions env m query)) i = Some y ->
  Matcher.order y = Some (Z.of_nat i).
Proof.
  rewrite getSuggestions_unfold. cbv zeta.
  destruct (Switcher.backlinkWithoutOrigin _); cbn [fst].
  - destruct i; discriminate.
  - intros H. apply truncateAndNumber_nth in H.
    destruct H as (x & _ & ->). reflexivity.
Qed.

End RenderingFacts.

(** X16. The line of a suggestion in the list of the switcher.
    [renderSuggestion] appends one item to the list element. For the
    suggestion at place [i] of what [_getSuggestions] returned, the entry
    of the item shows the title, then the hot-key guide [i + 1] when [i]
    is below nine and no guide otherwise, then the directory when the
    options ask for it. The description follows the entry exactly when
    something was matched in an alias, a tag, a link or a header. *)
Theorem X16_rendered_line (env : Switcher.Imports)
    (lib : SuggestionFactory.Imports) (options : SuggestionFactory.Options)
    (m : Switcher.Modal) (query : jsstring) (i : nat)
    (y : Matcher.SuggestionItem)
    (tag : jsstring) (cls : list jsstring)
    (attr : list (jsstring * jsstring)) (children : list Dom.Node)
    (next : nat) :
  nth_error (fst (Switcher._getSuggestions env m query)) i = Some y ->
  let matched (p : Matcher.MatchQueryResult -> bool) :=
    SuggestionFactory.uniqFlatMap lib
      (filter p (Matcher.matchResults y)) SuggestionFactory.metaOrEmpty in
  let countByHeader :=
    SuggestionFactory.count lib
      (flat_map (fun xs => SuggestionFactory.uniq
                             lib (SuggestionFactory.metaOrEmpty xs))
                (filter (fun res => Matcher.MatchType_eqb (Matcher.type res)
                                                          Matcher.Header)
                        (Matcher.matchResults y))) in
  let guide :=
    if Z.of_nat i <? 9
    then [Dom.createSpan
            [str "another-quick-switcher__item__hot-key-guide"]
            (Some (numToString (Z.of_nat i + 1))) []]
    else [] in
  exists itemCls title directory description,
    fst (Rendering.renderSuggestion lib options y
           (Dom.Element tag cls attr children) next)
    = Dom.Element tag cls attr
        (children
         ++ [Dom.Element (str "div") itemCls []
               (Dom.Element (str "div")
                  [str "another-quick-switcher__item__entry"] []
                  (title :: guide ++ directory)
                :: description)]) /\
    (SuggestionFactory.showDirectory options = false -> directory = []) /\
    (length directory <= 1)%nat /\
    (length description <= 1)%nat /\
    (description = [] <->
     matched Matcher.alias = [] /\
     matched (fun res => Matcher.MatchType_eqb (Matcher.type res)
                                               Matcher.Tag) = [] /\
     matched (fun res => Matcher.MatchType_eqb (Matcher.type res)
                                               Matcher.Link) = [] /\
     countByHeader = []).
Proof.
  intros Hy matched countByHeader guide.
  apply getSuggestions_order in Hy.
  rewrite renderSuggestion_unfold, createElements_unfold. cbv zeta.
  cbn [SuggestionFactory.itemDiv SuggestionFactory.descriptionDiv].
  fold (matched Matcher.alias)
       (matched (fun res => Matcher.MatchType_eqb (Matcher.type res)
                                                  Matcher.Tag))
       (matched (fun res => Matcher.MatchType_eqb (Matcher.type res)
                                                  Matcher.Link))
       countByHeader.
  set (d := SuggestionFactory.createDescriptionDiv _ _ _ _ _ _ _ _).
  assert (DomRead.childNodes d = [] <->
          matched Matcher.alias = [] /\
          matched (fun res => Matcher.MatchType_eqb (Matcher.type res)
                                                    Matcher.Tag) = [] /\
          matched (fun res => Matcher.MatchType_eqb (Matcher.type res)
                                                    Matcher.Link) = [] /\
          countByHeader = []) as Hd.
  { rewrite <- length_zero_iff_nil. unfold d.
    rewrite createDescriptionDiv_groups.
    destruct (matched Matcher.alias),
      (matched (fun res => Matcher.MatchType_eqb (Matcher.type res)
                                                 Matcher.Tag)),
      (matched (fun res => Matcher.MatchType_eqb (Matcher.type res)
                                                 Matcher.Link)),
      countByHeader; cbn;
      split; try discriminate; try lia; auto;
      intros (? & ? & ? & ?); discriminate. }
  unfold SuggestionFactory.createItemDiv. rewrite Hy. fold guide.
  exists [str "another-quick-switcher__item";
          SuggestionFactory.clsIf (Matcher.phantom y)
            "another-quick-switcher__phantom_item";
          SuggestionFactory.clsIf (Matcher.starred y)
            "another-quick-switcher__starred_item";
          SuggestionFactory.clsIf (SuggestionFactory.hideGutterIcons options)
            "another-quick-switcher__gutter_hidden"].
  eexists.
  exists (if SuggestionFactory.showDirectory options
          then [Dom.appendChild
                  (Dom.appendChild
                     (Dom.createDiv
                        [str "another-quick-switcher__item__directory"] None)
                     (Dom.Html (SuggestionFactory.FOLDER lib)))
                  (Dom.TextNode
                     (str " "
                      ++ (if SuggestionFactory.showFullPathOfDirectory options
                          then TFolder.path (TFile.parent (Matcher.file y))
                          else TFolder.name
                                 (TFile.parent (Matcher.file y)))))]
          else []).
  exists (if Rendering.hasChildNodes d then [d] else []).
  split; [|split; [|split; [|split]]].
  - unfold guide.
    destruct (Z.of_nat i <? 9), (SuggestionFactory.showDirectory options),
      (Rendering.hasChildNodes d); reflexivity.
  - now intros ->.
  - destruct (SuggestionFactory.showDirectory options); simpl; lia.
  - destruct (Rendering.hasChildNodes d); simpl; lia.
  - rewrite <- Hd. unfold Rendering.hasChildNodes.
    destruct (DomRead.childNodes d); split; try discriminate; auto.
Qed.

Lemma X16_rendered_line_witness :
  exists line,
    fst (Rendering.renderSuggestion FactorySamples.lib FactorySamples.plain
           (Matcher.withOrder Samples.projectNotes 0)
           (Dom.Element (str "div") [] [] []) 0%nat)
    = Dom.Element (str "div") [] [] [line] /\
    DomRead.childNodes line
    = [Dom.Element (str "div") [str "another-quick-switcher__item__entry"] []
         [Dom.createDiv [str "another-quick-switcher__item__title"]
            (Some (str "Project Notes"));
          Dom.createSpan [str "another-quick-switcher__item__hot-key-guide"]
            (Some (str "1")) []]].
Proof.
  assert (nth_error
            (fst (Switcher._getSuggestions Samples.sampleEnv Samples.tenLines
                    (str "")))
            0%nat
          = Some (Matcher.withOrder Samples.projectNotes 0)) as Hfirst
      by reflexivity.
  destruct (X16_rendered_line Samples.sampleEnv FactorySamples.lib
              FactorySamples.plain Samples.tenLines (str "") 0%nat
              (Matcher.withOrder Samples.projectNotes 0)
              (str "div") [] [] [] 0%nat Hfirst)
    as (itemCls & title & directory & description & Hline & _).
  eexists. split; reflexivity.
Defined.

(* ================================================================== *)
(** * The commands of the plugin *)
(* ================================================================== *)

Section CommandFacts.

Import Commands.

Variable toLowerCase : jsstring -> jsstring.

Lemma searchCommandId_prefix (command : Switcher.SearchCommand) :
  startsWith (searchCommandId toLowerCase command) (str "search-command_")
  = true.
Proof.
  unfold searchCommandId, SEARCH_COMMAND_PREFIX.
  rewrite app_assoc.
  change (str "search-command" ++ str "_") with (str "search-command_").
  apply startsWith_app.
Qed.

Lemma NoDup_prefixed (prefix : jsstring) (l : list jsstring) :
  NoDup (map (fun s => prefix ++ s) l) <-> NoDup l.
Proof.
  split; [apply NoDup_map_inv|].
  induction 1 as [|x l Hx Hl IH]; simpl; constructor; [|assumption].
  intros Hin. apply in_map_iff in Hin. destruct Hin as (y & Hy & Hin).
  apply app_inv_head in Hy. subst y. contradiction.
Qed.

End CommandFacts.

(** X17. The ids of the commands [createCommands] registers. The id of
    a search command starts with "search-command_", so it is never the id
    of one of the four fixed commands. The ids are pairwise distinct
    exactly when the names of the search commands still differ once their
    spaces are hyphens and their letters lower case: two search commands
    named alike up to that share one id. *)
Theorem X17_command_ids (toLowerCase : jsstring -> jsstring)
    (settings : Switcher.Settings) :
  let commands := Commands.createCommands toLowerCase settings in
  let slug c := toLowerCase (Commands.hyphenate (Switcher.name c)) in
  length commands
  = (4 + length (Switcher.searchCommands settings))%nat /\
  (forall c,
     ~ In (Commands.searchCommandId toLowerCase c)
          [str "header-search-in-file";
           str "header-floating-search-in-file"; str "move"; str "grep"]) /\
  (NoDup (map Commands.id commands) <->
   NoDup (map slug (Switcher.searchCommands settings))) /\
  (forall a b,
     Commands.hyphenate (Switcher.name a)
     = Commands.hyphenate (Switcher.name b) ->
     Commands.searchCommandId toLowerCase a
     = Commands.searchCommandId toLowerCase b).
Proof.
  intros commands slug.
  assert (forall c x,
             In x [str "header-search-in-file";
                   str "header-floating-search-in-file";
                   str "move"; str "grep"] ->
             Commands.searchCommandId toLowerCase c <> x) as Hfixed.
  { intros c x Hx Heq.
    pose proof (searchCommandId_prefix toLowerCase c) as Hp.
    rewrite Heq in Hp.
    destruct Hx as [<-|[<-|[<-|[<-|[]]]]]; vm_compute in Hp; discriminate. }
  assert (map Commands.id commands
          = [str "header-search-in-file";
             str "header-floating-search-in-file"; str "move"; str "grep"]
            ++ map (fun s => Commands.SEARCH_COMMAND_PREFIX ++ str "_" ++ s)
                   (map slug (Switcher.searchCommands settings))) as Hids.
  { unfold commands, Commands.createCommands.
    rewrite map_app, !map_map. reflexivity. }
  split; [|split; [|split]].
  - unfold commands, Commands.createCommands.
    rewrite length_app, length_map. reflexivity.
  - intros c Hin. exact (Hfixed c _ Hin eq_refl).
  - rewrite Hids.
    assert (forall x,
               In x [str "header-search-in-file";
                     str "header-floating-search-in-file";
                     str "move"; str "grep"] ->
               ~ In x (map (fun s => Commands.SEARCH_COMMAND_PREFIX
                                       ++ str "_" ++ s)
                           (map slug (Switcher.searchCommands settings))))
      as Hapart.
    { intros x Hx Hin. rewrite map_map in Hin.
      apply in_map_iff in Hin. destruct Hin as (c & Hc & _).
      exact (Hfixed c x Hx Hc). }
    assert (NoDup (map (fun s => Commands.SEARCH_COMMAND_PREFIX
                                   ++ str "_" ++ s)
                       (map slug (Switcher.searchCommands settings)))
            <-> NoDup (map slug (Switcher.searchCommands settings)))
      as Hrest.
    { rewrite <- (NoDup_prefixed (Commands.SEARCH_COMMAND_PREFIX ++ str "_")).
      erewrite map_ext; [reflexivity|].
      intros s. now rewrite app_assoc. }
    rewrite <- Hrest. cbn [app].
    split.
    + intros H. do 4 (apply NoDup_cons_iff in H; destruct H as [_ H]).
      exact H.
    + intros H.
      repeat (apply NoDup_cons;
              [intros Hin; cbn [In] in Hin;
               repeat (destruct Hin as [Hin|Hin];
                       [try (vm_compute in Hin; discriminate)|]);
               try (eapply Hapart; [|exact Hin]; cbn; tauto)|]).
      exact H.
  - intros a b Hab. unfold Commands.searchCommandId. now rewrite Hab.
Qed.

Lemma X17_command_ids_witness :
  Commands.searchCommandId CommandSamples.lower CommandSamples.spaced
  = str "search-command_file-search" /\
  Commands.searchCommandId CommandSamples.lower CommandSamples.hyphened
  = str "search-command_file-search".
Proof.
  destruct (X17_command_ids CommandSamples.lower
              (Switcher.mkSettings
                 [CommandSamples.spaced; CommandSamples.hyphened] 10 false))
    as (_ & _ & _ & Hsame).
  split; [|rewrite <- (Hsame CommandSamples.spaced CommandSamples.hyphened
                              eq_refl)];
    reflexivity.
Defined.

(* ================================================================== *)
(** * The items of the switcher *)
(* ================================================================== *)

Section IndexFacts.

Import Switcher Navigation.

Variable env : Imports.
Variable phantomFiles : list TFile.t.
Variable showExistingFilesOnly : bool.

Lemma getSuggestions_phantoms (m : Modal) (query : jsstring) :
  phantomItems (snd (_getSuggestions env m query)) = phantomItems m.
Proof.
  rewrite getSuggestions_unfold. cbv zeta.
  assert (phantomItems (prepare env m query) = phantomItems m) as Hp.
  { unfold prepare, selectCommand. destruct (_ && _); reflexivity. }
  destruct (backlinkWithoutOrigin _); cbn [snd]; exact Hp.
Qed.

Lemma getSuggestions_indexed (m : Modal) (query : jsstring) :
  indexed env m -> indexed env (snd (_getSuggestions env m query)).
Proof.
  intros [Ho Hi]. unfold indexed.
  destruct (getSuggestions_state env m query) as (Hc & _ & Ho' & Hi').
  destruct (getSuggestions_frame env m query) as (_ & _ & Hf & _).
  cbv zeta in *.
  rewrite Hc, Ho', Hi', Hf, getSuggestions_phantoms.
  destruct (selectCommand_cases env m query) as [[_ Hm] | [_ Hm]];
    cbv zeta in Hm; rewrite Hm.
  - split; assumption.
  - split; reflexivity.
Qed.

Lemma onOpen_indexed (fresh : nat) (s : Switch) :
  indexed env (modal s) -> indexed env (modal (onOpen env fresh s)).
Proof.
  intros H. unfold onOpen, suggest, setInputValue.
  cbn [modal initialInputQuery stackHistory inputValue].
  apply (getSuggestions_indexed _ (initialInputQuery s)) in H.
  destruct (stackHistory s); exact H.
Qed.

Lemma construct_indexed (st : Settings) (c : SearchCommand)
    (origin : option TFile.t) (q : jsstring)
    (hs : list CustomSearchHistory) (i : Z) (stack : bool) :
  indexed env
    (modal (construct env phantomFiles showExistingFilesOnly
                      st c origin q hs i stack)).
Proof. split; reflexivity. Qed.

End IndexFacts.

(** X18. The items of the switcher are never stale with respect to its
    command. [_getSuggestions] keeps this: if the origin items and the
    pre-filtered items are those [indexingItems] computes for the command,
    they still are after the call, whatever command the query selects.
    The constructor establishes it, so it holds in every switcher a user
    gets to. *)
Theorem X18_items_follow_command (env : Switcher.Imports)
    (phantomFiles : list TFile.t) (showExistingFilesOnly : bool) :
  (forall m query,
     Navigation.indexed env m ->
     Navigation.indexed env (snd (Switcher._getSuggestions env m query))) /\
  (forall s,
     Navigation.reachable env phantomFiles showExistingFilesOnly s ->
     Navigation.indexed env (Navigation.modal s)).
Proof.
  split; [apply getSuggestions_indexed|].
  induction 1 as [fresh st c active
                 | s value Hr IH
                 | s query Hr IH
                 | f1 f2 f3 s s' linkCommand selected Hr IH Hnav
                 | f1 f2 s s' index Hr IH Hnav].
  - (* shown by a command *)
    apply onOpen_indexed, construct_indexed.
  - (* typing *)
    exact IH.
  - (* the suggestions *)
    now apply getSuggestions_indexed.
  - (* the link keys *)
    unfold Navigation.navigateLinks in Hnav.
    destruct selected; [|discriminate]. injection Hnav as <-.
    apply onOpen_indexed, construct_indexed.
  - (* back and forward *)
    unfold Navigation.navigate in Hnav.
    destruct (Arr.at_ _ index); [|discriminate]. injection Hnav as <-.
    apply onOpen_indexed, construct_indexed.
Qed.

Lemma X18_items_follow_command_witness :
  exists s,
    NavigationSamples.linked = Some s /\
    Switcher.ignoredItems (Navigation.modal s) = Samples.vault /\
    Switcher.name (Switcher.command (Navigation.modal s))
    = str "Backlink search".
Proof.
  destruct NavigationSamples.linked as [s|] eqn:Hs; [|discriminate].
  assert (Navigation.reachable Samples.sampleEnv [] false s) as Hr.
  { eapply Navigation.Linked; [|exact Hs].
    apply Navigation.Suggested. apply Navigation.Typed.
    apply Navigation.Shown. }
  destruct (X18_items_follow_command Samples.sampleEnv [] false)
    as (_ & Hreach).
  destruct (Hreach s Hr) as [Ho Hi].
  exists s. split; [reflexivity|].
  vm_compute in Hs. injection Hs as <-.
  split; [exact Hi | reflexivity].
Defined.

(* ================================================================== *)
(** * The first link to a file *)
(* ================================================================== *)

(** X19. [findFirstLinkOffset] for a phantom file. It answers the offset
    of the first of the links, then the embeds, of the file whose path to
    be created is the path of the phantom file, and raises a TypeError
    when there is none, as in a file without cache. For the phantom file
    made of the text of one of these links it never raises, and the link
    it finds is that link or an earlier one. *)
Theorem X19_first_link_of_phantom (app : AppHelper.Imports)
    (getFileCache : TFile.t -> option FileCache.t)
    (getFirstLinkpathDest : jsstring -> jsstring -> option TFile.t)
    (file linkFile : TFile.t) :
  AppHelper.isPhantomFile linkFile = true ->
  let all :=
    match getFileCache file with
    | Some c =>
        match FileCache.links c with Some l => l | None => [] end
        ++ match FileCache.embeds c with Some l => l | None => [] end
    | None => []
    end in
  let offset x :=
    HeaderModal.Loc.offset (HeaderModal.Pos.start (LinkCache.position x)) in
  let leads x :=
    AppHelper.getPathToBeCreated app (LinkCache.link x)
    = TFile.path linkFile in
  let result :=
    Links.findFirstLinkOffset app getFileCache getFirstLinkpathDest
                              file linkFile in
  (result = None <-> forall x, In x all -> ~ leads x) /\
  (forall o,
     result = Some o <->
     exists pre x post,
       all = pre ++ x :: post /\ leads x /\ offset x = o /\
       forall y, In y pre -> ~ leads y) /\
  (forall x,
     In x all ->
     linkFile = AppHelper.createPhantomFile app (LinkCache.link x) ->
     result <> None).
Proof.
  intros Hphantom all offset leads result.
  assert (forall x,
             Links.isPath
               (Links.firstLinkPath app getFirstLinkpathDest file linkFile x)
               (TFile.path linkFile) = true <-> leads x) as Hleads.
  { intros x. unfold Links.firstLinkPath. rewrite Hphantom.
    cbn [Links.isPath]. apply eqb_eq. }
  assert (result
          = option_map offset
              (find (fun x =>
                       Links.isPath
                         (Links.firstLinkPath app getFirstLinkpathDest
                                              file linkFile x)
                         (TFile.path linkFile))
                    all)) as Hresult.
  { unfold result, Links.findFirstLinkOffset, all.
    destruct (getFileCache file); reflexivity. }
  assert (result = None <-> forall x, In x all -> ~ leads x) as Hnone.
  { rewrite Hresult.
    destruct (find_split
                (fun x =>
                   Links.isPath
                     (Links.firstLinkPath app getFirstLinkpathDest
                                          file linkFile x)
                     (TFile.path linkFile))
                all)
      as [[-> Hall] | (pre & x & post & Heq & Hx & _ & ->)].
    - split; [|reflexivity]. intros _ x Hin Hl.
      apply Hleads in Hl. rewrite (Hall x Hin) in Hl. discriminate.
    - split; [discriminate|]. intros Hno. exfalso.
      apply (Hno x); [rewrite Heq; apply in_or_app; right; now left|].
      now apply Hleads. }
  split; [exact Hnone|]. split.
  - intros o. rewrite Hresult.
    destruct (find_split
                (fun x =>
                   Links.isPath
                     (Links.firstLinkPath app getFirstLinkpathDest
                                          file linkFile x)
                     (TFile.path linkFile))
                all)
      as [[-> Hall] | (pre & x & post & Heq & Hx & Hpre & ->)].
    + split; [discriminate|].
      intros (pre & x & post & Heq & Hl & _). exfalso.
      apply Hleads in Hl.
      rewrite (Hall x) in Hl; [discriminate|].
      rewrite Heq. apply in_or_app. right. now left.
    + assert (forall y, In y pre -> ~ leads y) as Hpre'.
      { intros y Hy Hl. apply Hleads in Hl.
        rewrite (Hpre y Hy) in Hl. discriminate. }
      cbn [option_map]. split.
      * intros [= <-]. exists pre, x, post.
        split; [assumption|]. split; [now apply Hleads|].
        split; [reflexivity | assumption].
      * intros (pre2 & x2 & post2 & Heq2 & Hl2 & <- & Hpre2).
        f_equal. f_equal.
        assert (pre = pre2 /\ x = x2) as [_ ->]; [|reflexivity].
        clear - Heq Heq2 Hx Hl2 Hpre' Hpre2 Hleads.
        rewrite Heq in Heq2. clear Heq.
        revert pre2 Heq2 Hpre2.
        induction pre as [|a pre IH]; intros [|b pre2] Heq2 Hpre2;
          cbn in Heq2.
        -- injection Heq2 as -> _. auto.
        -- injection Heq2 as -> _. exfalso.
           apply (Hpre2 b); [now left | now apply Hleads].
        -- injection Heq2 as -> _. exfalso.
           apply (Hpre' x2); [now left | assumption].
        -- injection Heq2 as -> Heq2.
           destruct (IH (fun y Hy => Hpre' y (or_intror Hy)) pre2 Heq2
                        (fun y Hy => Hpre2 y (or_intror Hy))) as [-> ->].
           auto.
  - intros x Hin Heq Hnil.
    apply (proj1 Hnone Hnil x Hin). unfold leads. rewrite Heq. reflexivity.
Qed.

Lemma X19_first_link_of_phantom_witness :
  Links.findFirstLinkOffset Samples.sampleApp
    (fun _ => Some LinkSamples.cache) (fun _ _ => None)
    (Matcher.file Samples.projectPlan)
    (AppHelper.createPhantomFile Samples.sampleApp (str "Roadmap"))
  = Some 120 /\
  Links.findFirstLinkOffset Samples.sampleApp
    (fun _ => None) (fun _ _ => None)
    (Matcher.file Samples.projectPlan)
    (AppHelper.createPhantomFile Samples.sampleApp (str "Roadmap"))
  = None.
Proof.
  destruct (X19_first_link_of_phantom Samples.sampleApp
              (fun _ => Some LinkSamples.cache) (fun _ _ => None)
              (Matcher.file Samples.projectPlan)
              (AppHelper.createPhantomFile Samples.sampleApp (str "Roadmap"))
              eq_refl) as (_ & Hsome & _).
  destruct (X19_first_link_of_phantom Samples.sampleApp
              (fun _ => None) (fun _ _ => None)
              (Matcher.file Samples.projectPlan)
              (AppHelper.createPhantomFile Samples.sampleApp (str "Roadmap"))
              eq_refl) as (Hnone & _).
  split.
  - apply Hsome.
    exists [LinkSamples.linkAt "ideas/Next.md#Draft" 2],
      (LinkSamples.linkAt "Roadmap" 3), [LinkSamples.linkAt "Roadmap" 1].
    split; [reflexivity|]. split; [reflexivity|]. split; [reflexivity|].
    intros y [<-|[]]. discriminate.
  - apply Hnone. intros x [].
Defined.
